(** * csvencoding: a shallow embedding of the reflection-driven CSV codec

    The development follows the two source files of the package:
    [encode.go] (the [Encoder], [marshal], [Encode]) and [decode.go]
    (the [Decoder], [readStringTo], [readCellValuesTo], [readStructTo],
    [CellValues] and [Decode]).

    What the package takes from Go's libraries is modelled from their
    documented behaviour: [strings], the integer and boolean functions of
    [strconv], the [csv] reader and writer, and of [reflect] the types,
    the values and the flag bits of a [reflect.Value] the code depends on
    (addressable, and the two read-only bits).  The float functions of
    [strconv] are an interface, with a reference implementation for the
    examples.

    A [reflect.Value] is given by its type, the contents of the storage
    behind it and its flags.  A function that writes through a
    [reflect.Value] returns the new contents of that storage.  A
    run-time panic is an outcome of its own, distinct from a returned
    [error]. *)

From Stdlib Require Import ZArith String Ascii List Lia PrimFloat FloatOps SpecFloat.
From stdpp Require Import gmap strings.

Set Warnings "-register-all".

Local Open Scope Z_scope.

(* ===================================================================== *)
(** ** Byte strings *)
(* ===================================================================== *)

Module strings.

(** [strings.Join(elems, sep)]. *)
Fixpoint Join (elems : list string) (sep : string) : string :=
  match elems with
  | [] => ""
  | [e] => e
  | e :: rest => e +:+ sep +:+ Join rest sep
  end.

(** [strings.Split(s, sep)] for a one-byte separator: the pieces between
    the occurrences of [sep]; never the empty list. *)
Fixpoint Split (s : string) (sep : ascii) : list string :=
  match s with
  | EmptyString => [""]
  | String c rest =>
      if Ascii.eqb c sep then "" :: Split rest sep
      else match Split rest sep with
           | [] => [String c ""]
           | p :: ps => String c p :: ps
           end
  end.

(** [strings.SplitN(s, sep, 2)] for a one-byte separator: the text before
    the first [sep], and the text after it when there is one. *)
Fixpoint SplitN2 (s : string) (sep : ascii) : string * option string :=
  match s with
  | EmptyString => ("", None)
  | String c rest =>
      if Ascii.eqb c sep then ("", Some rest)
      else let '(h, t) := SplitN2 rest sep in (String c h, t)
  end.

Definition lower_byte (c : ascii) : ascii :=
  let n := Z.of_nat (nat_of_ascii c) in
  if (65 <=? n) && (n <=? 90) then ascii_of_nat (Z.to_nat (n + 32)) else c.

(** [strings.ToLower] on ASCII text. *)
Fixpoint ToLower (s : string) : string :=
  match s with
  | EmptyString => EmptyString
  | String c rest => String (lower_byte c) (ToLower rest)
  end.

End strings.

(* ===================================================================== *)
(** ** The [strconv] functions the codec calls *)
(* ===================================================================== *)

Module strconv.

(** [strconv.ErrSyntax] and [strconv.ErrRange]. *)
Inductive Cause := ErrSyntax | ErrRange.

(** [*strconv.NumError]: the function that failed, the text it was
    given and the cause.  The text is the attempted value; no field name
    is part of it. *)
Record NumError := mkNumError { Func : string; Num : string; Err : Cause }.

(** The platform's [int] width. *)
Definition IntSize : Z := 64.

(** [if bitSize == 0 { bitSize = IntSize }]. *)
Definition effectiveBits (bitSize : Z) : Z := if bitSize =? 0 then IntSize else bitSize.

Definition byte (c : ascii) : Z := Z.of_nat (nat_of_ascii c).
Definition chr (n : Z) : ascii := ascii_of_nat (Z.to_nat n).

(** [lower(c)] of [strconv]: [c | ('x' - 'X')]. *)
Definition lower (c : ascii) : Z := Z.lor (byte c) 32.

(** *** Formatting *)

Definition FormatBool (b : bool) : string := if b then "true" else "false".

(** Decimal digits of a non-negative number, most significant first,
    pushed in front of [acc]. *)
Fixpoint digits_fuel (fuel : nat) (n : Z) (acc : string) : string :=
  match fuel with
  | O => acc
  | S fuel' =>
      let acc' := String (chr (48 + n mod 10)) acc in
      if n <? 10 then acc' else digits_fuel fuel' (n / 10) acc'
  end.

Definition FormatUint10 (n : Z) : string :=
  digits_fuel (S (Z.to_nat (Z.log2 n))) n "".

(** [strconv.FormatInt(i, 10)]. *)
Definition FormatInt10 (i : Z) : string :=
  if i <? 0 then String "-" (FormatUint10 (- i)) else FormatUint10 i.

(** *** Parsing *)

(** [strconv.ParseBool]. *)
Definition ParseBool (str : string) : bool * option NumError :=
  if bool_decide (str = "1") || bool_decide (str = "t") || bool_decide (str = "T")
     || bool_decide (str = "true") || bool_decide (str = "TRUE") || bool_decide (str = "True")
  then (true, None)
  else if bool_decide (str = "0") || bool_decide (str = "f") || bool_decide (str = "F")
     || bool_decide (str = "false") || bool_decide (str = "FALSE") || bool_decide (str = "False")
  then (false, None)
  else (false, Some (mkNumError "ParseBool" str ErrSyntax)).

Definition is_digit (c : ascii) : bool := (48 <=? byte c) && (byte c <=? 57).
Definition is_lower_letter (c : ascii) : bool := (97 <=? lower c) && (lower c <=? 122).

(** [underscoreOK]: underscores may only separate digits; a base prefix
    counts as a digit.  [saw] is the last class of byte seen:
    0 for a digit, 1 for an underscore, 2 for anything else, 3 at the
    start. *)
Fixpoint underscore_scan (hex : bool) (saw : Z) (s : string) : bool :=
  match s with
  | EmptyString => negb (saw =? 1)
  | String c rest =>
      if is_digit c || (hex && (97 <=? lower c) && (lower c <=? 102))
      then underscore_scan hex 0 rest
      else if Ascii.eqb c "_"
      then if saw =? 0 then underscore_scan hex 1 rest else false
      else if saw =? 1 then false
      else underscore_scan hex 2 rest
  end.

Definition strip_sign (s : string) : string :=
  match s with
  | String c rest => if Ascii.eqb c "-" || Ascii.eqb c "+" then rest else s
  | EmptyString => s
  end.

Definition underscoreOK (s : string) : bool :=
  match strip_sign s with
  | String c0 (String c1 rest) =>
      if Ascii.eqb c0 "0" && ((lower c1 =? 98) || (lower c1 =? 111) || (lower c1 =? 120))
      then underscore_scan (lower c1 =? 120) 0 rest
      else underscore_scan false 3 (String c0 (String c1 rest))
  | s' => underscore_scan false 3 s'
  end.

(** The base prefix recognised when [base == 0]: the base and the text
    that remains. *)
Definition base_prefix (s : string) : Z * string :=
  match s with
  | String c0 rest =>
      if Ascii.eqb c0 "0" then
        match rest with
        | String c1 (String c2 rest2) =>
            if lower c1 =? 98 then (2, String c2 rest2)
            else if lower c1 =? 111 then (8, String c2 rest2)
            else if lower c1 =? 120 then (16, String c2 rest2)
            else (8, rest)
        | _ => (8, rest)
        end
      else (10, s)
  | EmptyString => (10, s)
  end.

Definition maxUint64 : Z := 2 ^ 64 - 1.

Inductive loop_result :=
| LoopDone (n : Z) (underscores : bool)
| LoopSyntax
| LoopRange.

(** The digit loop of [ParseUint]; [n] is a [uint64], so the sum wraps
    modulo [2^64] and the source tests [n1 < n] for it. *)
Fixpoint digit_loop (base0 : bool) (base cutoff maxVal : Z)
         (s : string) (n : Z) (underscores : bool) : loop_result :=
  match s with
  | EmptyString => LoopDone n underscores
  | String c rest =>
      if Ascii.eqb c "_" && base0
      then digit_loop base0 base cutoff maxVal rest n true
      else
        let d := if is_digit c then Some (byte c - 48)
                 else if is_lower_letter c then Some (lower c - 97 + 10)
                 else None in
        match d with
        | None => LoopSyntax
        | Some d =>
            if base <=? d then LoopSyntax
            else if cutoff <=? n then LoopRange
            else
              let n' := n * base in
              let n1 := (n' + d) mod 2 ^ 64 in
              if (n1 <? n') || (maxVal <? n1) then LoopRange
              else digit_loop base0 base cutoff maxVal rest n1 underscores
        end
  end.

(** [strconv.ParseUint(s, 0, bitSize)]: the value and, on failure, the
    cause. *)
Definition ParseUint0 (s : string) (bitSize : Z) : Z * option Cause :=
  match s with
  | EmptyString => (0, Some ErrSyntax)
  | _ =>
      let '(base, digits) := base_prefix s in
      let bitSize := if bitSize =? 0 then IntSize else bitSize in
      let cutoff := maxUint64 / base + 1 in
      let maxVal := 2 ^ bitSize - 1 in
      match digit_loop true base cutoff maxVal digits 0 false with
      | LoopSyntax => (0, Some ErrSyntax)
      | LoopRange => (maxVal, Some ErrRange)
      | LoopDone n underscores =>
          if underscores && negb (underscoreOK s) then (0, Some ErrSyntax)
          else (n, None)
      end
  end.

(** [strconv.ParseInt(s, 0, bitSize)]. *)
Definition ParseInt0 (s : string) (bitSize : Z) : Z * option NumError :=
  match s with
  | EmptyString => (0, Some (mkNumError "ParseInt" s ErrSyntax))
  | String c rest =>
      let neg := Ascii.eqb c "-" in
      let body := if Ascii.eqb c "+" || neg then rest else s in
      let '(un, err) := ParseUint0 body bitSize in
      match err with
      | Some ErrSyntax => (0, Some (mkNumError "ParseInt" s ErrSyntax))
      | _ =>
          let bitSize := if bitSize =? 0 then IntSize else bitSize in
          let cutoff := 2 ^ (bitSize - 1) in
          if negb neg && (cutoff <=? un)
          then (cutoff - 1, Some (mkNumError "ParseInt" s ErrRange))
          else if neg && (cutoff <? un)
          then (- cutoff, Some (mkNumError "ParseInt" s ErrRange))
          else (if neg then - un else un, None)
      end
  end.

End strconv.

(* ===================================================================== *)
(** ** Floating-point conversions of [strconv] *)
(* ===================================================================== *)

(** [strconv.FormatFloat] and [strconv.ParseFloat] belong to Go's standard
    library, not to this package.  The codec is stated over any
    implementation of the two; a [float32] is carried as the [float64] of
    the same value, which is what [reflect.Value.Float] hands out, and
    [float32_of] is the rounding [reflect.Value.SetFloat] applies when it
    stores into a 32-bit field. *)
Class FloatConv := {
  FormatFloat : float -> ascii -> Z -> Z -> string;
  ParseFloat : string -> Z -> float * option strconv.NumError;
  float32_of : float -> float
}.

(** A reference implementation of [strconv.FormatFloat(f, 'f', -1, bitSize)]
    (the only format and precision the codec asks for) and of
    [strconv.ParseFloat] on decimal text (no hexadecimal floats, no
    underscores), built on the rounding of the standard library's
    [SpecFloat].  It serves the worked examples; the theorems hold for
    every [FloatConv]. *)
Module GoFloat.

(** The float of precision [prec] nearest to [num / den], ties to
    even. *)
Definition round_ratio (prec emax : Z) (s : bool) (num den : Z) : spec_float :=
  match num with
  | Zpos _ =>
      let '(mz, ez, lz) := SFdiv_core_binary prec emax num 0 den 0 in
      binary_round_aux prec emax s mz ez lz
  | _ => S754_zero s
  end.

(** The float nearest to [m * 10^e]. *)
Definition round_decimal (prec emax : Z) (s : bool) (m e : Z) : spec_float :=
  if 0 <=? e then round_ratio prec emax s (m * 10 ^ e) 1
  else round_ratio prec emax s m (10 ^ (- e)).

Definition precOf (bitSize : Z) : Z := if bitSize =? 32 then 24 else 53.
Definition emaxOf (bitSize : Z) : Z := if bitSize =? 32 then 128 else 1024.

(** [float64(float32(f))]. *)
Definition to_float32 (f : float) : float :=
  match Prim2SF f with
  | S754_finite s m e => SF2Prim (binary_round 24 128 s m e)
  | _ => f
  end.

(** *** Parsing *)

(** Leading decimal digits: their value, their number and the rest. *)
Fixpoint take_digits (s : string) (acc : Z) (n : Z) : Z * Z * string :=
  match s with
  | String c rest =>
      if strconv.is_digit c then take_digits rest (acc * 10 + (strconv.byte c - 48)) (n + 1)
      else (acc, n, s)
  | EmptyString => (acc, n, s)
  end.

Definition lower_string (s : string) : string := strings.ToLower s.

Definition split_sign (s : string) : bool * bool * string :=
  match s with
  | String c rest =>
      if Ascii.eqb c "-" then (true, true, rest)
      else if Ascii.eqb c "+" then (false, true, rest)
      else (false, false, s)
  | EmptyString => (false, false, s)
  end.

(** The exponent part: [e], a sign, digits. *)
Definition take_exponent (s : string) : option Z :=
  match s with
  | EmptyString => Some 0
  | String c rest =>
      if Ascii.eqb c "e" || Ascii.eqb c "E" then
        let '(neg, _, body) := split_sign rest in
        match take_digits body 0 0 with
        | (x, n, EmptyString) => if 0 <? n then Some (if neg then - x else x) else None
        | _ => None
        end
      else None
  end.

(** Decimal text as [mantissa * 10^exponent]. *)
Definition read_decimal (s : string) : option (Z * Z) :=
  let '(ip, ni, rest) := take_digits s 0 0 in
  let '(m, nf, rest) :=
    match rest with
    | String c rest' =>
        if Ascii.eqb c "." then
          let '(m, nf, rest'') := take_digits rest' ip 0 in (m, nf, rest'')
        else (ip, 0, rest)
    | EmptyString => (ip, 0, rest)
    end in
  if 0 <? ni + nf then
    match take_exponent rest with
    | Some x => Some (m, x - nf)
    | None => None
    end
  else None.

Definition ParseFloat (s : string) (bitSize : Z) : float * option strconv.NumError :=
  let syntax := (0%float, Some (strconv.mkNumError "ParseFloat" s strconv.ErrSyntax)) in
  let '(neg, signed, body) := split_sign s in
  let low := lower_string body in
  if bool_decide (low = "inf") || bool_decide (low = "infinity")
  then (if neg then neg_infinity else infinity, None)
  else if bool_decide (low = "nan") && negb signed then (nan, None)
  else
    match read_decimal body with
    | None => syntax
    | Some (m, e) =>
        match round_decimal (precOf bitSize) (emaxOf bitSize) neg m e with
        | S754_infinity sg =>
            (if sg then neg_infinity else infinity,
             Some (strconv.mkNumError "ParseFloat" s strconv.ErrRange))
        | r => (SF2Prim r, None)
        end
    end.

(** *** Formatting *)

(** [floor(log10(num / den))] for a positive ratio, from an estimate
    corrected in a few steps. *)
Fixpoint fix_log10 (fuel : nat) (num den j : Z) : Z :=
  match fuel with
  | O => j
  | S fuel' =>
      let ge (j : Z) := if 0 <=? j then den * 10 ^ j <=? num else den <=? num * 10 ^ (- j) in
      if negb (ge j) then fix_log10 fuel' num den (j - 1)
      else if ge (j + 1) then fix_log10 fuel' num den (j + 1)
      else j
  end.

Definition log10_floor (num den : Z) : Z :=
  fix_log10 8 num den (((Z.log2 num - Z.log2 den) * 1233) / 4096).

(** The candidates with [n] significant digits next to [num / den]:
    the digits and the decimal exponent, the nearer one first. *)
Definition candidates (num den n : Z) : list (Z * Z) :=
  let k := log10_floor num den - n + 1 in
  let '(a, b) := if 0 <=? k then (num, den * 10 ^ k) else (num * 10 ^ (- k), den) in
  let lo := a / b in
  let r := a mod b in
  if r =? 0 then [(lo, k)]
  else if 2 * r <? b then [(lo, k); (lo + 1, k)]
  else if b <? 2 * r then [(lo + 1, k); (lo, k)]
  else if Z.even lo then [(lo, k); (lo + 1, k)] else [(lo + 1, k); (lo, k)].

Definition sf_eqb (x y : spec_float) : bool :=
  match x, y with
  | S754_finite s m e, S754_finite s' m' e' =>
      Bool.eqb s s' && (Zpos m =? Zpos m') && (e =? e')
  | S754_zero s, S754_zero s' => Bool.eqb s s'
  | S754_infinity s, S754_infinity s' => Bool.eqb s s'
  | S754_nan, S754_nan => true
  | _, _ => false
  end.

(** The shortest digits that read back as [target]. *)
Fixpoint shortest (fuel : nat) (prec emax : Z) (target : spec_float) (num den n : Z)
  : Z * Z :=
  let cands := candidates num den n in
  match filter (fun c => sf_eqb (round_decimal prec emax false (fst c) (snd c)) target) cands with
  | c :: _ => c
  | [] =>
      match fuel with
      | O => hd (0, 0) cands
      | S fuel' => shortest fuel' prec emax target num den (n + 1)
      end
  end.

Fixpoint strip_zeros (fuel : nat) (d k : Z) : Z * Z :=
  match fuel with
  | O => (d, k)
  | S fuel' => if (d mod 10 =? 0) && negb (d =? 0) then strip_zeros fuel' (d / 10) (k + 1) else (d, k)
  end.

Fixpoint zeros (n : nat) : string :=
  match n with O => "" | S n' => String "0" (zeros n') end.

Fixpoint split_at (n : nat) (s : string) : string * string :=
  match n, s with
  | S n', String c rest => let '(a, b) := split_at n' rest in (String c a, b)
  | _, _ => ("", s)
  end.

(** Digits [d] and exponent [k] in the ['f'] layout. *)
Definition layout (d k : Z) : string :=
  let ds := strconv.FormatUint10 d in
  if 0 <=? k then ds +:+ zeros (Z.to_nat k)
  else
    let p := Z.of_nat (String.length ds) + k in
    if 0 <? p then let '(a, b) := split_at (Z.to_nat p) ds in a +:+ "." +:+ b
    else "0." +:+ zeros (Z.to_nat (- p)) +:+ ds.

Definition FormatFloat (f : float) (fmt : ascii) (prec : Z) (bitSize : Z) : string :=
  let f := if bitSize =? 32 then to_float32 f else f in
  match Prim2SF f with
  | S754_nan => "NaN"
  | S754_infinity s => if s then "-Inf" else "+Inf"
  | S754_zero s => if s then "-0" else "0"
  | S754_finite s m e =>
      let '(num, den) := if 0 <=? e then (Zpos m * 2 ^ e, 1) else (Zpos m, 2 ^ (- e)) in
      let target :=
        if bitSize =? 32 then binary_round 24 128 false m e else S754_finite false m e in
      let '(d, k) := shortest 20 (precOf bitSize) (emaxOf bitSize) target num den 1 in
      let '(d, k) := strip_zeros 400 d k in
      (if s then "-" else "") +:+ layout d k
  end.

Definition goFloatConv : FloatConv := Build_FloatConv FormatFloat ParseFloat to_float32.

End GoFloat.


(* ===================================================================== *)
(** ** Types, values and [reflect.Value] *)
(* ===================================================================== *)

Module reflect.

(** [reflect.Kind], as far as the codec tells kinds apart. *)
Module kind.
Inductive Kind :=
| Bool | Int | Int8 | Int16 | Int32 | Int64 | Float32 | Float64
| String | Ptr | Slice | Map | Struct
| Other.   (* uint*, complex*, array, chan, func, interface, unsafe pointer *)
End kind.
Abbreviation Kind := kind.Kind.

#[export] Instance Kind_eq_dec : EqDecision Kind.
Proof. solve_decision. Defined.

(** The signed integer kinds and the floating-point kinds. *)
Inductive IntKind := KInt | KInt8 | KInt16 | KInt32 | KInt64.
Inductive FloatKind := KFloat32 | KFloat64.

Definition kindOfInt (k : IntKind) : Kind :=
  match k with
  | KInt => kind.Int | KInt8 => kind.Int8 | KInt16 => kind.Int16
  | KInt32 => kind.Int32 | KInt64 => kind.Int64
  end.

Definition kindOfFloat (k : FloatKind) : Kind :=
  match k with KFloat32 => kind.Float32 | KFloat64 => kind.Float64 end.

(** [reflect.StructField], with [TagCsv] the result of
    [field.Tag.Get("csv")]. *)
Record StructField (T : Type) := mkField {
  Name : string;
  PkgPath : string;
  TagCsv : string;
  Anonymous : bool;
  Type_ : T
}.
Arguments mkField {T}.
Arguments Name {T}.
Arguments PkgPath {T}.
Arguments TagCsv {T}.
Arguments Anonymous {T}.
Arguments Type_ {T}.

(** [reflect.Type].  Every type carries its [Name()], empty for an
    unnamed type. *)
Inductive type :=
| TBool (name : string)
| TInt (name : string) (k : IntKind)
| TFloat (name : string) (k : FloatKind)
| TString (name : string)
| TPtr (name : string) (elem : type)
| TSlice (name : string) (elem : type)
| TMap (name : string) (key elem : type)
| TStruct (name : string) (fields : list (StructField type))
| TOther (name : string).

Definition TypeName (t : type) : string :=
  match t with
  | TBool n | TInt n _ | TFloat n _ | TString n | TPtr n _ | TSlice n _
  | TMap n _ _ | TStruct n _ | TOther n => n
  end.

Definition KindOf (t : type) : Kind :=
  match t with
  | TBool _ => kind.Bool
  | TInt _ k => kindOfInt k
  | TFloat _ k => kindOfFloat k
  | TString _ => kind.String
  | TPtr _ _ => kind.Ptr
  | TSlice _ _ => kind.Slice
  | TMap _ _ _ => kind.Map
  | TStruct _ _ => kind.Struct
  | TOther _ => kind.Other
  end.

(** The contents of a variable.  A nil pointer, slice or map is [None];
    a map lists its entries in the order [MapKeys] returns them. *)
Inductive value :=
| VBool (b : bool)
| VInt (i : Z)
| VFloat (f : float)
| VString (s : string)
| VPtr (p : option value)
| VSlice (s : option (list value))
| VMap (m : option (list (value * value)))
| VStruct (fields : list value)
| VOther (zero : bool).

(** The flag bits of a [reflect.Value] the codec depends on. *)
Record flags := mkFlags { flagAddr : bool; flagStickyRO : bool; flagEmbedRO : bool }.

Definition flagRO (fl : flags) : bool := flagStickyRO fl || flagEmbedRO fl.

(** [reflect.ValueOf(i)]: neither addressable nor read-only. *)
Definition flagsValueOf : flags := mkFlags false false false.

(** [v.Elem()] of a pointer: addressable, read-only bits kept. *)
Definition flagsElem (fl : flags) : flags :=
  mkFlags true (flagStickyRO fl) (flagEmbedRO fl).

(** [v.Index(i)] of a slice: addressable, read-only made sticky. *)
Definition flagsIndex (fl : flags) : flags := mkFlags true (flagRO fl) false.

(** [v.MapKeys()] and [v.MapIndex(k)]: not addressable. *)
Definition flagsMap (fl : flags) : flags := mkFlags false (flagRO fl) false.

(** [v.Field(i)]: the addressable and sticky bits are inherited; a field
    that is not exported adds the embedded or the sticky read-only
    bit. *)
Definition flagsField (fl : flags) (f : StructField type) : flags :=
  let unexported := negb (bool_decide (PkgPath f = "")) in
  mkFlags (flagAddr fl)
          (flagStickyRO fl || (unexported && negb (Anonymous f)))
          (unexported && Anonymous f).

(** The zero value [reflect.Zero(t)] / [reflect.New(t).Elem()]. *)
Fixpoint Zero (t : type) : value :=
  match t with
  | TBool _ => VBool false
  | TInt _ _ => VInt 0
  | TFloat _ _ => VFloat 0%float
  | TString _ => VString ""
  | TPtr _ _ => VPtr None
  | TSlice _ _ => VSlice None
  | TMap _ _ _ => VMap None
  | TStruct _ fs => VStruct (List.map (fun f => Zero (Type_ f)) fs)
  | TOther _ => VOther true
  end.

(** [reflect.DeepEqual(v.Interface(), reflect.Zero(t).Interface())]. *)
Fixpoint IsZeroValue (v : value) : bool :=
  match v with
  | VBool b => negb b
  | VInt i => i =? 0
  | VFloat f => PrimFloat.eqb f 0%float
  | VString s => bool_decide (s = "")
  | VPtr p => match p with None => true | Some _ => false end
  | VSlice s => match s with None => true | Some _ => false end
  | VMap m => match m with None => true | Some _ => false end
  | VStruct fs => forallb IsZeroValue fs
  | VOther z => z
  end.

(** A value has the shape its type prescribes. *)
Fixpoint has_type (t : type) (v : value) {struct v} : bool :=
  match t, v with
  | TBool _, VBool _ => true
  | TInt _ _, VInt _ => true
  | TFloat _ _, VFloat _ => true
  | TString _, VString _ => true
  | TPtr _ e, VPtr p => match p with None => true | Some x => has_type e x end
  | TSlice _ e, VSlice s =>
      match s with None => true | Some l => forallb (has_type e) l end
  | TMap _ k e, VMap m =>
      match m with
      | None => true
      | Some l => forallb (fun kv => has_type k (fst kv) && has_type e (snd kv)) l
      end
  | TStruct _ fs, VStruct vs =>
      (fix go (fs : list (StructField type)) (vs : list value) {struct vs} : bool :=
         match fs, vs with
         | [], [] => true
         | f :: fs', x :: vs' => has_type (Type_ f) x && go fs' vs'
         | _, _ => false
         end) fs vs
  | TOther _, VOther _ => true
  | _, _ => false
  end.

End reflect.
Import reflect.

(** Go [error] values the package produces or passes on.  Each wrapper
    stands for the [fmt.Errorf] call named beside it; the values it holds
    are the arguments of that call. *)
Inductive error :=
| ErrNum (e : strconv.NumError)
    (* a strconv failure, returned as it is *)
| ErrCantMarshal (t : type) (v : value)
    (* "Can't enc.marshal %+v from csv %T" *)
| ErrCantUnmarshal (t : type)
    (* "Can't unmarshal %s from csv" *)
| ErrSliceElement (v : value) (child : error)
    (* "slice element `%v`: %s" *)
| ErrMapKey (v : value) (child : error)
    (* "map key `%v`: %s" *)
| ErrMapValue (v : value) (child : error)
    (* "map value `%v`: %s" *)
| ErrStructField (name : string) (v : value) (child : error)
    (* "struct field `%s`: `%v`: %s" *)
| ErrForeign (msg : string).
    (* an error of a hook, of the csv reader or of the csv writer *)

(** What a call does: return normally or panic. *)
Inductive outcome (A : Type) :=
| Return (a : A)
| Panic (msg : string).
Arguments Return {A}.
Arguments Panic {A}.

(** A call with Go's [(result, error)] convention. *)
Inductive res (A : Type) :=
| Ok (a : A)
| Err (e : error)
| Crash (msg : string).
Arguments Ok {A}.
Arguments Err {A}.
Arguments Crash {A}.

(* ===================================================================== *)
(** ** Hooks: the method sets of named types *)
(* ===================================================================== *)

(** A method that reads its receiver.  With a value receiver it gets the
    contents; with a pointer receiver it gets the pointee, or [None] when
    called on a nil pointer. *)
Inductive ReadMethod (A : Type) :=
| ReadByValue (f : value -> res A)
| ReadByPointer (f : option value -> res A).
Arguments ReadByValue {A}.
Arguments ReadByPointer {A}.

(** A method that may write its receiver.  With a value receiver it works
    on a copy; with a pointer receiver it returns the new pointee
    ([None] leaves the storage as it is). *)
Inductive WriteMethod (A : Type) :=
| WriteByValue (f : A -> value -> outcome (option error))
| WriteByPointer (f : A -> option value -> outcome (option value * option error)).
Arguments WriteByValue {A}.
Arguments WriteByPointer {A}.

Record MethodSet := mkMethodSet {
  GetCSV : option (ReadMethod (list string));
  MarshalText : option (ReadMethod string);
  SetCSV : option (WriteMethod (list string));
  UnmarshalText : option (WriteMethod string)
}.

Definition noMethods : MethodSet := mkMethodSet None None None None.

(** The methods declared on each named type, by type name. *)
Class MethodTable := methods : string -> MethodSet.

(** How an interface value that holds a pointer or a plain value reaches a
    method of the named type [T]. *)
Inductive Receiver :=
| RecvValue (name : string) (v : value)            (* a [T] *)
| RecvPointer (name : string) (p : option value).  (* a [*T] *)

(** The dynamic value [v.Interface()] offers to a type assertion, after
    the addressing step shared by the four [indirect...] functions: a
    named non-pointer value that is addressable is replaced by its
    address. *)
Definition indirectReceiver (t : type) (v : value) (fl : flags) : option Receiver :=
  match t with
  | TPtr pname elem =>
      if bool_decide (pname = "") && negb (bool_decide (TypeName elem = ""))
         && negb (bool_decide (KindOf elem = kind.Ptr))
      then match v with
           | VPtr p => Some (RecvPointer (TypeName elem) p)
           | _ => None
           end
      else None
  | _ =>
      if bool_decide (TypeName t = "") then None
      else if flagAddr fl then Some (RecvPointer (TypeName t) (Some v))
      else Some (RecvValue (TypeName t) v)
  end.

(** Binding a reading method to the receiver, as the type assertion
    [v.Interface().(Getter)] does; [None] when the method is not in the
    method set of the dynamic type.  The bound method takes no argument,
    so it is given by what calling it returns. *)
Definition bindRead {A} (m : ReadMethod A) (r : Receiver) : option (res A) :=
  match m, r with
  | ReadByValue f, RecvValue _ v => Some (f v)
  | ReadByValue f, RecvPointer _ (Some v) => Some (f v)
  | ReadByValue _, RecvPointer _ None => Some (Crash "nil pointer dereference")
  | ReadByPointer f, RecvPointer _ p => Some (f p)
  | ReadByPointer _, RecvValue _ _ => None
  end.

(** Binding a writing method to the receiver.  The bound method returns
    the new contents of the storage the receiver stands for ([None]:
    unchanged) and the error. *)
Definition bindWrite {A} (m : WriteMethod A) (r : Receiver)
  : option (A -> outcome (option value * option error)) :=
  let by_value f v := fun a =>
    match f a v with
    | Return e => Return (None, e)
    | Panic msg => Panic msg
    end in
  match m, r with
  | WriteByValue f, RecvValue _ v => Some (by_value f v)
  | WriteByValue f, RecvPointer _ (Some v) => Some (by_value f v)
  | WriteByValue _, RecvPointer _ None => Some (fun _ => Panic "nil pointer dereference")
  | WriteByPointer f, RecvPointer _ (Some v) => Some (fun a => f a (Some v))
  | WriteByPointer f, RecvPointer _ None =>
      Some (fun a => match f a None with
                     | Return (_, e) => Return (None, e)
                     | Panic msg => Panic msg
                     end)
  | WriteByPointer _, RecvValue _ _ => None
  end.

Definition receiverName (r : Receiver) : string :=
  match r with RecvValue n _ | RecvPointer n _ => n end.

Definition panicInterfaceRO : string :=
  "reflect.Value.Interface: cannot return value obtained from unexported field or method".
Definition panicSetUnaddressable : string :=
  "reflect: reflect.Value.Set using unaddressable value".
Definition panicSetRO : string :=
  "reflect: reflect.Value.Set using value obtained using unexported field".
Definition panicNumField : string :=
  "reflect: NumField of non-struct type".
Definition panicZeroValue : string :=
  "reflect: call of reflect.Value.Type on zero Value".
Definition panicIndex : string :=
  "runtime error: index out of range".
Definition panicAssertion : string :=
  "interface conversion: interface {} is string, not *csvencoding.CellValues".
Definition panicIllTyped : string :=
  "value does not have the shape of its type".

(** Modelled from the spec: the constants [DefaultEmptyValue] and
    [DefaultNilValue], declared outside the two source files; the spec
    gives the empty string and ["NULL"]. *)
Definition DefaultEmptyValue : string := "".
Definition DefaultNilValue : string := "NULL".

(* ===================================================================== *)
(** ** encode.go *)
(* ===================================================================== *)

(** The [*csv.Writer] collaborator: the rows written so far, and the
    error it answers with once its underlying stream is broken. *)
Record Writer := mkWriter { written : list (list string); broken : option error }.

Definition Writer_Write (w : Writer) (row : list string) : Writer * option error :=
  match broken w with
  | Some e => (w, Some e)
  | None => (mkWriter (written w ++ [row]) None, None)
  end.

Record Encoder := mkEncoder {
  enc_w : Writer;
  enc_err : option error;
  enc_EmptyValue : string;
  enc_NilValue : string
}.

Definition NewEncoder (w : Writer) : Encoder :=
  mkEncoder w None DefaultEmptyValue DefaultNilValue.

Section Encode.
Context `{FloatConv} `{MethodTable}.

(** [indirectGetter]: the bound [GetCSV] of the value, if it has one.
    [v.Interface()] panics on a read-only value. *)
Definition indirectGetter (t : type) (v : value) (fl : flags)
  : outcome (option (res (list string))) :=
  if flagRO fl then Panic panicInterfaceRO
  else match indirectReceiver t v fl with
       | None => Return None
       | Some r =>
           match GetCSV (methods (receiverName r)) with
           | None => Return None
           | Some m => Return (bindRead m r)
           end
       end.

(** [indirectTextMarshaler]: the bound [MarshalText]. *)
Definition indirectTextMarshaler (t : type) (v : value) (fl : flags)
  : outcome (option (res string)) :=
  if flagRO fl then Panic panicInterfaceRO
  else match indirectReceiver t v fl with
       | None => Return None
       | Some r =>
           match MarshalText (methods (receiverName r)) with
           | None => Return None
           | Some m => Return (bindRead m r)
           end
       end.

(** Lines 76-89: the cells of a nil pointer. *)
Definition nilCells (enc : Encoder) (e : type) : list string :=
  match e with
  | TStruct _ fields =>
      flat_map (fun f => if bool_decide (PkgPath f = "") then [enc_NilValue enc] else [])
               fields
  | _ => [enc_NilValue enc]
  end.

(** Lines 116-129: the loop over the elements of a slice.  [self] is
    [marshal]. *)
Fixpoint sliceLoop (self : type -> value -> flags -> bool -> res (list string))
         (et : type) (fl : flags) (l : list value) : res (list string) :=
  match l with
  | [] => Ok []
  | elementValue :: rest =>
      match self et elementValue (flagsIndex fl) false with
      | Ok elementOutput =>
          match sliceLoop self et fl rest with
          | Ok output => Ok (strings.Join elementOutput "," :: output)
          | other => other
          end
      | Err e => Err (ErrSliceElement elementValue e)
      | Crash msg => Crash msg
      end
  end.

(** Lines 137-163: the loop over the entries of a map. *)
Fixpoint mapLoop (self : type -> value -> flags -> bool -> res (list string))
         (kt et : type) (fl : flags) (l : list (value * value)) : res (list string) :=
  match l with
  | [] => Ok []
  | (keyValue, elementValue) :: rest =>
      match self kt keyValue (flagsMap fl) false with
      | Ok keyOutput =>
          match self et elementValue (flagsMap fl) false with
          | Ok valueOutput =>
              match mapLoop self kt et fl rest with
              | Ok output =>
                  Ok ((strings.Join keyOutput "," +:+ ":" +:+
                       strings.Join valueOutput ",") :: output)
              | other => other
              end
          | Err e => Err (ErrMapValue elementValue e)
          | Crash msg => Crash msg
          end
      | Err e => Err (ErrMapKey keyValue e)
      | Crash msg => Crash msg
      end
  end.

(** Lines 173-176: the tag of a field, split on commas. *)
Definition tagName (f : StructField type) : string :=
  hd "" (strings.Split (TagCsv f) ",").

Definition tagOmitEmpty (f : StructField type) : bool :=
  let key := strings.Split (TagCsv f) "," in
  (1 <? Z.of_nat (length key)) && bool_decide (nth 1 key "" = "omitEmpty").

(** Lines 179 and 216: the fields both directions leave out. *)
Definition skipped (f : StructField type) : bool :=
  bool_decide (tagName f = "-")
  || (negb (bool_decide (PkgPath f = "")) && negb (Anonymous f)).

(** Lines 168-191: the loop over the fields of a struct. *)
Fixpoint structLoop (self : type -> value -> flags -> bool -> res (list string))
         (fl : flags) (fs : list (StructField type)) (vs : list value) {struct vs}
  : res (list string) :=
  match fs, vs with
  | [], _ => Ok []
  | field :: fs', fieldValue :: vs' =>
      if skipped field then structLoop self fl fs' vs'
      else
        match self (Type_ field) fieldValue (flagsField fl field) (tagOmitEmpty field) with
        | Ok fieldOutput =>
            match structLoop self fl fs' vs' with
            | Ok output => Ok (fieldOutput ++ output)
            | other => other
            end
        | Err e => Err (ErrStructField (Name field) fieldValue e)
        | Crash msg => Crash msg
        end
  | _ :: _, [] => Crash panicIllTyped
  end.

(** Lines 94-195: [marshal] from [reflectType := reflectValue.Type()]
    on, for a value that is not a nil pointer.  [self] is [marshal]. *)
Definition marshalValue (enc : Encoder)
    (self : type -> value -> flags -> bool -> res (list string))
    (t : type) (v : value) (fl : flags) (omitEmpty : bool) : res (list string) :=
  if IsZeroValue v && omitEmpty then Ok [enc_EmptyValue enc]
  else
    match t, v with
    | TBool _, VBool b => Ok [strconv.FormatBool b]
    | TString _, VString s => Ok [s]
    | TInt _ _, VInt i => Ok [strconv.FormatInt10 i]
    | TFloat _ _, VFloat f => Ok [FormatFloat f "f" (-1) 64]
    | TSlice _ et, VSlice s =>
        match match s with
              | None => Ok []
              | Some elems => sliceLoop self et fl elems
              end
        with
        | Ok output => Ok [strings.Join output ","]
        | other => other
        end
    | TMap _ kt et, VMap m =>
        match match m with
              | None => Ok []
              | Some entries => mapLoop self kt et fl entries
              end
        with
        | Ok output => Ok [strings.Join output ","]
        | other => other
        end
    | TStruct _ fields, VStruct vals => structLoop self fl fields vals
    | (TBool _ | TString _ | TInt _ _ | TFloat _ _ | TSlice _ _ | TMap _ _ _ | TStruct _ _), _ =>
        Crash panicIllTyped
    | (TPtr _ _ | TOther _), _ => Err (ErrCantMarshal t v)
    end.

(** [Encoder.marshal]. *)
Fixpoint marshal (enc : Encoder) (t : type) (v : value) (fl : flags) (omitEmpty : bool)
         {struct v} : res (list string) :=
  match indirectGetter t v fl with
  | Panic msg => Crash msg
  | Return (Some getter) => getter
  | Return None =>
      match indirectTextMarshaler t v fl with
      | Panic msg => Crash msg
      | Return (Some textMarshaler) =>
          match textMarshaler with
          | Ok b => Ok [b]
          | Err e => Err e
          | Crash msg => Crash msg
          end
      | Return None =>
          match t with
          | TPtr _ e =>
              match v with
              | VPtr None => Ok (nilCells enc e)
              | VPtr (Some pointee) =>
                  marshalValue enc (marshal enc) e pointee (flagsElem fl) omitEmpty
              | _ => Crash panicIllTyped
              end
          | _ => marshalValue enc (marshal enc) t v fl omitEmpty
          end
      end
  end.

(** [Encoder.Encode] as its body runs on the receiver.  The receiver is
    passed by value: [enc] is the method's own copy, whose final state
    is returned beside the error.  [i] is the interface argument,
    [None] for a nil interface. *)
Definition Encode_body (enc : Encoder) (i : option (type * value))
  : outcome (Encoder * option error) :=
  match enc_err enc with
  | Some e => Return (enc, Some e)
  | None =>
      match i with
      | None => Panic panicZeroValue
      | Some (t, v) =>
          match marshal enc t v flagsValueOf false with
          | Crash msg => Panic msg
          | Err e =>
              let enc := mkEncoder (enc_w enc) (Some e) (enc_EmptyValue enc) (enc_NilValue enc) in
              Return (enc, enc_err enc)
          | Ok output =>
              let '(w, e) := Writer_Write (enc_w enc) output in
              let enc := mkEncoder w e (enc_EmptyValue enc) (enc_NilValue enc) in
              Return (enc, enc_err enc)
          end
      end
  end.

(** A call [encoder.Encode(i)] seen from the caller, who holds the
    [*Encoder] that [NewEncoder] returned.  The method has a value
    receiver ([func (enc Encoder) Encode]), so the body runs on a copy:
    what it stores into [enc.err] is lost when it returns, while the
    rows it wrote stay, the writer being shared through [enc.w]. *)
Definition Encode (self : Encoder) (i : option (type * value))
  : outcome (Encoder * option error) :=
  match Encode_body self i with
  | Return (copy, e) =>
      Return (mkEncoder (enc_w copy) (enc_err self)
                        (enc_EmptyValue self) (enc_NilValue self), e)
  | Panic msg => Panic msg
  end.

End Encode.

(* ===================================================================== *)
(** ** decode.go *)
(* ===================================================================== *)

(** [CellValues map[string]interface{}]: every entry is a string from the
    row or a pointer to a further [CellValues]. *)
Inductive cell :=
| CString (s : string)
| CTree (m : gmap string cell).

Abbreviation CellValues := (gmap string cell).

(** [CellValues.Get]. *)
Definition Get (vs : CellValues) (key : string) : option cell := vs !! key.

(** [CellValues.Set] along the segments of the key, [head] first. *)
Fixpoint SetPath (vs : CellValues) (head : string) (tail : list string) (value : string)
  : outcome CellValues :=
  match tail with
  | [] => Return (<[head := CString value]> vs)
  | next :: tail' =>
      let vs := match vs !! head with
                | None => <[head := CTree ∅]> vs
                | Some _ => vs
                end in
      match vs !! head with
      | Some (CTree child) =>
          match SetPath child next tail' value with
          | Return child' => Return (<[head := CTree child']> vs)
          | Panic msg => Panic msg
          end
      | _ => Panic panicAssertion
      end
  end.

(** [CellValues.Set(key, value)].  The source splits off one segment per
    call ([strings.SplitN(key, ".", 2)]) and recurses on the tail;
    [Set_unfold] below shows this definition obeys that equation. *)
Definition Set_ (vs : CellValues) (key value : string) : outcome CellValues :=
  match strings.Split key "." with
  | [] => Return vs
  | head :: tail => SetPath vs head tail value
  end.

(** The [*csv.Reader] collaborator: what its coming [Read] calls return;
    past the end it reports [io.EOF]. *)
Definition Reader := list (list string * option error).

Definition io_EOF : error := ErrForeign "EOF".

Definition Reader_Read (r : Reader) : Reader * (list string * option error) :=
  match r with
  | [] => ([], ([], Some io_EOF))
  | x :: r' => (r', x)
  end.

Record Decoder := mkDecoder {
  dec_r : Reader;
  dec_header : list string;
  dec_err : option error;
  dec_EmptyValue : string;
  dec_NilValue : string
}.

Definition Header (d : Decoder) : list string := dec_header d.

Definition NewDecoder (r : Reader) : Decoder :=
  let '(r', (header, err)) := Reader_Read r in
  mkDecoder r' header err DefaultEmptyValue DefaultNilValue.

(** Two's-complement truncation to [bits] bits, as [SetInt] stores. *)
Definition wrapInt (bits : Z) (i : Z) : Z :=
  (i + 2 ^ (bits - 1)) mod 2 ^ bits - 2 ^ (bits - 1).

Definition intBits (k : IntKind) : Z :=
  match k with
  | KInt8 => 8 | KInt16 => 16 | KInt32 => 32 | KInt64 => 64
  | KInt => strconv.IntSize
  end.

(** The [bitSize] argument the source passes to [ParseInt] per kind. *)
Definition parseBits (k : IntKind) : Z :=
  match k with
  | KInt8 => 8 | KInt16 => 16 | KInt32 => 32 | KInt64 => 64
  | KInt => 0
  end.

Section Decode.
Context `{FloatConv} `{MethodTable}.

(** [v.Set(x)], [v.SetInt(x)] and the like may only be used on a value
    that is addressable and not read-only. *)
Definition mustBeAssignable (fl : flags) : option string :=
  if flagRO fl then Some panicSetRO
  else if flagAddr fl then None
  else Some panicSetUnaddressable.

(** [indirectSetter]: the bound [SetCSV]. *)
Definition indirectSetter (t : type) (v : value) (fl : flags)
  : outcome (option (list string -> outcome (option value * option error))) :=
  if flagRO fl then Panic panicInterfaceRO
  else match indirectReceiver t v fl with
       | None => Return None
       | Some r =>
           match SetCSV (methods (receiverName r)) with
           | None => Return None
           | Some m => Return (bindWrite m r)
           end
       end.

(** [indirectTextUnmarshaler]: the bound [UnmarshalText]. *)
Definition indirectTextUnmarshaler (t : type) (v : value) (fl : flags)
  : outcome (option (string -> outcome (option value * option error))) :=
  if flagRO fl then Panic panicInterfaceRO
  else match indirectReceiver t v fl with
       | None => Return None
       | Some r =>
           match UnmarshalText (methods (receiverName r)) with
           | None => Return None
           | Some m => Return (bindWrite m r)
           end
       end.

(** A store through a [reflect.Value]: it panics unless the value is
    assignable, and otherwise the storage holds [x]. *)
Definition assign (fl : flags) (x : value) : outcome (value * option error) :=
  match mustBeAssignable fl with
  | Some msg => Panic msg
  | None => Return (x, None)
  end.

(** Running a bound hook on the storage that holds [v]. *)
Definition runHook {A} (hook : A -> outcome (option value * option error))
           (a : A) (v : value) : outcome (value * option error) :=
  match hook a with
  | Return (v', err) => Return (default v v', err)
  | Panic msg => Panic msg
  end.

(** Lines 160-164: the loop that fills the fresh slice; it returns the
    elements assigned so far and the error that stopped it.  [self] is
    [readStringTo]. *)
Fixpoint sliceFill (self : type -> value -> flags -> string -> outcome (value * option error))
         (et : type) (values : list string) : outcome (list value * option error) :=
  match values with
  | [] => Return ([], None)
  | value :: rest =>
      match self et (Zero et) (flagsIndex flagsValueOf) value with
      | Panic msg => Panic msg
      | Return (x, Some err) => Return ([x], Some err)
      | Return (x, None) =>
          match sliceFill self et rest with
          | Panic msg => Panic msg
          | Return (xs, err) => Return (x :: xs, err)
          end
      end
  end.

(** Lines 82-172: [readStringTo] from [reflectType := field.Type()]
    on, when [field] is no longer a pointer to be instantiated. *)
Definition readStringValue (dec : Decoder)
    (self : type -> value -> flags -> string -> outcome (value * option error))
    (t : type) (v : value) (fl : flags) (str : string)
  : outcome (value * option error) :=
  if bool_decide (str = dec_EmptyValue dec) then Return (v, None)
  else
    match indirectSetter t v fl with
    | Panic msg => Panic msg
    | Return (Some setter) => runHook setter [str] v
    | Return None =>
        match indirectTextUnmarshaler t v fl with
        | Panic msg => Panic msg
        | Return (Some textUnmarshaler) => runHook textUnmarshaler str v
        | Return None =>
            match t with
            | TString _ => assign fl (VString str)
            | TInt _ k =>
                match strconv.ParseInt0 str (parseBits k) with
                | (_, Some err) => Return (v, Some (ErrNum err))
                | (i, None) => assign fl (VInt (wrapInt (intBits k) i))
                end
            | TFloat _ KFloat32 =>
                match ParseFloat str 32 with
                | (_, Some err) => Return (v, Some (ErrNum err))
                | (f, None) => assign fl (VFloat (float32_of f))
                end
            | TFloat _ KFloat64 =>
                match ParseFloat str 64 with
                | (_, Some err) => Return (v, Some (ErrNum err))
                | (f, None) => assign fl (VFloat f)
                end
            | TBool _ =>
                match strconv.ParseBool str with
                | (_, Some err) => Return (v, Some (ErrNum err))
                | (b, None) => assign fl (VBool b)
                end
            | TSlice _ et =>
                let values := strings.Split str "," in
                match sliceFill self et values with
                | Panic msg => Panic msg
                | Return (_, Some err) => Return (v, Some err)
                | Return (sliceValue, None) => assign fl (VSlice (Some sliceValue))
                end
            | _ => Return (v, Some (ErrCantUnmarshal t))
            end
        end
    end.

(** [Decoder.readStringTo(field, value)], with [str] for [value]: the new contents of the
    storage behind [field], and the error. *)
Fixpoint readStringTo (dec : Decoder) (t : type) (v : value) (fl : flags) (str : string)
         {struct t} : outcome (value * option error) :=
  if bool_decide (str = dec_NilValue dec) then Return (v, None)
  else
    match t with
    | TPtr _ e =>
        match mustBeAssignable fl with
        | Some msg => Panic msg
        | None =>
            match readStringValue dec (readStringTo dec) e (Zero e)
                                  (flagsElem flagsValueOf) str with
            | Return (pointee, err) => Return (VPtr (Some pointee), err)
            | Panic msg => Panic msg
            end
        end
    | _ => readStringValue dec (readStringTo dec) t v fl str
    end.

(** Lines 187-198 of [readCellValuesTo], after the pointer step.
    [readStruct] is [readStructTo]. *)
Definition readCellStruct (dec : Decoder)
    (readStruct : type -> value -> flags -> CellValues -> outcome (value * option error))
    (t : type) (v : value) (fl : flags) (values : CellValues)
  : outcome (value * option error) :=
  match t with
  | TStruct _ _ =>
      match readStruct t v fl values with
      | Panic msg => Panic msg
      | Return (v', Some err) => Return (v', Some err)
      | Return (v', None) => Return (v', dec_err dec)
      end
  | _ => Return (v, Some (ErrCantUnmarshal t))
  end.

(** [Decoder.readCellValuesTo(field, value)]. *)
Definition readCellValuesTo (dec : Decoder)
    (readStruct : type -> value -> flags -> CellValues -> outcome (value * option error))
    (t : type) (v : value) (fl : flags) (values : CellValues)
  : outcome (value * option error) :=
  match t with
  | TPtr _ e =>
      match mustBeAssignable fl with
      | Some msg => Panic msg
      | None =>
          match readCellStruct dec readStruct e (Zero e) (flagsElem flagsValueOf) values with
          | Return (pointee, err) => Return (VPtr (Some pointee), err)
          | Panic msg => Panic msg
          end
      end
  | _ => readCellStruct dec readStruct t v fl values
  end.

(** Lines 213-221: the name a field is looked up under. *)
Definition fieldKey (f : StructField type) : string :=
  if bool_decide (tagName f = "") then strings.ToLower (Name f) else tagName f.

(** Lines 209-241: the loop over the fields; it returns the contents
    of all fields when it stops.  [readStruct] is [readStructTo]. *)
Fixpoint fieldLoop (dec : Decoder)
    (readStruct : type -> value -> flags -> CellValues -> outcome (value * option error))
    (fl : flags) (values : CellValues)
    (fs : list (StructField type)) (vs : list value) {struct fs}
  : outcome (list value * option error) :=
  match fs, vs with
  | [], _ => Return (vs, None)
  | _ :: _, [] => Panic panicIllTyped
  | fieldType :: fs', fieldValue :: vs' =>
      if skipped fieldType then
        match fieldLoop dec readStruct fl values fs' vs' with
        | Return (out, err) => Return (fieldValue :: out, err)
        | Panic msg => Panic msg
        end
      else
        let ffl := flagsField fl fieldType in
        let step :=
          if Anonymous fieldType
          then readStruct (Type_ fieldType) fieldValue ffl values
          else match Get values (fieldKey fieldType) with
               | Some (CTree cell) =>
                   readCellValuesTo dec readStruct (Type_ fieldType) fieldValue ffl cell
               | Some (CString cell) =>
                   readStringTo dec (Type_ fieldType) fieldValue ffl cell
               | None => Return (fieldValue, None)
               end in
        match step with
        | Panic msg => Panic msg
        | Return (fieldValue', Some err) => Return (fieldValue' :: vs', Some err)
        | Return (fieldValue', None) =>
            match fieldLoop dec readStruct fl values fs' vs' with
            | Return (out, err) => Return (fieldValue' :: out, err)
            | Panic msg => Panic msg
            end
        end
  end.

(** Lines 207-243 of [readStructTo], after the pointer step:
    [NumField] panics unless the value is a struct. *)
Definition readStructFields (dec : Decoder)
    (readStruct : type -> value -> flags -> CellValues -> outcome (value * option error))
    (t : type) (v : value) (fl : flags) (values : CellValues)
  : outcome (value * option error) :=
  match t, v with
  | TStruct _ fields, VStruct vals =>
      match fieldLoop dec readStruct fl values fields vals with
      | Return (out, err) => Return (VStruct out, err)
      | Panic msg => Panic msg
      end
  | TStruct _ _, _ => Panic panicIllTyped
  | _, _ => Panic panicNumField
  end.

(** [Decoder.readStructTo(reflectValue, values)]. *)
Fixpoint readStructTo (dec : Decoder) (t : type) (v : value) (fl : flags)
         (values : CellValues) {struct t} : outcome (value * option error) :=
  match t with
  | TPtr _ e =>
      match v with
      | VPtr (Some pointee) =>
          match readStructFields dec (readStructTo dec) e pointee (flagsElem fl) values with
          | Return (pointee', err) => Return (VPtr (Some pointee'), err)
          | Panic msg => Panic msg
          end
      | VPtr None => Panic panicZeroValue
      | _ => Panic panicIllTyped
      end
  | _ => readStructFields dec (readStructTo dec) t v fl values
  end.

(** Lines 292-295: the tree of one row; [r[i]] panics when the row is
    shorter than the header. *)
Fixpoint buildTree (m : CellValues) (i : nat) (header r : list string)
  : outcome CellValues :=
  match header with
  | [] => Return m
  | key :: rest =>
      match r !! i with
      | None => Panic panicIndex
      | Some c =>
          match Set_ m key c with
          | Return m' => buildTree m' (S i) rest r
          | Panic msg => Panic msg
          end
      end
  end.

(** [Decoder.Decode(i)]: the decoder after the call, the contents of
    the argument after the call, and the returned error. *)
Definition Decode (dec : Decoder) (i : option (type * value))
  : outcome (Decoder * option value * option error) :=
  match dec_err dec with
  | Some e => Return (dec, snd <$> i, Some e)
  | None =>
      let '(r', (r, err)) := Reader_Read (dec_r dec) in
      let dec := mkDecoder r' (dec_header dec) err (dec_EmptyValue dec) (dec_NilValue dec) in
      match err with
      | Some e => Return (dec, snd <$> i, Some e)
      | None =>
          match buildTree ∅ 0 (dec_header dec) r with
          | Panic msg => Panic msg
          | Return m =>
              match i with
              | None => Panic panicZeroValue
              | Some (t, v) =>
                  match readStructTo dec t v flagsValueOf m with
                  | Panic msg => Panic msg
                  | Return (v', Some err) =>
                      Return (mkDecoder r' (dec_header dec) (Some err)
                                        (dec_EmptyValue dec) (dec_NilValue dec),
                              Some v', Some err)
                  | Return (v', None) => Return (dec, Some v', dec_err dec)
                  end
              end
          end
      end
  end.

End Decode.

(* ===================================================================== *)
(** ** The types of the package's tests *)
(* ===================================================================== *)

Module Fixtures.

Definition tString : type := TString "string".
Definition tInt : type := TInt "int" KInt.
Definition tInt8 : type := TInt "int8" KInt8.
Definition tBool : type := TBool "bool".
Definition tFloat64 : type := TFloat "float64" KFloat64.
Definition tFloat32 : type := TFloat "float32" KFloat32.
Definition tChan : type := TOther "".

Definition exported (name : string) (t : type) : StructField type :=
  mkField name "" "" false t.
Definition tagged (name tag : string) (t : type) : StructField type :=
  mkField name "" tag false t.
Definition unexported (name : string) (t : type) : StructField type :=
  mkField name "csvencoding_test" "" false t.
Definition embedded (name : string) (t : type) : StructField type :=
  mkField name "" "" true t.

(** [type csvgetter map[string]string], with [GetCSV] on the value and
    [SetCSV] on the pointer. *)
Definition csvgetter : type := TMap "csvgetter" tString tString.

Definition csvgetterMethods : MethodSet :=
  mkMethodSet
    (Some (ReadByValue (fun _ => Ok ["getcsv"])))
    None
    (Some (WriteByPointer
             (fun _ _ => Return (Some (VMap (Some [(VString "set", VString "csv")])), None))))
    None.

(** A named string with both a [GetCSV] and a [MarshalText]. *)
Definition label : type := TString "label".

Definition labelMethods : MethodSet :=
  mkMethodSet
    (Some (ReadByValue (fun _ => Ok ["cells"])))
    (Some (ReadByValue (fun _ => Ok "text")))
    (Some (WriteByPointer (fun _ _ => Return (Some (VString "set"), None))))
    (Some (WriteByPointer (fun _ _ => Return (Some (VString "unmarshalled"), None)))).

(** A named struct whose [SetCSV] is declared on the pointer. *)
Definition point : type := TStruct "point" [exported "X" tInt; exported "Y" tInt].

Definition pointMethods : MethodSet :=
  mkMethodSet None None
    (Some (WriteByPointer (fun _ _ => Return (Some (VStruct [VInt 7; VInt 7]), None))))
    None.

Definition testMethods : MethodTable := fun name =>
  if bool_decide (name = "csvgetter") then csvgetterMethods
  else if bool_decide (name = "label") then labelMethods
  else if bool_decide (name = "point") then pointMethods
  else noMethods.

Definition marshalT := @marshal GoFloat.goFloatConv testMethods.
Definition EncodeT := @Encode GoFloat.goFloatConv testMethods.
Definition readStringToT := @readStringTo GoFloat.goFloatConv testMethods.
Definition readStructToT := @readStructTo GoFloat.goFloatConv testMethods.
Definition DecodeT := @Decode GoFloat.goFloatConv testMethods.

(** [decode(input, &output)] of the tests: a fresh decoder on the rows,
    then one [Decode] into a pointer to [output]. *)
Definition decodeInto (rows : list (list string)) (t : type) (output : value)
  : outcome (Decoder * option value * option error) :=
  DecodeT (NewDecoder (List.map (fun r => (r, None)) rows))
          (Some (TPtr "" t, VPtr (Some output))).

Definition encoder0 : Encoder := NewEncoder (mkWriter [] None).
Definition decoder0 : Decoder := NewDecoder [].

Definition settable : flags := flagsElem flagsValueOf.

(** The struct types of the tests, and what [Decode] left in its
    argument. *)
Definition ChildStruct : type := TStruct "ChildStruct" [exported "Names" (TSlice "" tString)].

Definition ChildStruct2 : type :=
  TStruct "ChildStruct" [exported "Names" (TSlice "" tString); exported "Ages" (TSlice "" tInt)].

Definition AnonymousStruct : type := TStruct "AnonymousStruct" [exported "Name" tString].

Definition personStruct : type := TStruct "personStruct" [exported "Name" tString].

Definition decoded (r : outcome (Decoder * option value * option error))
  : outcome (option value * option error) :=
  match r with
  | Return (_, v, e) => Return (v, e)
  | Panic msg => Panic msg
  end.

(** Types that show the cells of a nil pointer. *)
(** [struct { A string `csv:"-"`; B string }] *)
Definition Tagged : type := TStruct "Tagged" [tagged "A" "-" tString; exported "B" tString].

(** [struct { Inner struct { X, Y string } }] *)
Definition Inner : type := TStruct "Inner" [exported "X" tString; exported "Y" tString].
Definition Outer : type := TStruct "Outer" [exported "Inner" Inner].

Definition holder (t : type) : type := TStruct "" [exported "Child" (TPtr "" t)].

End Fixtures.

(* ===================================================================== *)
(** ** Notions the statements use *)
(* ===================================================================== *)

(** An integer fits the kind that holds it. *)
Definition inRange (k : IntKind) (i : Z) : bool :=
  (- 2 ^ (intBits k - 1) <=? i) && (i <? 2 ^ (intBits k - 1)).

(** [x] is a value of the scalar type [t]: a boolean, an integer of the
    width of its kind, a float or a string. *)
Definition scalarOf (t : type) (x : value) : bool :=
  match t, x with
  | TBool _, VBool _ => true
  | TInt _ k, VInt i => inRange k i
  | TFloat _ _, VFloat _ => true
  | TString _, VString _ => true
  | _, _ => false
  end.

Section FloatContract.
Context `{FloatConv}.

(** What [strconv] documents for the text [FormatFloat(f, 'f', -1, 64)]
    of one float: [ParseFloat] reads it back as [f] (for a 32-bit
    field, as a value that converts to [f]); the text is neither empty
    nor ["NULL"]. *)
Definition floatRoundTrips (k : FloatKind) (f : float) : Prop :=
  let c := FormatFloat f "f" (-1) 64 in
  c <> "" /\ c <> "NULL" /\
  match k with
  | KFloat64 => ParseFloat c 64 = (f, None)
  | KFloat32 => snd (ParseFloat c 32) = None /\ float32_of (fst (ParseFloat c 32)) = f
  end.

Definition scalarRoundTrips (t : type) (x : value) : Prop :=
  match t, x with
  | TFloat _ k, VFloat f => floatRoundTrips k f
  | _, _ => True
  end.
End FloatContract.

(** A run of [Set] calls, as the loop of [Decode] makes them. *)
Fixpoint SetAll (vs : CellValues) (updates : list (string * string)) : outcome CellValues :=
  match updates with
  | [] => Return vs
  | (key, value) :: rest =>
      match Set_ vs key value with
      | Return vs' => SetAll vs' rest
      | Panic msg => Panic msg
      end
  end.

(** Walking down the segments [head :: tail] from [vs] meets a string
    no later than at the last segment. *)
Fixpoint leafOnPath (vs : CellValues) (head : string) (tail : list string) : Prop :=
  match vs !! head with
  | Some (CString _) => True
  | Some (CTree child) =>
      match tail with
      | [] => False
      | next :: tail' => leafOnPath child next tail'
      end
  | None => False
  end.

(** The argument of [Decode] is a struct, or a pointer to one. *)
Definition decodesAsStruct (t : type) : bool :=
  match t with
  | TStruct _ _ => true
  | TPtr _ (TStruct _ _) => true
  | _ => false
  end.

(** A field the loop of [readStructTo] passes over for the tree
    [values]: it is skipped, or it is a named field whose key the tree
    does not hold. *)
Definition passedOver (values : CellValues) (f : StructField type) : Prop :=
  skipped f = true \/ (Anonymous f = false /\ Get values (fieldKey f) = None).

(** The size of a type, for induction through the fields of structs. *)
Fixpoint type_size (t : type) : nat :=
  match t with
  | TPtr _ e => S (type_size e)
  | TSlice _ e => S (type_size e)
  | TMap _ k e => S (type_size k + type_size e)
  | TStruct _ fs =>
      S ((fix sum (l : list (StructField type)) : nat :=
            match l with
            | [] => O
            | f :: l' => (type_size (Type_ f) + sum l')%nat
            end) fs)
  | _ => 1%nat
  end.

Section ErrorOrigins.
Context `{MethodTable}.

(** Every error that a [SetCSV] or an [UnmarshalText] of the method
    table returns lies in [P]. *)
Definition hookErrorsIn (P : error -> Prop) : Prop :=
  (forall t v fl setter a r e,
      indirectSetter t v fl = Return (Some setter) ->
      setter a = Return (r, Some e) -> P e)
  /\ (forall t v fl textUnmarshaler a r e,
         indirectTextUnmarshaler t v fl = Return (Some textUnmarshaler) ->
         textUnmarshaler a = Return (r, Some e) -> P e).

End ErrorOrigins.

(** The field names an error was wrapped with, outermost first. *)
Fixpoint breadcrumbs (e : error) : list string :=
  match e with
  | ErrStructField name _ child => name :: breadcrumbs child
  | ErrSliceElement _ child | ErrMapKey _ child | ErrMapValue _ child => breadcrumbs child
  | _ => []
  end.

(** An error as leaf assignment makes it: a [strconv] error or the
    unsupported-type error. *)
Definition bareError (e : error) : Prop :=
  (exists ne, e = ErrNum ne) \/ (exists t, e = ErrCantUnmarshal t).

(** A method table without any hook. *)
Definition plainMethods : MethodTable := fun _ => noMethods.

(** [struct { Person struct { Age int } }] and
    [struct { Person struct { C chan int } }]. *)
Definition Aged : type :=
  TStruct "" [Fixtures.exported "Person"
                (TStruct "person" [Fixtures.exported "Age" Fixtures.tInt])].
Definition Chanelled : type :=
  TStruct "" [Fixtures.exported "Person"
                (TStruct "person" [Fixtures.exported "C" Fixtures.tChan])].

(* ===================================================================== *)
(** ** Notions of the further properties *)
(* ===================================================================== *)

(** *** Keys, trees and rows *)

(** The byte [c] occurs in [s]. *)
Fixpoint occurs (c : ascii) (s : string) : bool :=
  match s with
  | EmptyString => false
  | String a rest => Ascii.eqb a c || occurs c rest
  end.

(** An upper-case ASCII letter occurs in [s]. *)
Fixpoint hasUpper (s : string) : bool :=
  match s with
  | EmptyString => false
  | String c rest =>
      ((65 <=? Z.of_nat (nat_of_ascii c)) && (Z.of_nat (nat_of_ascii c) <=? 90))
      || hasUpper rest
  end.

(** The entry a tree holds at the end of the path [head :: tail]. *)
Fixpoint walk (vs : CellValues) (head : string) (tail : list string) : option cell :=
  match tail with
  | [] => vs !! head
  | next :: tail' =>
      match vs !! head with
      | Some (CTree child) => walk child next tail'
      | _ => None
      end
  end.

(** The entry under a dotted key. *)
Definition GetPath (vs : CellValues) (key : string) : option cell :=
  match strings.Split key "." with
  | [] => None
  | head :: tail => walk vs head tail
  end.

(** A decoder that differs from [dec] in what its reader will return. *)
Definition withReader (dec : Decoder) (r : Reader) : Decoder :=
  mkDecoder r (dec_header dec) (dec_err dec) (dec_EmptyValue dec) (dec_NilValue dec).

(** *** The fields of a decoded struct *)

Section FieldSteps.
Context `{FloatConv} `{MethodTable}.

(** Lines 222-240: what the loop of [readStructTo] does with the field
    [f], which holds [old], when it does not skip it. *)
Definition fieldStep (dec : Decoder) (fl : flags) (values : CellValues)
           (f : StructField type) (old : value) : outcome (value * option error) :=
  if Anonymous f then readStructTo dec (Type_ f) old (flagsField fl f) values
  else match Get values (fieldKey f) with
       | Some (CTree cell) =>
           readCellValuesTo dec (readStructTo dec) (Type_ f) old (flagsField fl f) cell
       | Some (CString cell) => readStringTo dec (Type_ f) old (flagsField fl f) cell
       | None => Return (old, None)
       end.

End FieldSteps.

(** [readStructTo] on a value of type [t] can look the tree up under
    [key]: it is the key of a named field it does not skip, or of such a
    field of an embedded struct. *)
Fixpoint usesKey (t : type) (key : string) : bool :=
  match t with
  | TPtr _ e => usesKey e key
  | TStruct _ fs =>
      existsb (fun f => negb (skipped f)
                        && (if Anonymous f then usesKey (Type_ f) key
                            else bool_decide (fieldKey f = key))) fs
  | _ => false
  end.


(** *** Types by what [marshal] does with them *)



Section Widths.
Context `{MethodTable}.


(** No [GetCSV] and no [MarshalText] of the method table is declared on
    a pointer receiver. *)
Definition readsByValue {A} (m : option (ReadMethod A)) : Prop :=
  match m with
  | Some (ReadByPointer _) => False
  | _ => True
  end.

Definition valueReaders : Prop :=
  forall n : string,
    readsByValue (GetCSV (methods n)) /\ readsByValue (MarshalText (methods n)).

End Widths.

Section PlainTypes.
Context `{MethodTable}.


End PlainTypes.

(** No type in [t] is of a kind outside the ones the codec tells apart
    (an interface, a channel, an unsigned integer, ...). *)
Fixpoint concrete (t : type) : bool :=
  match t with
  | TPtr _ e | TSlice _ e => concrete e
  | TMap _ k e => concrete k && concrete e
  | TStruct _ fs => forallb (fun f => concrete (Type_ f)) fs
  | TOther _ => false
  | _ => true
  end.

(** *** Further types for the examples *)


(** The struct of the test "Should decode basic types":
    [struct { String string; Int int; Bool bool; Float float64 }]. *)
Definition Basic : type :=
  TStruct "" [Fixtures.exported "String" Fixtures.tString;
              Fixtures.exported "Int" Fixtures.tInt;
              Fixtures.exported "Bool" Fixtures.tBool;
              Fixtures.exported "Float" Fixtures.tFloat64].

(** [struct { Person personStruct }], the struct of the test "should
    populate child fields". *)
Definition Parent : type := TStruct "" [Fixtures.exported "Person" Fixtures.personStruct].

(** A named [int] whose [GetCSV] is declared on the pointer:
    [type tally int; func (t *tally) GetCSV() ([]string, error)]. *)
Definition tally : type := TInt "tally" KInt.

Definition tallyMethods : MethodSet :=
  mkMethodSet
    (Some (ReadByPointer (fun p => match p with
                                   | Some _ => Ok ["tallied"]
                                   | None => Ok ["no tally"]
                                   end)))
    None None None.

Definition tallyTable : MethodTable := fun name =>
  if bool_decide (name = "tally") then tallyMethods else noMethods.


Set Warnings "-inexact-float".

(* ===================================================================== *)
(** * Facts about [strconv] *)
(* ===================================================================== *)

Module strconv_facts.
Import strconv.

Lemma digit_char (d : Z) :
  0 <= d < 10 ->
  byte (chr (48 + d)) = 48 + d /\
  is_digit (chr (48 + d)) = true /\
  Ascii.eqb (chr (48 + d)) "_" = false /\
  Ascii.eqb (chr (48 + d)) "-" = false /\
  Ascii.eqb (chr (48 + d)) "+" = false.
Proof.
  intros Hd.
  assert (Hcases : d = 0 \/ d = 1 \/ d = 2 \/ d = 3 \/ d = 4 \/ d = 5 \/ d = 6
                   \/ d = 7 \/ d = 8 \/ d = 9) by lia.
  repeat (destruct Hcases as [-> | Hcases]; [vm_compute; auto |]).
  subst d; vm_compute; auto.
Qed.

Lemma log2_div10 (n : Z) : 10 <= n -> Z.log2 (n / 10) < Z.log2 n.
Proof.
  intros Hn.
  assert (Hpos : 0 < n / 10) by (apply Z.div_str_pos; lia).
  apply Z.log2_lt_pow2; [lia |].
  destruct (Z.log2_spec n ltac:(lia)) as [_ Hhi].
  rewrite Z.pow_succ_r in Hhi by apply Z.log2_nonneg.
  apply Z.div_lt_upper_bound; lia.
Qed.

Section Loop.
Variables cutoff maxVal : Z.
Hypothesis Hcut : maxVal / 10 < cutoff.
Hypothesis Hmax : 0 <= maxVal < 2 ^ 64.

Lemma digit_loop_step (d m : Z) (rest : string) :
  0 <= d < 10 -> 0 <= m -> m * 10 + d <= maxVal ->
  digit_loop true 10 cutoff maxVal (String (chr (48 + d)) rest) m false
  = digit_loop true 10 cutoff maxVal rest (m * 10 + d) false.
Proof.
  intros Hd Hm Hle.
  destruct (digit_char d Hd) as (Hb & Hdig & Hus & _ & _).
  cbn [digit_loop]. rewrite Hus, Hdig, Hb. cbn [andb].
  replace (48 + d - 48) with d by lia.
  assert (Hm10 : m <= maxVal / 10) by (apply Z.div_le_lower_bound; lia).
  destruct (Z.leb_spec 10 d); [lia |].
  destruct (Z.leb_spec cutoff m); [lia |].
  rewrite (Z.mod_small (m * 10 + d)) by lia.
  destruct (Z.ltb_spec (m * 10 + d) (m * 10)); [lia |].
  destruct (Z.ltb_spec maxVal (m * 10 + d)); [lia |].
  reflexivity.
Qed.

Lemma digit_loop_digits (fuel : nat) :
  forall n acc,
    0 <= n <= maxVal -> (Z.to_nat (Z.log2 n) < fuel)%nat ->
    digit_loop true 10 cutoff maxVal (digits_fuel fuel n acc) 0 false
    = digit_loop true 10 cutoff maxVal acc n false.
Proof.
  induction fuel as [| fuel IH]; intros n acc Hn Hfuel; [lia |].
  cbn [digits_fuel].
  assert (Hmod : 0 <= n mod 10 < 10) by (apply Z.mod_pos_bound; lia).
  destruct (Z.ltb_spec n 10) as [Hlt | Hge].
  - rewrite Z.mod_small by lia.
    rewrite digit_loop_step by lia. f_equal.
  - assert (Hdiv : 0 < n / 10) by (apply Z.div_str_pos; lia).
    assert (Hdivle : n / 10 <= n) by (apply Z.div_le_upper_bound; lia).
    rewrite IH.
    + rewrite digit_loop_step; [f_equal | lia | lia |].
      * pose proof (Z.div_mod n 10 ltac:(lia)). lia.
      * pose proof (Z.div_mod n 10 ltac:(lia)). lia.
    + lia.
    + pose proof (log2_div10 n Hge).
      assert (0 <= Z.log2 (n / 10)) by apply Z.log2_nonneg.
      lia.
Qed.
End Loop.

Lemma digits_first (fuel : nat) :
  forall n acc,
    0 < n -> (Z.to_nat (Z.log2 n) < fuel)%nat ->
    exists d rest, 1 <= d < 10 /\ digits_fuel fuel n acc = String (chr (48 + d)) rest.
Proof.
  induction fuel as [| fuel IH]; intros n acc Hn Hfuel; [lia |].
  cbn [digits_fuel].
  destruct (Z.ltb_spec n 10) as [Hlt | Hge].
  - exists n, acc. rewrite Z.mod_small by lia. split; [lia | reflexivity].
  - apply IH.
    + apply Z.div_str_pos; lia.
    + pose proof (log2_div10 n Hge).
      assert (0 <= Z.log2 (n / 10)) by apply Z.log2_nonneg.
      lia.
Qed.

Lemma digit_char_nonzero (d : Z) :
  1 <= d < 10 -> Ascii.eqb (chr (48 + d)) "0" = false.
Proof.
  intros Hd.
  assert (Hcases : d = 1 \/ d = 2 \/ d = 3 \/ d = 4 \/ d = 5 \/ d = 6
                   \/ d = 7 \/ d = 8 \/ d = 9) by lia.
  repeat (destruct Hcases as [-> | Hcases]; [reflexivity |]).
  subst d; reflexivity.
Qed.

Lemma ParseUint0_FormatUint10 (bitSize n : Z) :
  1 <= effectiveBits bitSize <= 64 ->
  0 <= n < 2 ^ effectiveBits bitSize ->
  ParseUint0 (FormatUint10 n) bitSize = (n, None).
Proof.
  unfold effectiveBits. intros Hbits Hn.
  assert (Hpow : 2 ^ (if bitSize =? 0 then IntSize else bitSize) <= 2 ^ 64)
    by (apply Z.pow_le_mono_r; lia).
  destruct (Z.eq_dec n 0) as [-> | Hnz].
  - reflexivity.
  - unfold FormatUint10.
    destruct (digits_first (S (Z.to_nat (Z.log2 n))) n "" ltac:(lia) ltac:(lia))
      as (d & rest & Hd & Heq).
    unfold ParseUint0.
    pose proof (digit_loop_digits (maxUint64 / 10 + 1)
                  (2 ^ (if bitSize =? 0 then IntSize else bitSize) - 1)) as Hloop.
    specialize (Hloop ltac:(unfold maxUint64; apply Z.lt_succ_r, Z.div_le_mono; lia)
                      ltac:(lia) (S (Z.to_nat (Z.log2 n))) n "" ltac:(lia) ltac:(lia)).
    rewrite Heq in *. cbn [base_prefix].
    rewrite (digit_char_nonzero d Hd).
    change (maxUint64 / 10 + 1) with (maxUint64 / 10 + 1) in *.
    rewrite Hloop. reflexivity.
Qed.

(** [ParseInt] reads back what [FormatInt] wrote, at every width. *)
Lemma ParseInt0_FormatInt10 (bitSize i : Z) :
  1 <= effectiveBits bitSize <= 64 ->
  - 2 ^ (effectiveBits bitSize - 1) <= i < 2 ^ (effectiveBits bitSize - 1) ->
  ParseInt0 (FormatInt10 i) bitSize = (i, None).
Proof.
  intros Hbits Hi.
  assert (Hdouble : 2 ^ effectiveBits bitSize = 2 * 2 ^ (effectiveBits bitSize - 1)).
  { rewrite <- Z.pow_succ_r by lia. f_equal. lia. }
  assert (Hpos : 0 < 2 ^ (effectiveBits bitSize - 1)) by (apply Z.pow_pos_nonneg; lia).
  unfold FormatInt10.
  destruct (Z.ltb_spec i 0) as [Hneg | Hnonneg].
  - unfold ParseInt0. cbn [Ascii.eqb Bool.eqb orb].
    rewrite (ParseUint0_FormatUint10 bitSize (- i)) by lia.
    fold (effectiveBits bitSize).
    cbn [negb andb].
    destruct (Z.ltb_spec (2 ^ (effectiveBits bitSize - 1)) (- i)); [lia |].
    f_equal. lia.
  - destruct (Z.eq_dec i 0) as [-> | Hnz].
    + change (FormatUint10 0) with "0".
      unfold ParseInt0. cbn [Ascii.eqb Bool.eqb orb].
      change (ParseUint0 "0" bitSize) with (0, @None Cause).
      fold (effectiveBits bitSize). cbn [negb andb].
      destruct (Z.leb_spec (2 ^ (effectiveBits bitSize - 1)) 0); [lia | reflexivity].
    + pose proof (ParseUint0_FormatUint10 bitSize i Hbits ltac:(lia)) as Hu.
      unfold FormatUint10 in *.
      destruct (digits_first (S (Z.to_nat (Z.log2 i))) i "" ltac:(lia) ltac:(lia))
        as (d & rest & Hd & Heq).
      rewrite Heq in *.
      destruct (digit_char d ltac:(lia)) as (_ & _ & _ & Hminus & Hplus).
      unfold ParseInt0. rewrite Hminus, Hplus. cbn [orb]. rewrite Hu.
      fold (effectiveBits bitSize). cbn [negb andb].
      destruct (Z.leb_spec (2 ^ (effectiveBits bitSize - 1)) i); [lia | reflexivity].
Qed.
Lemma FormatInt10_not_sentinel (i : Z) :
  FormatInt10 i <> "" /\ FormatInt10 i <> "NULL".
Proof.
  unfold FormatInt10. destruct (Z.ltb_spec i 0) as [Hneg | Hnonneg].
  - split; discriminate.
  - destruct (Z.eq_dec i 0) as [-> | Hnz]; [split; discriminate |].
    unfold FormatUint10.
    destruct (digits_first (S (Z.to_nat (Z.log2 i))) i "" ltac:(lia) ltac:(lia))
      as (d & rest & Hd & ->).
    split; [discriminate |].
    intros [= Hc _]. destruct (digit_char d ltac:(lia)) as (_ & Hdig & _).
    rewrite Hc in Hdig. discriminate Hdig.
Qed.

Lemma ParseBool_FormatBool (b : bool) : ParseBool (FormatBool b) = (b, None).
Proof. destruct b; reflexivity. Qed.

End strconv_facts.

Lemma wrapInt_small (bits i : Z) :
  1 <= bits -> - 2 ^ (bits - 1) <= i < 2 ^ (bits - 1) -> wrapInt bits i = i.
Proof.
  intros Hbits Hi. unfold wrapInt.
  assert (Hdouble : 2 ^ bits = 2 * 2 ^ (bits - 1)).
  { rewrite <- Z.pow_succ_r by lia. f_equal. lia. }
  rewrite Z.mod_small by lia. lia.
Qed.

Lemma intBits_effective (k : IntKind) : strconv.effectiveBits (parseBits k) = intBits k.
Proof. destruct k; reflexivity. Qed.

Lemma intBits_bounds (k : IntKind) : 1 <= intBits k <= 64.
Proof. destruct k; cbn; unfold strconv.IntSize; lia. Qed.



(* ===================================================================== *)
(** * The package's tests, replayed on the model *)
(* ===================================================================== *)

Module Replay.
Import Fixtures.

(** "should encode basic data types" *)
Example encode_basic :
  marshalT encoder0
    (TStruct "" [exported "String" tString; exported "Int" tInt;
                 exported "Bool" tBool; exported "Float" tFloat64])
    (VStruct [VString "henry"; VInt 23; VBool true; VFloat 60.429%float])
    flagsValueOf false
  = Ok ["henry"; "23"; "true"; "60.429"].
Proof. vm_compute. reflexivity. Qed.

(** "should encode pointers" *)
Example encode_pointers :
  marshalT encoder0
    (TStruct "" [exported "String" (TPtr "" tString); exported "Int" (TPtr "" tInt);
                 exported "Bool" (TPtr "" tBool); exported "Float" (TPtr "" tFloat64)])
    (VStruct [VPtr (Some (VString "henry")); VPtr (Some (VInt 23));
              VPtr (Some (VBool true)); VPtr (Some (VFloat 60.429%float))])
    flagsValueOf false
  = Ok ["henry"; "23"; "true"; "60.429"].
Proof. vm_compute. reflexivity. Qed.

(** "should encode slices" *)
Example encode_slices :
  marshalT encoder0
    (TStruct "" [exported "Strings" (TSlice "" tString); exported "Ints" (TSlice "" tInt);
                 exported "Bools" (TSlice "" tBool); exported "Floats" (TSlice "" tFloat64);
                 exported "Pstrings" (TSlice "" (TPtr "" tString))])
    (VStruct [VSlice (Some [VString "vin"; VString "diesel"]);
              VSlice (Some [VInt 23; VInt 24]);
              VSlice (Some [VBool true; VBool false]);
              VSlice (Some [VFloat 60.429%float; VFloat 50.534%float]);
              VSlice (Some [VPtr (Some (VString "vin"))])])
    flagsValueOf false
  = Ok ["vin,diesel"; "23,24"; "true,false"; "60.429,50.534"; "vin"].
Proof. vm_compute. reflexivity. Qed.

(** "should encode structs" *)
Example encode_structs :
  marshalT encoder0
    (TStruct "" [exported "Child" ChildStruct; exported "StepChild" (TPtr "" ChildStruct)])
    (VStruct [VStruct [VSlice (Some [VString "uno"; VString "dos"])];
              VPtr (Some (VStruct [VSlice (Some [VString "wut"])]))])
    flagsValueOf false
  = Ok ["uno,dos"; "wut"].
Proof. vm_compute. reflexivity. Qed.

(** "should encode nil structs" *)
Example encode_nil_structs :
  marshalT encoder0 (TStruct "" [exported "Child" (TPtr "" ChildStruct2)])
    (VStruct [VPtr None]) flagsValueOf false
  = Ok ["NULL"; "NULL"]
  /\ marshalT encoder0 (TStruct "" [exported "Child" (TPtr "" ChildStruct2)])
       (VStruct [VPtr (Some (VStruct [VSlice (Some [VString "vin"]); VSlice (Some [VInt 47])]))])
       flagsValueOf false
     = Ok ["vin"; "47"].
Proof. split; vm_compute; reflexivity. Qed.

(** "should encode custom types" *)
Example encode_custom :
  marshalT encoder0 (TStruct "" [exported "Json" csvgetter])
    (VStruct [VMap (Some [(VString "name", VString "henry")])]) flagsValueOf false
  = Ok ["getcsv"].
Proof. vm_compute. reflexivity. Qed.

(** "Should use custom empty & null types" *)
Example encode_sentinels :
  marshalT (mkEncoder (mkWriter [] None) None "VIN" "IMMORTAL")
    (TStruct "" [tagged "Name" ",omitEmpty" tString; exported "Age" (TPtr "" tInt)])
    (VStruct [VString ""; VPtr None]) flagsValueOf false
  = Ok ["VIN"; "IMMORTAL"].
Proof. vm_compute. reflexivity. Qed.

(** "should skip unexported fields" *)
Example encode_skips :
  marshalT encoder0
    (TStruct "" [unexported "private" tString; tagged "PublicSkipped" "-" tString;
                 exported "Name" tString])
    (VStruct [VString "riddick"; VString "dom"; VString "vin"]) flagsValueOf false
  = Ok ["vin"].
Proof. vm_compute. reflexivity. Qed.

(** "should populate exported embedded annonymous structs" *)
Example encode_embedded :
  marshalT encoder0 (TStruct "" [embedded "AnonymousStruct" AnonymousStruct])
    (VStruct [VStruct [VString "riddick"]]) flagsValueOf false
  = Ok ["riddick"].
Proof. vm_compute. reflexivity. Qed.

(** "Should populate nested paths" *)
Example set_nested :
  Set_ ∅ "my.nested.struct" "henry"
  = Return {[ "my" := CTree {[ "nested" := CTree {[ "struct" := CString "henry" ]} ]} ]}.
Proof. vm_compute. reflexivity. Qed.

(** "Should decode basic types" *)
Example decode_basic :
  decoded (decodeInto [["string"; "int"; "bool"; "float"]; ["henry"; "23"; "true"; "60.429"]]
    (TStruct "" [exported "String" tString; exported "Int" tInt;
                 exported "Bool" tBool; exported "Float" tFloat64])
    (VStruct [VString ""; VInt 0; VBool false; VFloat 0%float]))
  = Return (Some (VPtr (Some (VStruct [VString "henry"; VInt 23; VBool true;
                                       VFloat 60.429%float]))), None).
Proof. vm_compute. reflexivity. Qed.

(** "Should decode pointers" *)
Example decode_pointers :
  decoded (decodeInto [["string"; "int"; "bool"; "float"]; ["henry"; "23"; "true"; "60.429"]]
    (TStruct "" [exported "String" (TPtr "" tString); exported "Int" (TPtr "" tInt);
                 exported "Bool" (TPtr "" tBool); exported "Float" (TPtr "" tFloat64)])
    (VStruct [VPtr None; VPtr None; VPtr None; VPtr None]))
  = Return (Some (VPtr (Some (VStruct [VPtr (Some (VString "henry")); VPtr (Some (VInt 23));
                                       VPtr (Some (VBool true));
                                       VPtr (Some (VFloat 60.429%float))]))), None).
Proof. vm_compute. reflexivity. Qed.

(** "Should decode arrays" *)
Example decode_arrays :
  decoded (decodeInto [["strings"; "ints"; "bools"; "floats"; "pstrings"];
                       ["vin,diesel"; "23,24"; "true,false"; "60.429,50.534"; "vin"]]
    (TStruct "" [exported "Strings" (TSlice "" tString); exported "Ints" (TSlice "" tInt);
                 exported "Bools" (TSlice "" tBool); exported "Floats" (TSlice "" tFloat64);
                 exported "PStrings" (TSlice "" (TPtr "" tString))])
    (VStruct [VSlice None; VSlice None; VSlice None; VSlice None; VSlice None]))
  = Return (Some (VPtr (Some (VStruct
      [VSlice (Some [VString "vin"; VString "diesel"]);
       VSlice (Some [VInt 23; VInt 24]);
       VSlice (Some [VBool true; VBool false]);
       VSlice (Some [VFloat 60.429%float; VFloat 50.534%float]);
       VSlice (Some [VPtr (Some (VString "vin"))])]))), None).
Proof. vm_compute. reflexivity. Qed.

(** "Should decode custom types" *)
Example decode_custom :
  decoded (decodeInto [["json"]; ["hello world"]]
    (TStruct "" [exported "Json" csvgetter]) (VStruct [VMap None]))
  = Return (Some (VPtr (Some (VStruct [VMap (Some [(VString "set", VString "csv")])]))), None).
Proof. vm_compute. reflexivity. Qed.

(** "should use field name tags" *)
Example decode_tags :
  decoded (decodeInto [["handle"]; ["henry"]]
    (TStruct "" [tagged "Name" "handle" tString]) (VStruct [VString ""]))
  = Return (Some (VPtr (Some (VStruct [VString "henry"]))), None).
Proof. vm_compute. reflexivity. Qed.

(** "should skip unexported fields" *)
Example decode_skips :
  decoded (decodeInto [["name"]; ["vin"]]
    (TStruct "" [unexported "private" tString; tagged "PublicSkipped" "-" tString;
                 exported "Name" tString])
    (VStruct [VString ""; VString ""; VString ""]))
  = Return (Some (VPtr (Some (VStruct [VString ""; VString ""; VString "vin"]))), None).
Proof. vm_compute. reflexivity. Qed.

(** "should populate exported embedded structs" *)
Example decode_embedded :
  decoded (decodeInto [["name"]; ["henry"]]
    (TStruct "" [embedded "AnonymousStruct" AnonymousStruct]) (VStruct [VStruct [VString ""]]))
  = Return (Some (VPtr (Some (VStruct [VStruct [VString "henry"]]))), None).
Proof. vm_compute. reflexivity. Qed.

(** "should populate child fields" and "should support nested pointer
    fields" *)
Example decode_nested :
  decoded (decodeInto [["person.name"]; ["henry"]]
    (TStruct "" [exported "Person" personStruct]) (VStruct [VStruct [VString ""]]))
  = Return (Some (VPtr (Some (VStruct [VStruct [VString "henry"]]))), None)
  /\ decoded (decodeInto [["person.name"]; ["henry"]]
       (TStruct "" [exported "Person" (TPtr "" personStruct)]) (VStruct [VPtr None]))
     = Return (Some (VPtr (Some (VStruct [VPtr (Some (VStruct [VString "henry"]))]))), None).
Proof. split; vm_compute; reflexivity. Qed.

End Replay.

(* ===================================================================== *)
(** * Leaf assignment *)
(* ===================================================================== *)

Lemma KindOf_Ptr (t : type) : KindOf t = kind.Ptr -> exists n e, t = TPtr n e.
Proof. destruct t as [| ? [] | ? [] | | | | | |]; try discriminate; eauto. Qed.

Section LeafAssignment.
Context `{FloatConv} `{MethodTable}.

Lemma readStringTo_nil (dec : Decoder) (t : type) (v : value) (fl : flags) (str : string) :
  str = dec_NilValue dec -> readStringTo dec t v fl str = Return (v, None).
Proof.
  intros ->. destruct t; cbn [readStringTo]; rewrite bool_decide_eq_true_2; reflexivity.
Qed.

Lemma readStringTo_pointer (dec : Decoder) (n : string) (e : type) (v : value)
      (fl : flags) (str : string) :
  str <> dec_NilValue dec -> mustBeAssignable fl = None ->
  readStringTo dec (TPtr n e) v fl str
  = match readStringValue dec (readStringTo dec) e (Zero e) (flagsElem flagsValueOf) str with
    | Return (pointee, err) => Return (VPtr (Some pointee), err)
    | Panic msg => Panic msg
    end.
Proof.
  intros Hnil Hset. cbn [readStringTo].
  rewrite bool_decide_eq_false_2 by assumption. rewrite Hset. reflexivity.
Qed.

Lemma readStringTo_value (dec : Decoder) (t : type) (v : value) (fl : flags) (str : string) :
  str <> dec_NilValue dec -> KindOf t <> kind.Ptr ->
  readStringTo dec t v fl str = readStringValue dec (readStringTo dec) t v fl str.
Proof.
  intros Hnil Hk. destruct t; cbn [readStringTo];
    rewrite bool_decide_eq_false_2 by assumption; try reflexivity.
  exfalso. apply Hk. reflexivity.
Qed.

Lemma readStringValue_empty (dec : Decoder) self (t : type) (v : value) (fl : flags)
      (str : string) :
  str = dec_EmptyValue dec -> readStringValue dec self t v fl str = Return (v, None).
Proof. intros ->. unfold readStringValue. rewrite bool_decide_eq_true_2; reflexivity. Qed.

(** C6: in leaf assignment a cell equal to NilValue leaves the field as
    it is; for a pointer field and any other cell a fresh pointee is
    bound before anything else, whatever the field held and whether or
    not the assignment then fails; a cell equal to EmptyValue leaves
    that pointee (or a non-pointer field) at its zero value. *)
Theorem leaf_assignment_sentinels (dec : Decoder) (t : type) (v : value) (fl : flags)
        (str : string) :
  mustBeAssignable fl = None ->
  (str = dec_NilValue dec -> readStringTo dec t v fl str = Return (v, None))
  /\ (str <> dec_NilValue dec -> KindOf t = kind.Ptr ->
      (forall v' err, readStringTo dec t v fl str = Return (v', err) ->
                      exists pointee, v' = VPtr (Some pointee))
      /\ (forall v0, readStringTo dec t v fl str = readStringTo dec t v0 fl str)
      /\ (str = dec_EmptyValue dec ->
          exists n e, t = TPtr n e /\
                      readStringTo dec t v fl str = Return (VPtr (Some (Zero e)), None)))
  /\ (str <> dec_NilValue dec -> KindOf t <> kind.Ptr -> str = dec_EmptyValue dec ->
      readStringTo dec t v fl str = Return (v, None)).
Proof.
  intros Hset. split; [apply readStringTo_nil |]. split.
  - intros Hnil Hk. destruct (KindOf_Ptr t Hk) as (name & e & ->).
    repeat split.
    + intros v' err. rewrite readStringTo_pointer by assumption.
      destruct (readStringValue _ _ _ _ _ _) as [[p e'] |]; [| discriminate].
      intros [= <- <-]. eauto.
    + intros v0. rewrite !readStringTo_pointer by assumption. reflexivity.
    + intros Hempty. exists name, e. split; [reflexivity |].
      rewrite readStringTo_pointer by assumption.
      rewrite readStringValue_empty by assumption. reflexivity.
  - intros Hnil Hk Hempty. rewrite readStringTo_value by assumption.
    apply readStringValue_empty. assumption.
Qed.

Lemma mustBeAssignable_RO (fl : flags) : mustBeAssignable fl = None -> flagRO fl = false.
Proof. unfold mustBeAssignable. destruct (flagRO fl); [discriminate | reflexivity]. Qed.

(** *** Types without hooks *)

Lemma receiver_name (t : type) (v : value) (fl : flags) (r : Receiver) :
  KindOf t <> kind.Ptr -> indirectReceiver t v fl = Some r -> receiverName r = TypeName t.
Proof.
  intros Hk. destruct t; cbn [indirectReceiver];
    try (exfalso; apply Hk; reflexivity);
    repeat case_match; intros [= <-]; reflexivity.
Qed.

Lemma no_getter (t : type) (v : value) (fl : flags) :
  methods (TypeName t) = noMethods -> KindOf t <> kind.Ptr -> flagRO fl = false ->
  indirectGetter t v fl = Return None.
Proof.
  intros Hm Hk Hro. unfold indirectGetter. rewrite Hro.
  destruct (indirectReceiver t v fl) as [r |] eqn:Hr; [| reflexivity].
  rewrite (receiver_name _ _ _ _ Hk Hr), Hm. reflexivity.
Qed.

Lemma no_textMarshaler (t : type) (v : value) (fl : flags) :
  methods (TypeName t) = noMethods -> KindOf t <> kind.Ptr -> flagRO fl = false ->
  indirectTextMarshaler t v fl = Return None.
Proof.
  intros Hm Hk Hro. unfold indirectTextMarshaler. rewrite Hro.
  destruct (indirectReceiver t v fl) as [r |] eqn:Hr; [| reflexivity].
  rewrite (receiver_name _ _ _ _ Hk Hr), Hm. reflexivity.
Qed.

Lemma no_setter (t : type) (v : value) (fl : flags) :
  methods (TypeName t) = noMethods -> KindOf t <> kind.Ptr -> flagRO fl = false ->
  indirectSetter t v fl = Return None.
Proof.
  intros Hm Hk Hro. unfold indirectSetter. rewrite Hro.
  destruct (indirectReceiver t v fl) as [r |] eqn:Hr; [| reflexivity].
  rewrite (receiver_name _ _ _ _ Hk Hr), Hm. reflexivity.
Qed.

Lemma no_textUnmarshaler (t : type) (v : value) (fl : flags) :
  methods (TypeName t) = noMethods -> KindOf t <> kind.Ptr -> flagRO fl = false ->
  indirectTextUnmarshaler t v fl = Return None.
Proof.
  intros Hm Hk Hro. unfold indirectTextUnmarshaler. rewrite Hro.
  destruct (indirectReceiver t v fl) as [r |] eqn:Hr; [| reflexivity].
  rewrite (receiver_name _ _ _ _ Hk Hr), Hm. reflexivity.
Qed.

(** *** The slice case *)

Lemma sliceFill_ok self (et : type) (parts : list string) (elems : list value) :
  sliceFill self et parts = Return (elems, None) <->
  Forall2 (fun part x => self et (Zero et) (flagsIndex flagsValueOf) part = Return (x, None))
          parts elems.
Proof.
  revert elems. induction parts as [| part parts IH]; intros elems; cbn [sliceFill].
  - split.
    + intros [= <-]. constructor.
    + intros Hall. inversion Hall. reflexivity.
  - split.
    + destruct (self et (Zero et) (flagsIndex flagsValueOf) part) as [[x [err |]] |] eqn:Hx;
        try discriminate.
      destruct (sliceFill self et parts) as [[xs err] |] eqn:Hxs; [| discriminate].
      intros [= <- ->]. constructor; [assumption |]. apply IH. reflexivity.
    + intros Hall. inversion Hall as [| ? x ? xs Hx Hxs]; subst.
      rewrite Hx. apply IH in Hxs. rewrite Hxs. reflexivity.
Qed.

Lemma readStringTo_slice (dec : Decoder) (n : string) (et : type) (v : value)
      (fl : flags) (str : string) :
  str <> dec_NilValue dec -> str <> dec_EmptyValue dec ->
  indirectSetter (TSlice n et) v fl = Return None ->
  indirectTextUnmarshaler (TSlice n et) v fl = Return None ->
  readStringTo dec (TSlice n et) v fl str
  = match sliceFill (readStringTo dec) et (strings.Split str ",") with
    | Panic msg => Panic msg
    | Return (_, Some err) => Return (v, Some err)
    | Return (sliceValue, None) => assign fl (VSlice (Some sliceValue))
    end.
Proof.
  intros Hnil Hempty Hs Hu. cbn [readStringTo].
  rewrite bool_decide_eq_false_2 by assumption.
  unfold readStringValue. rewrite bool_decide_eq_false_2 by assumption.
  rewrite Hs, Hu. reflexivity.
Qed.

(** C8: a slice field is decoded by splitting the cell on commas and
    assigning every part, by position, into a fresh slice of that many
    zero elements; the field receives the slice exactly when every
    element assignment succeeds, and a call that returns an error
    leaves the field holding what it held. *)
Theorem slice_assignment_atomic (dec : Decoder) (n : string) (et : type) (v : value)
        (fl : flags) (str : string) :
  str <> dec_NilValue dec -> str <> dec_EmptyValue dec ->
  mustBeAssignable fl = None ->
  indirectSetter (TSlice n et) v fl = Return None ->
  indirectTextUnmarshaler (TSlice n et) v fl = Return None ->
  let parts := strings.Split str "," in
  let element part x :=
    readStringTo dec et (Zero et) (flagsIndex flagsValueOf) part = Return (x, None) in
  (forall elems, Forall2 element parts elems ->
                 readStringTo dec (TSlice n et) v fl str = Return (VSlice (Some elems), None))
  /\ (forall v', readStringTo dec (TSlice n et) v fl str = Return (v', None) ->
                 exists elems, v' = VSlice (Some elems) /\ Forall2 element parts elems)
  /\ (forall v' err, readStringTo dec (TSlice n et) v fl str = Return (v', Some err) ->
                     v' = v).
Proof.
  intros Hnil Hempty Hset Hs Hu parts element.
  rewrite (readStringTo_slice dec n et v fl str Hnil Hempty Hs Hu).
  fold parts. unfold assign. rewrite Hset.
  repeat split.
  - intros elems Hall. apply sliceFill_ok in Hall. rewrite Hall. reflexivity.
  - intros v'. destruct (sliceFill _ et parts) as [[elems [err |]] |] eqn:Hfill;
      try discriminate.
    intros [= <-]. exists elems. split; [reflexivity |].
    apply sliceFill_ok. assumption.
  - intros v' err. destruct (sliceFill _ et parts) as [[elems [err' |]] |] eqn:Hfill;
      try discriminate.
    intros [= <- _]. reflexivity.
Qed.

End LeafAssignment.

(** C6: a nil cell leaves a nil pointer in place, an empty cell binds a
    pointer to a zero [int]. *)
Lemma leaf_assignment_sentinels_witness :
  mustBeAssignable Fixtures.settable = None
  /\ Fixtures.readStringToT Fixtures.decoder0 (TPtr "" Fixtures.tInt) (VPtr None)
       Fixtures.settable "NULL" = Return (VPtr None, None)
  /\ (exists n e, TPtr "" Fixtures.tInt = TPtr n e /\
        Fixtures.readStringToT Fixtures.decoder0 (TPtr "" Fixtures.tInt) (VPtr None)
          Fixtures.settable "" = Return (VPtr (Some (Zero e)), None)).
Proof.
  pose proof (@leaf_assignment_sentinels GoFloat.goFloatConv Fixtures.testMethods
                Fixtures.decoder0 (TPtr "" Fixtures.tInt) (VPtr None) Fixtures.settable)
    as Hthm.
  split; [reflexivity |]. split.
  - destruct (Hthm "NULL" eq_refl) as (Hnil & _). apply Hnil. reflexivity.
  - destruct (Hthm "" eq_refl) as (_ & Hptr & _).
    destruct (Hptr ltac:(discriminate) eq_refl) as (_ & _ & Hempty).
    apply Hempty. reflexivity.
Defined.

(** C8: ["1,2"] fills a slice of two; ["1,x"] leaves the field alone. *)
Lemma slice_assignment_atomic_witness :
  Fixtures.readStringToT Fixtures.decoder0 (TSlice "" Fixtures.tInt) (VSlice None)
    Fixtures.settable "1,2" = Return (VSlice (Some [VInt 1; VInt 2]), None)
  /\ forall v' err,
       Fixtures.readStringToT Fixtures.decoder0 (TSlice "" Fixtures.tInt)
         (VSlice (Some [VInt 9])) Fixtures.settable "1,x" = Return (v', Some err) ->
       v' = VSlice (Some [VInt 9]).
Proof.
  split.
  - apply (@slice_assignment_atomic GoFloat.goFloatConv Fixtures.testMethods
             Fixtures.decoder0 "" Fixtures.tInt (VSlice None) Fixtures.settable "1,2");
      try reflexivity; try discriminate.
    repeat constructor.
  - apply (@slice_assignment_atomic GoFloat.goFloatConv Fixtures.testMethods
             Fixtures.decoder0 "" Fixtures.tInt (VSlice (Some [VInt 9])) Fixtures.settable "1,x");
      try reflexivity; discriminate.
Defined.

(* ===================================================================== *)
(** * Scalars: encoding, then decoding *)
(* ===================================================================== *)

Section ScalarRoundTrip.
Context `{FloatConv} `{MethodTable}.

Lemma marshal_no_hooks (enc : Encoder) (t : type) (v : value) (fl : flags) (omitEmpty : bool) :
  methods (TypeName t) = noMethods -> KindOf t <> kind.Ptr -> flagRO fl = false ->
  marshal enc t v fl omitEmpty = marshalValue enc (marshal enc) t v fl omitEmpty.
Proof.
  intros Hm Hk Hro.
  destruct v; cbn [marshal];
    rewrite (no_getter _ _ _ Hm Hk Hro), (no_textMarshaler _ _ _ Hm Hk Hro);
    destruct t; try reflexivity; exfalso; apply Hk; reflexivity.
Qed.

Lemma readStringTo_no_hooks (dec : Decoder) (t : type) (v : value) (fl : flags)
      (str : string) :
  methods (TypeName t) = noMethods -> KindOf t <> kind.Ptr -> flagRO fl = false ->
  str <> dec_NilValue dec -> str <> dec_EmptyValue dec ->
  readStringTo dec t v fl str
  = match t with
    | TString _ => assign fl (VString str)
    | TInt _ k =>
        match strconv.ParseInt0 str (parseBits k) with
        | (_, Some err) => Return (v, Some (ErrNum err))
        | (i, None) => assign fl (VInt (wrapInt (intBits k) i))
        end
    | TFloat _ KFloat32 =>
        match ParseFloat str 32 with
        | (_, Some err) => Return (v, Some (ErrNum err))
        | (f, None) => assign fl (VFloat (float32_of f))
        end
    | TFloat _ KFloat64 =>
        match ParseFloat str 64 with
        | (_, Some err) => Return (v, Some (ErrNum err))
        | (f, None) => assign fl (VFloat f)
        end
    | TBool _ =>
        match strconv.ParseBool str with
        | (_, Some err) => Return (v, Some (ErrNum err))
        | (b, None) => assign fl (VBool b)
        end
    | TSlice _ et =>
        match sliceFill (readStringTo dec) et (strings.Split str ",") with
        | Panic msg => Panic msg
        | Return (_, Some err) => Return (v, Some err)
        | Return (sliceValue, None) => assign fl (VSlice (Some sliceValue))
        end
    | _ => Return (v, Some (ErrCantUnmarshal t))
    end.
Proof.
  intros Hm Hk Hro Hnil Hempty.
  rewrite readStringTo_value by assumption.
  unfold readStringValue. rewrite bool_decide_eq_false_2 by assumption.
  rewrite (no_setter _ _ _ Hm Hk Hro), (no_textUnmarshaler _ _ _ Hm Hk Hro).
  reflexivity.
Qed.

(** C3, amended: under the default sentinels, a scalar of a type
    without hooks that is encoded and then decoded into a zero-valued
    field of the same type comes back unchanged, unless it is the
    string ["NULL"]; for a float this rests on [strconv] reading back
    the text it wrote. *)
Theorem scalar_round_trip (enc : Encoder) (dec : Decoder) (t : type) (x : value)
        (fl fld : flags) :
  dec_EmptyValue dec = DefaultEmptyValue -> dec_NilValue dec = DefaultNilValue ->
  scalarOf t x = true ->
  methods (TypeName t) = noMethods ->
  flagRO fl = false -> mustBeAssignable fld = None ->
  x <> VString "NULL" ->
  scalarRoundTrips t x ->
  exists c, marshal enc t x fl false = Ok [c]
            /\ readStringTo dec t (Zero t) fld c = Return (x, None).
Proof.
  intros Hempty Hnil Hscalar Hm Hro Hset Hnot Hfloat.
  pose proof (mustBeAssignable_RO _ Hset) as Hro'.
  destruct t, x; try discriminate Hscalar.
  - (* bool *)
    exists (strconv.FormatBool b). split.
    + rewrite marshal_no_hooks by (assumption || discriminate).
      unfold marshalValue. rewrite andb_false_r. reflexivity.
    + rewrite readStringTo_no_hooks; try assumption; try discriminate;
        try (rewrite ?Hnil, ?Hempty; destruct b; discriminate).
      rewrite strconv_facts.ParseBool_FormatBool. unfold assign. rewrite Hset. reflexivity.
  - (* int *)
    cbn [scalarOf] in Hscalar. unfold inRange in Hscalar.
    apply andb_true_iff in Hscalar as [Hlo Hhi].
    apply Z.leb_le in Hlo. apply Z.ltb_lt in Hhi.
    pose proof (intBits_bounds k) as Hbits.
    destruct (strconv_facts.FormatInt10_not_sentinel i) as [Hne Hnn].
    exists (strconv.FormatInt10 i). split.
    + rewrite marshal_no_hooks by (assumption || destruct k; discriminate).
      unfold marshalValue. rewrite andb_false_r. reflexivity.
    + rewrite readStringTo_no_hooks; try assumption;
        try (destruct k; discriminate); try (rewrite ?Hnil, ?Hempty; assumption).
      rewrite strconv_facts.ParseInt0_FormatInt10
        by (rewrite intBits_effective; lia).
      unfold assign. rewrite Hset. rewrite wrapInt_small by lia. reflexivity.
  - (* float *)
    cbn [scalarRoundTrips] in Hfloat. destruct Hfloat as (Hne & Hnn & Hparse).
    exists (FormatFloat f "f" (-1) 64). split.
    + rewrite marshal_no_hooks by (assumption || destruct k; discriminate).
      unfold marshalValue. rewrite andb_false_r. reflexivity.
    + rewrite readStringTo_no_hooks; try assumption;
        try (destruct k; discriminate); try (rewrite ?Hnil, ?Hempty; assumption).
      unfold assign. rewrite Hset. destruct k.
      * destruct Hparse as [Herr Hval].
        destruct (ParseFloat _ 32) as [f' err]. cbn in Herr, Hval. subst. reflexivity.
      * rewrite Hparse. reflexivity.
  - (* string *)
    exists s. split.
    + rewrite marshal_no_hooks by (assumption || discriminate).
      unfold marshalValue. rewrite andb_false_r. reflexivity.
    + destruct (decide (s = "")) as [-> | Hne].
      * rewrite readStringTo_value by (rewrite ?Hnil; discriminate).
        rewrite readStringValue_empty by (rewrite Hempty; reflexivity). reflexivity.
      * rewrite readStringTo_no_hooks; try assumption; try discriminate.
        -- unfold assign. rewrite Hset. reflexivity.
        -- rewrite Hnil. intros ->. apply Hnot. reflexivity.
        -- rewrite Hempty. assumption.
Qed.

End ScalarRoundTrip.

(** C3 as stated fails: the string ["NULL"] is encoded as the cell
    ["NULL"], which the decoder takes for the nil sentinel, so the field
    keeps its zero value. *)
Lemma scalar_round_trip_counterexample :
  scalarOf Fixtures.tString (VString "NULL") = true
  /\ Fixtures.marshalT Fixtures.encoder0 Fixtures.tString (VString "NULL") flagsValueOf false
     = Ok ["NULL"]
  /\ Fixtures.readStringToT Fixtures.decoder0 Fixtures.tString (Zero Fixtures.tString)
       Fixtures.settable "NULL" = Return (VString "", None)
  /\ VString "" <> VString "NULL".
Proof. repeat split; try reflexivity. discriminate. Qed.

(** C3, amended, on the values of the package's tests: the [float64]
    60.429, and the [int8] -128. *)
Lemma scalar_round_trip_witness :
  (exists c, Fixtures.marshalT Fixtures.encoder0 Fixtures.tFloat64 (VFloat 60.429%float)
               flagsValueOf false = Ok [c]
             /\ Fixtures.readStringToT Fixtures.decoder0 Fixtures.tFloat64
                  (Zero Fixtures.tFloat64) Fixtures.settable c
                = Return (VFloat 60.429%float, None))
  /\ (exists c, Fixtures.marshalT Fixtures.encoder0 Fixtures.tInt8 (VInt (-128))
                  flagsValueOf false = Ok [c]
                /\ Fixtures.readStringToT Fixtures.decoder0 Fixtures.tInt8
                     (Zero Fixtures.tInt8) Fixtures.settable c
                   = Return (VInt (-128), None)).
Proof.
  split.
  - apply (@scalar_round_trip GoFloat.goFloatConv Fixtures.testMethods);
      try reflexivity; try discriminate.
    vm_compute. repeat split; discriminate.
  - apply (@scalar_round_trip GoFloat.goFloatConv Fixtures.testMethods);
      try reflexivity; discriminate.
Defined.

(* ===================================================================== *)
(** * The tree of a row *)
(* ===================================================================== *)

Module CellValuesFacts.

Lemma Split_nonempty (s : string) (sep : ascii) : strings.Split s sep <> [].
Proof. destruct s; cbn; repeat case_match; discriminate. Qed.

Lemma Split_SplitN2 (key : string) :
  match strings.SplitN2 key "." with
  | (head, None) => strings.Split key "." = [head]
  | (head, Some tail) => strings.Split key "." = head :: strings.Split tail "."
  end.
Proof.
  induction key as [| c key IH]; [reflexivity |].
  cbn [strings.SplitN2 strings.Split].
  destruct (Ascii.eqb c "."); [reflexivity |].
  destruct (strings.SplitN2 key ".") as [head [tail |]]; rewrite IH; reflexivity.
Qed.

(** [Set_] obeys the recursion of the source: split off the first
    segment; at the end of the key store the string, otherwise make
    sure the child exists, assert it is a [*CellValues] and recurse on
    the tail. *)
Lemma Set_unfold (vs : CellValues) (key value : string) :
  Set_ vs key value
  = match strings.SplitN2 key "." with
    | (headKey, None) => Return (<[headKey := CString value]> vs)
    | (headKey, Some tail) =>
        let vs := match vs !! headKey with
                  | None => <[headKey := CTree ∅]> vs
                  | Some _ => vs
                  end in
        match vs !! headKey with
        | Some (CTree child) =>
            match Set_ child tail value with
            | Return child' => Return (<[headKey := CTree child']> vs)
            | Panic msg => Panic msg
            end
        | _ => Panic panicAssertion
        end
    end.
Proof.
  unfold Set_ at 1. pose proof (Split_SplitN2 key) as Hsplit.
  destruct (strings.SplitN2 key ".") as [head [tail |]]; rewrite Hsplit; [| reflexivity].
  cbn [SetPath]. unfold Set_.
  destruct (strings.Split tail ".") as [| next tail'] eqn:Htail;
    [exfalso; exact (Split_nonempty _ _ Htail) |].
  reflexivity.
Qed.

Lemma Split_app (p q : string) :
  strings.Split (p +:+ String "." q) "." = strings.Split p "." ++ strings.Split q ".".
Proof.
  induction p as [| c p IH]; [reflexivity |].
  change (String c p +:+ String "." q) with (String c (p +:+ String "." q)).
  cbn [strings.Split]. rewrite IH.
  destruct (Ascii.eqb c "."); [reflexivity |].
  destruct (strings.Split p ".") as [| p0 ps] eqn:Hp;
    [exfalso; exact (Split_nonempty _ _ Hp) |].
  reflexivity.
Qed.

Lemma SetPath_leaf (tail : list string) :
  forall (vs vs' : CellValues) (head value : string),
    SetPath vs head tail value = Return vs' -> leafOnPath vs' head tail.
Proof.
  induction tail as [| next tail IH]; intros vs vs' head value; cbn [SetPath].
  - intros [= <-]. cbn [leafOnPath]. rewrite lookup_insert_eq. exact I.
  - set (vs1 := match vs !! head with None => <[head := CTree ∅]> vs | Some _ => vs end).
    destruct (vs1 !! head) as [[s | child] |]; try discriminate.
    destruct (SetPath child next tail value) as [child' |] eqn:Hchild; [| discriminate].
    intros [= <-]. cbn [leafOnPath]. rewrite lookup_insert_eq. eapply IH. eassumption.
Qed.

Lemma SetPath_other (tail : list string) (vs vs' : CellValues) (head value other : string) :
  SetPath vs head tail value = Return vs' -> other <> head -> vs' !! other = vs !! other.
Proof.
  intros Hset Hne. destruct tail as [| next tail]; cbn [SetPath] in Hset.
  - injection Hset as <-. rewrite lookup_insert_ne by congruence. reflexivity.
  - set (vs1 := match vs !! head with None => <[head := CTree ∅]> vs | Some _ => vs end) in *.
    assert (Hvs1 : vs1 !! other = vs !! other).
    { subst vs1. destruct (vs !! head); [reflexivity |].
      rewrite lookup_insert_ne by congruence. reflexivity. }
    destruct (vs1 !! head) as [[s | child] |]; try discriminate.
    destruct (SetPath child next tail value) as [child' |]; [| discriminate].
    injection Hset as <-. rewrite lookup_insert_ne by congruence. assumption.
Qed.

Lemma leafOnPath_lookup (vs vs' : CellValues) (head : string) (tail : list string) :
  vs' !! head = vs !! head -> leafOnPath vs head tail -> leafOnPath vs' head tail.
Proof. destruct tail; cbn [leafOnPath]; intros ->; trivial. Qed.

(** Later insertions never turn the leaf back into a subtree. *)
Lemma SetPath_keeps_leaf (tail : list string) :
  forall (vs vs' : CellValues) (head : string) (h2 : string) (t2 : list string) (value : string),
    leafOnPath vs head tail -> SetPath vs h2 t2 value = Return vs' ->
    leafOnPath vs' head tail.
Proof.
  induction tail as [| next tail IH]; intros vs vs' head h2 t2 value Hleaf Hset.
  - destruct (decide (head = h2)) as [-> | Hne];
      [| eapply leafOnPath_lookup; [eapply SetPath_other; eassumption | assumption]].
    cbn [leafOnPath] in *. destruct t2 as [| n2 t2]; cbn [SetPath] in Hset.
    + injection Hset as <-. rewrite lookup_insert_eq. exact I.
    + destruct (vs !! h2) as [[s | child] |] eqn:Hlook; try contradiction.
      rewrite Hlook in Hset. discriminate Hset.
  - destruct (decide (head = h2)) as [-> | Hne];
      [| eapply leafOnPath_lookup; [eapply SetPath_other; eassumption | assumption]].
    cbn [leafOnPath] in *. destruct t2 as [| n2 t2]; cbn [SetPath] in Hset.
    + injection Hset as <-. rewrite lookup_insert_eq. exact I.
    + destruct (vs !! h2) as [[s | child] |] eqn:Hlook; try contradiction.
      * rewrite Hlook in Hset. discriminate Hset.
      * rewrite Hlook in Hset.
        destruct (SetPath child n2 t2 value) as [child' |] eqn:Hchild; [| discriminate].
        injection Hset as <-. rewrite lookup_insert_eq. eapply IH; eassumption.
Qed.

(** Descending below the leaf fails the type assertion. *)
Lemma SetPath_below_leaf (tail : list string) :
  forall (vs : CellValues) (head : string) (q : list string) (value : string),
    leafOnPath vs head tail -> q <> [] ->
    SetPath vs head (tail ++ q) value = Panic panicAssertion.
Proof.
  induction tail as [| next tail IH]; intros vs head q value Hleaf Hq;
    cbn [leafOnPath] in Hleaf.
  - destruct q as [| n q]; [contradiction |]. cbn [app SetPath].
    destruct (vs !! head) as [[s | child] |] eqn:Hlook; try contradiction.
    rewrite Hlook. reflexivity.
  - cbn [app SetPath].
    destruct (vs !! head) as [[s | child] |] eqn:Hlook; try contradiction.
    + rewrite Hlook. reflexivity.
    + rewrite Hlook. rewrite IH by assumption. reflexivity.
Qed.

Lemma Set_leaf (vs vs' : CellValues) (key value : string) :
  Set_ vs key value = Return vs' ->
  exists head tail, strings.Split key "." = head :: tail /\ leafOnPath vs' head tail.
Proof.
  unfold Set_. destruct (strings.Split key ".") as [| head tail] eqn:Hsplit;
    [exfalso; exact (Split_nonempty _ _ Hsplit) |].
  intros Hset. exists head, tail. split; [reflexivity |].
  eapply SetPath_leaf; eassumption.
Qed.

Lemma Set_keeps_leaf (vs vs' : CellValues) (key value head : string) (tail : list string) :
  leafOnPath vs head tail -> Set_ vs key value = Return vs' -> leafOnPath vs' head tail.
Proof.
  unfold Set_. destruct (strings.Split key ".") as [| h2 t2].
  - intros Hleaf [= <-]. assumption.
  - intros Hleaf Hset. eapply SetPath_keeps_leaf; eassumption.
Qed.

Lemma SetAll_keeps_leaf (updates : list (string * string)) :
  forall (vs vs' : CellValues) (head : string) (tail : list string),
    leafOnPath vs head tail -> SetAll vs updates = Return vs' -> leafOnPath vs' head tail.
Proof.
  induction updates as [| [key value] updates IH]; intros vs vs' head tail Hleaf;
    cbn [SetAll].
  - intros [= <-]. assumption.
  - destruct (Set_ vs key value) as [vs1 |] eqn:Hset; [| discriminate].
    intros Hall. eapply IH; [| eassumption]. eapply Set_keeps_leaf; eassumption.
Qed.

Lemma Set_below_leaf (vs : CellValues) (p q value head : string) (tail : list string) :
  strings.Split p "." = head :: tail -> leafOnPath vs head tail ->
  Set_ vs (p +:+ "." +:+ q) value = Panic panicAssertion.
Proof.
  intros Hsplit Hleaf. unfold Set_.
  change (p +:+ "." +:+ q) with (p +:+ String "." q).
  rewrite Split_app, Hsplit. cbn [app].
  apply SetPath_below_leaf; [assumption |]. apply Split_nonempty.
Qed.

End CellValuesFacts.

Section TreeOfRow.
Import CellValuesFacts.

Lemma buildTree_app (h1 h2 r : list string) :
  forall (m : CellValues) (i : nat),
    buildTree m i (h1 ++ h2) r
    = match buildTree m i h1 r with
      | Return m1 => buildTree m1 (i + length h1)%nat h2 r
      | Panic msg => Panic msg
      end.
Proof.
  induction h1 as [| key h1 IH]; intros m i; cbn [app buildTree length].
  - f_equal. lia.
  - destruct (r !! i) as [c |]; [| reflexivity].
    destruct (Set_ m key c) as [m' |]; [| reflexivity].
    rewrite IH. replace (S i + length h1)%nat with (i + S (length h1))%nat by lia.
    reflexivity.
Qed.

Lemma buildTree_keeps_leaf (header r : list string) :
  forall (m m' : CellValues) (i : nat) (head : string) (tail : list string),
    leafOnPath m head tail -> buildTree m i header r = Return m' ->
    leafOnPath m' head tail.
Proof.
  induction header as [| key header IH]; intros m m' i head tail Hleaf; cbn [buildTree].
  - intros [= <-]. assumption.
  - destruct (r !! i) as [c |]; [| discriminate].
    destruct (Set_ m key c) as [m1 |] eqn:Hset; [| discriminate].
    intros Hbuild. eapply IH; [| eassumption]. eapply Set_keeps_leaf; eassumption.
Qed.

(** A header that names a path and, later, a path below it cannot be
    turned into a tree. *)
Lemma buildTree_extension_panics (pre mid post r : list string) (p q : string)
      (m : CellValues) (i : nat) :
  exists msg, buildTree m i (pre ++ p :: mid ++ (p +:+ "." +:+ q) :: post) r = Panic msg.
Proof.
  rewrite buildTree_app.
  destruct (buildTree m i pre r) as [m1 |]; [| eauto].
  cbn [buildTree].
  destruct (r !! (i + length pre)%nat) as [c |]; [| eauto].
  destruct (Set_ m1 p c) as [m2 |] eqn:Hset; [| eauto].
  destruct (Set_leaf _ _ _ _ Hset) as (head & tail & Hsplit & Hleaf).
  rewrite buildTree_app.
  destruct (buildTree m2 _ mid r) as [m3 |] eqn:Hmid; [| eauto].
  cbn [buildTree].
  destruct (r !! _) as [c' |]; [| eauto].
  rewrite (Set_below_leaf m3 p q c' head tail Hsplit).
  - eauto.
  - eapply buildTree_keeps_leaf; eassumption.
Qed.

End TreeOfRow.

(** C9: once a path has been stored as a leaf, every later [Set] of a
    path that extends it by a dot and further text panics on the type
    assertion, whatever was stored in between; so [Decode] panics, and
    returns no error, whenever its header names a path and later a path
    below it and a row could be read. *)
Theorem extension_of_leaf_panics :
  (forall (vs vs1 vs2 : CellValues) (p v q v' : string) (updates : list (string * string)),
      Set_ vs p v = Return vs1 ->
      SetAll vs1 updates = Return vs2 ->
      Set_ vs2 (p +:+ "." +:+ q) v' = Panic panicAssertion)
  /\ (forall (F : FloatConv) (M : MethodTable) (dec : Decoder) (i : option (type * value))
             (pre mid post row : list string) (rest : Reader) (p q : string),
        dec_err dec = None ->
        dec_r dec = (row, None) :: rest ->
        dec_header dec = pre ++ p :: mid ++ (p +:+ "." +:+ q) :: post ->
        exists msg, Decode dec i = Panic msg).
Proof.
  split.
  - intros vs vs1 vs2 p v q v' updates Hset Hall.
    destruct (CellValuesFacts.Set_leaf _ _ _ _ Hset) as (head & tail & Hsplit & Hleaf).
    eapply CellValuesFacts.Set_below_leaf; [eassumption |].
    eapply CellValuesFacts.SetAll_keeps_leaf; eassumption.
  - intros F M dec i pre mid post row rest p q Herr Hread Hheader.
    unfold Decode. rewrite Herr, Hread. cbn [Reader_Read dec_header].
    rewrite Hheader.
    destruct (buildTree_extension_panics pre mid post row p q ∅ 0) as [msg Hmsg].
    rewrite Hmsg. eauto.
Qed.

(** C9 on the header [a, x, a.b]: the tree panics, and so does
    [Decode]. *)
Lemma extension_of_leaf_panics_witness :
  Set_ ∅ "a" "1" = Return {[ "a" := CString "1" ]}
  /\ SetAll {[ "a" := CString "1" ]} [("x", "2")]
     = Return (<[ "x" := CString "2" ]> {[ "a" := CString "1" ]})
  /\ Set_ (<[ "x" := CString "2" ]> {[ "a" := CString "1" ]}) "a.b" "3" = Panic panicAssertion
  /\ exists msg,
       Fixtures.decodeInto [["a"; "x"; "a.b"]; ["1"; "2"; "3"]]
         (TStruct "" [Fixtures.exported "A" Fixtures.tString]) (VStruct [VString ""])
       = Panic msg.
Proof.
  assert (H1 : Set_ ∅ "a" "1" = Return {[ "a" := CString "1" ]}) by reflexivity.
  assert (H2 : SetAll {[ "a" := CString "1" ]} [("x", "2")]
               = Return (<[ "x" := CString "2" ]> {[ "a" := CString "1" ]})) by reflexivity.
  split; [exact H1 |]. split; [exact H2 |]. split.
  - exact (proj1 extension_of_leaf_panics _ _ _ "a" "1" "b" "3" _ H1 H2).
  - exact (proj2 extension_of_leaf_panics GoFloat.goFloatConv Fixtures.testMethods
             (NewDecoder [(["a"; "x"; "a.b"], None); (["1"; "2"; "3"], None)])
             _ [] ["x"] [] ["1"; "2"; "3"] [] "a" "b" eq_refl eq_refl eq_refl).
Defined.

(* ===================================================================== *)
(** * The error stored in an instance *)
(* ===================================================================== *)

Section StoredError.
Context `{FloatConv} `{MethodTable}.

(** A decoder that holds an error returns it at once: nothing is read
    and the argument is not touched. *)
Lemma Decode_sticky (dec : Decoder) (i : option (type * value)) (e : error) :
  dec_err dec = Some e -> Decode dec i = Return (dec, snd <$> i, Some e).
Proof. intros He. unfold Decode. rewrite He. reflexivity. Qed.

(** The error a [Decode] returns is the one it leaves in the decoder. *)
Lemma Decode_stores_error (dec dec' : Decoder) (i : option (type * value))
      (v : option value) (e : option error) :
  Decode dec i = Return (dec', v, e) -> dec_err dec' = e.
Proof.
  unfold Decode. destruct (dec_err dec) as [e0 |] eqn:He0.
  - intros [= <- _ <-]. assumption.
  - destruct (Reader_Read (dec_r dec)) as [r' [r [err |]]].
    + intros [= <- _ <-]. reflexivity.
    + destruct (buildTree _ _ _ _); [| discriminate].
      destruct i as [[t x] |]; [| discriminate].
      destruct (readStructTo _ _ _ _ _) as [[v' [err |]] |]; try discriminate.
      * intros [= <- _ <-]. reflexivity.
      * intros [= <- _ <-]. reflexivity.
Qed.

(** So a failed [Decode] is repeated by every later call. *)
Lemma Decode_fails_for_good (dec dec' : Decoder) (i j : option (type * value))
      (v : option value) (e : error) :
  Decode dec i = Return (dec', v, Some e) ->
  Decode dec' j = Return (dec', snd <$> j, Some e).
Proof. intros Hd. apply Decode_sticky. eapply Decode_stores_error. eassumption. Qed.

(** [Encode] has a value receiver: whatever it returns, the caller's
    encoder holds the error it held before. *)
Lemma Encode_keeps_err (self self' : Encoder) (i : option (type * value)) (e : option error) :
  Encode self i = Return (self', e) -> enc_err self' = enc_err self.
Proof.
  unfold Encode. destruct (Encode_body self i) as [[copy e'] |]; [| discriminate].
  intros [= <- _]. reflexivity.
Qed.

End StoredError.

(** C2, at the failing input: a fresh encoder is asked to encode a
    channel, which fails with the unsupported-type error; the encoder
    still holds no error, and the next call encodes and writes a row. *)
Theorem encoder_error_not_sticky :
  exists (e : error) (enc1 enc2 : Encoder),
    Fixtures.EncodeT Fixtures.encoder0 (Some (Fixtures.tChan, VOther false))
    = Return (enc1, Some e)
    /\ enc_err enc1 = None
    /\ Fixtures.EncodeT enc1
         (Some (TStruct "" [Fixtures.exported "Name" Fixtures.tString], VStruct [VString "vin"]))
       = Return (enc2, None)
    /\ written (enc_w enc2) = [["vin"]].
Proof.
  eexists _, _, _. split; [reflexivity |]. split; [reflexivity |].
  split; reflexivity.
Qed.

(* ===================================================================== *)
(** * The cells of a nil pointer *)
(* ===================================================================== *)

Section NilPointerCells.
Context `{FloatConv} `{MethodTable}.

(** A nil pointer to a struct without hooks is encoded as one NilValue
    per exported field, whatever the tags and the types of the fields. *)
Lemma marshal_nil_pointer (enc : Encoder) (n : string) (fs : list (StructField type))
      (fl : flags) (omitEmpty : bool) :
  methods n = noMethods -> flagRO fl = false ->
  marshal enc (TPtr "" (TStruct n fs)) (VPtr None) fl omitEmpty
  = Ok (List.map (fun _ => enc_NilValue enc)
                 (List.filter (fun f => bool_decide (PkgPath f = "")) fs)).
Proof.
  intros Hm Hro. cbn [marshal]. unfold indirectGetter, indirectTextMarshaler.
  rewrite Hro. cbn [indirectReceiver TypeName KindOf].
  assert (Hcells : nilCells enc (TStruct n fs)
                   = List.map (fun _ => enc_NilValue enc)
                       (List.filter (fun f => bool_decide (PkgPath f = "")) fs)).
  { cbn [nilCells]. induction fs as [| f fs IH]; [reflexivity |].
    cbn [flat_map List.filter List.map].
    destruct (bool_decide (PkgPath f = "")); cbn [app List.map]; rewrite IH; reflexivity. }
  change (bool_decide (@eq string "" "")) with true.
  change (bool_decide (kind.Struct = kind.Ptr)) with false.
  destruct (bool_decide (n = "")); cbn [negb andb].
  - rewrite Hcells. reflexivity.
  - cbn [receiverName]. rewrite Hm. cbn [GetCSV MarshalText noMethods].
    rewrite Hcells. reflexivity.
Qed.

End NilPointerCells.

(** C1, at two failing inputs.  A nil pointer to a struct with a field
    tagged ["-"] yields two cells where a populated one yields one; a
    nil pointer to a struct with a nested struct of two fields yields one
    cell where a populated one yields two. *)
Theorem nil_pointer_cell_count_differs :
  Fixtures.marshalT Fixtures.encoder0 (Fixtures.holder Fixtures.Tagged)
    (VStruct [VPtr None]) flagsValueOf false = Ok ["NULL"; "NULL"]
  /\ Fixtures.marshalT Fixtures.encoder0 (Fixtures.holder Fixtures.Tagged)
       (VStruct [VPtr (Some (VStruct [VString "a"; VString "b"]))]) flagsValueOf false
     = Ok ["b"]
  /\ Fixtures.marshalT Fixtures.encoder0 (Fixtures.holder Fixtures.Outer)
       (VStruct [VPtr None]) flagsValueOf false = Ok ["NULL"]
  /\ Fixtures.marshalT Fixtures.encoder0 (Fixtures.holder Fixtures.Outer)
       (VStruct [VPtr (Some (VStruct [VStruct [VString "x"; VString "y"]]))])
       flagsValueOf false
     = Ok ["x"; "y"].
Proof. repeat split; reflexivity. Qed.

(* ===================================================================== *)
(** * The text of a float *)
(* ===================================================================== *)

Section FloatText.
Context `{FloatConv} `{MethodTable}.

(** Both float kinds are formatted with bit size 64. *)
Lemma marshal_float (enc : Encoder) (n : string) (k : FloatKind) (f : float) (fl : flags) :
  methods n = noMethods -> flagRO fl = false ->
  marshal enc (TFloat n k) (VFloat f) fl false = Ok [FormatFloat f "f" (-1) 64].
Proof.
  intros Hm Hro. rewrite marshal_no_hooks by (assumption || destruct k; discriminate).
  unfold marshalValue. rewrite andb_false_r. reflexivity.
Qed.

Lemma marshal_int (enc : Encoder) (n : string) (k : IntKind) (i : Z) (fl : flags) :
  methods n = noMethods -> flagRO fl = false ->
  marshal enc (TInt n k) (VInt i) fl false = Ok [strconv.FormatInt10 i].
Proof.
  intros Hm Hro. rewrite marshal_no_hooks by (assumption || destruct k; discriminate).
  unfold marshalValue. rewrite andb_false_r. reflexivity.
Qed.

Lemma marshal_bool (enc : Encoder) (n : string) (b : bool) (fl : flags) :
  methods n = noMethods -> flagRO fl = false ->
  marshal enc (TBool n) (VBool b) fl false = Ok [if b then "true" else "false"].
Proof.
  intros Hm Hro. rewrite marshal_no_hooks by (assumption || discriminate).
  unfold marshalValue. rewrite andb_false_r. reflexivity.
Qed.

End FloatText.

(** C7, at the failing input: the [float32] nearest to 0.1 is encoded
    as the shortest text of its [float64] widening, 19 bytes long, though
    the three bytes ["0.1"] read back as the same [float32] and are what
    formatting at bit size 32 gives. *)
Theorem float32_text_not_shortest :
  let x := GoFloat.to_float32 0.1%float in
  Fixtures.marshalT Fixtures.encoder0 (TStruct "" [Fixtures.exported "F" Fixtures.tFloat32])
    (VStruct [VFloat x]) flagsValueOf false
  = Ok ["0.10000000149011612"]
  /\ GoFloat.ParseFloat "0.1" 32 = (x, None)
  /\ GoFloat.FormatFloat x "f" (-1) 32 = "0.1"
  /\ Fixtures.readStringToT Fixtures.decoder0 Fixtures.tFloat32 (Zero Fixtures.tFloat32)
       Fixtures.settable "0.1" = Return (VFloat x, None).
Proof. repeat split; vm_compute; reflexivity. Qed.

(* ===================================================================== *)
(** * The argument of [Decode] *)
(* ===================================================================== *)

Section DecodeTarget.
Context `{FloatConv} `{MethodTable}.

Lemma readStructFields_not_struct (dec : Decoder) readStruct (t : type) (v : value)
      (fl : flags) (values : CellValues) :
  KindOf t <> kind.Struct ->
  readStructFields dec readStruct t v fl values = Panic panicNumField.
Proof.
  intros Hk. unfold readStructFields.
  destruct t; try reflexivity. exfalso. apply Hk. reflexivity.
Qed.

Lemma readStructTo_not_struct (dec : Decoder) (t : type) (v : value) (fl : flags)
      (values : CellValues) :
  decodesAsStruct t = false -> has_type t v = true ->
  readStructTo dec t v fl values = Panic panicNumField
  \/ readStructTo dec t v fl values = Panic panicZeroValue.
Proof.
  intros Ht Hv. destruct t; try discriminate Ht; cbn [readStructTo];
    try (left; apply readStructFields_not_struct; try discriminate).
  - destruct k; discriminate.
  - destruct k; discriminate.
  - destruct v as [| | | | [pointee |] | | | |]; try discriminate Hv; [| right; reflexivity].
    left. rewrite readStructFields_not_struct; [reflexivity |].
    destruct t; try discriminate Ht; try discriminate.
    + destruct k; discriminate.
    + destruct k; discriminate.
Qed.

Lemma fieldLoop_passedOver (dec : Decoder) readStruct (fl : flags) (values : CellValues)
      (quiet : list (StructField type)) :
  forall (qv : list value) (fs : list (StructField type)) (vs : list value),
    Forall (passedOver values) quiet -> length qv = length quiet ->
    fieldLoop dec readStruct fl values (quiet ++ fs) (qv ++ vs)
    = match fieldLoop dec readStruct fl values fs vs with
      | Return (out, err) => Return (qv ++ out, err)
      | Panic msg => Panic msg
      end.
Proof.
  induction quiet as [| f quiet IH]; intros qv fs vs Hall Hlen.
  - destruct qv; [| discriminate Hlen]. cbn [app].
    destruct (fieldLoop _ _ _ _ fs vs) as [[out err] |]; reflexivity.
  - destruct qv as [| x qv]; [discriminate Hlen |].
    inversion Hall as [| ? ? Hf Hrest]; subst.
    cbn [app fieldLoop]. rewrite (IH qv fs vs Hrest) by (cbn in Hlen; lia).
    destruct Hf as [Hskip | [Hanon Hget]].
    + rewrite Hskip. destruct (fieldLoop _ _ _ _ fs vs) as [[out err] |]; reflexivity.
    + destruct (skipped f).
      * destruct (fieldLoop _ _ _ _ fs vs) as [[out err] |]; reflexivity.
      * rewrite Hanon, Hget.
        destruct (fieldLoop _ _ _ _ fs vs) as [[out err] |]; reflexivity.
Qed.

Lemma fieldLoop_nil (dec : Decoder) readStruct (fl : flags) (values : CellValues)
      (vs : list value) :
  fieldLoop dec readStruct fl values [] vs = Return (vs, None).
Proof. destruct vs; reflexivity. Qed.

Lemma not_skipped_exported (f : StructField type) :
  skipped f = false -> Anonymous f = false -> flagsField flagsValueOf f = flagsValueOf.
Proof.
  unfold skipped, flagsField. intros Hskip Hanon. rewrite Hanon in *.
  apply orb_false_iff in Hskip as [_ Hexp]. cbn [negb andb] in *.
  rewrite andb_true_r in Hexp. rewrite Hexp. reflexivity.
Qed.

(** A store through a field of a struct that was passed by value. *)
Lemma readStringTo_unaddressable (dec : Decoder) (t : type) (v : value) (c : string) :
  c <> dec_NilValue dec ->
  KindOf t = kind.Ptr
  \/ (c <> dec_EmptyValue dec /\ methods (TypeName t) = noMethods /\ KindOf t = kind.String) ->
  readStringTo dec t v flagsValueOf c = Panic panicSetUnaddressable.
Proof.
  intros Hnil [Hptr | (Hempty & Hm & Hstr)].
  - destruct (KindOf_Ptr t Hptr) as (n & e & ->). cbn [readStringTo].
    rewrite bool_decide_eq_false_2 by assumption. reflexivity.
  - rewrite readStringTo_no_hooks; try assumption; try reflexivity.
    + destruct t as [| ? [] | ? [] | | | | | |]; try discriminate Hstr. reflexivity.
    + rewrite Hstr. discriminate.
Qed.

(** C10, amended: a call of [Decode] that has read a row panics, on
    [NumField] or on the zero [Value] of a nil argument, when its
    argument is neither a struct nor a pointer to one.  For a struct
    passed by value it returns normally, with no error and nothing
    changed, when the loop passes over every field; and it panics with
    the unaddressable [Set] when the first field it does not pass over
    has a cell to store into a pointer or into a string. *)
Theorem decode_target (dec : Decoder) (row : list string) (rest : Reader) (m : CellValues) :
  dec_err dec = None ->
  dec_r dec = (row, None) :: rest ->
  buildTree ∅ 0 (dec_header dec) row = Return m ->
  (forall i, match i with
             | Some (t, v) => decodesAsStruct t = false /\ has_type t v = true
             | None => True
             end ->
             Decode dec i = Panic panicNumField \/ Decode dec i = Panic panicZeroValue)
  /\ (forall n fields vals,
         length vals = length fields -> Forall (passedOver m) fields ->
         Decode dec (Some (TStruct n fields, VStruct vals))
         = Return (mkDecoder rest (dec_header dec) None (dec_EmptyValue dec) (dec_NilValue dec),
                   Some (VStruct vals), None))
  /\ (forall n quiet f later qv fv lv c,
         length qv = length quiet -> Forall (passedOver m) quiet ->
         skipped f = false -> Anonymous f = false ->
         Get m (fieldKey f) = Some (CString c) ->
         c <> dec_NilValue dec ->
         KindOf (Type_ f) = kind.Ptr
         \/ (c <> dec_EmptyValue dec /\ methods (TypeName (Type_ f)) = noMethods
             /\ KindOf (Type_ f) = kind.String) ->
         Decode dec (Some (TStruct n (quiet ++ f :: later), VStruct (qv ++ fv :: lv)))
         = Panic panicSetUnaddressable).
Proof.
  intros Herr Hread Htree. repeat split.
  - intros i Hi. unfold Decode. rewrite Herr, Hread. cbn [Reader_Read dec_header].
    rewrite Htree. destruct i as [[t v] |]; [| right; reflexivity].
    destruct Hi as [Ht Hv].
    destruct (readStructTo_not_struct
                (mkDecoder rest (dec_header dec) None (dec_EmptyValue dec) (dec_NilValue dec))
                t v flagsValueOf m Ht Hv) as [Hmsg | Hmsg];
      rewrite Hmsg; [left | right]; reflexivity.
  - intros n fields vals Hlen Hall. unfold Decode. rewrite Herr, Hread.
    cbn [Reader_Read dec_header]. rewrite Htree.
    cbn [readStructTo]. unfold readStructFields.
    rewrite <- (app_nil_r fields), <- (app_nil_r vals).
    rewrite fieldLoop_passedOver by assumption.
    rewrite fieldLoop_nil, !app_nil_r. reflexivity.
  - intros n quiet f later qv fv lv c Hlen Hall Hskip Hanon Hget Hnil Hkind.
    unfold Decode. rewrite Herr, Hread. cbn [Reader_Read dec_header]. rewrite Htree.
    cbn [readStructTo]. unfold readStructFields.
    rewrite fieldLoop_passedOver by assumption.
    cbn [fieldLoop]. rewrite Hskip, Hanon, Hget.
    rewrite (not_skipped_exported f Hskip Hanon).
    rewrite readStringTo_unaddressable by assumption. reflexivity.
Qed.

End DecodeTarget.

(** C10 as stated fails: a struct passed by value whose field name is
    not in the header comes back from [Decode] with a nil error, and one
    whose field is of an unsupported kind comes back with the
    unsupported-type error; neither call panics. *)
Lemma decode_target_counterexample :
  Fixtures.decoded
    (Fixtures.DecodeT (NewDecoder [(["other"], None); (["1"], None)])
       (Some (TStruct "" [Fixtures.exported "Name" Fixtures.tString], VStruct [VString ""])))
  = Return (Some (VStruct [VString ""]), None)
  /\ Fixtures.decoded
       (Fixtures.DecodeT (NewDecoder [(["c"], None); (["1"], None)])
          (Some (TStruct "" [Fixtures.exported "C" Fixtures.tChan], VStruct [VOther true])))
     = Return (Some (VStruct [VOther true]), Some (ErrCantUnmarshal Fixtures.tChan)).
Proof. split; reflexivity. Qed.

(** C10, amended, on the header [name]: an [int] and a nil pointer to
    an [int] panic, a struct by value with a field [Other] returns, and a
    struct by value with a field [Name] panics on the store. *)
Lemma decode_target_witness :
  let dec := NewDecoder [(["name"], None); (["vin"], None)] in
  (Fixtures.DecodeT dec (Some (Fixtures.tInt, VInt 0)) = Panic panicNumField
   \/ Fixtures.DecodeT dec (Some (Fixtures.tInt, VInt 0)) = Panic panicZeroValue)
  /\ (Fixtures.DecodeT dec (Some (TPtr "" Fixtures.tInt, VPtr None)) = Panic panicNumField
      \/ Fixtures.DecodeT dec (Some (TPtr "" Fixtures.tInt, VPtr None)) = Panic panicZeroValue)
  /\ Fixtures.decoded
       (Fixtures.DecodeT dec
          (Some (TStruct "" [Fixtures.exported "Other" Fixtures.tString], VStruct [VString ""])))
     = Return (Some (VStruct [VString ""]), None)
  /\ Fixtures.DecodeT dec
       (Some (TStruct "" [Fixtures.exported "Name" Fixtures.tString], VStruct [VString ""]))
     = Panic panicSetUnaddressable.
Proof.
  pose proof (@decode_target GoFloat.goFloatConv Fixtures.testMethods
                (NewDecoder [(["name"], None); (["vin"], None)]) ["vin"] []
                {[ "name" := CString "vin" ]} eq_refl eq_refl eq_refl)
    as (Hnot & Hquiet & Hstore).
  cbv zeta. split; [| split; [| split]].
  - apply (Hnot (Some (Fixtures.tInt, VInt 0))). split; reflexivity.
  - apply (Hnot (Some (TPtr "" Fixtures.tInt, VPtr None))). split; reflexivity.
  - unfold Fixtures.DecodeT.
    rewrite (Hquiet "" [Fixtures.exported "Other" Fixtures.tString] [VString ""] eq_refl).
    + reflexivity.
    + constructor; [right; split; reflexivity | constructor].
  - apply (Hstore "" [] (Fixtures.exported "Name" Fixtures.tString) [] [] (VString "") []
             "vin" eq_refl ltac:(constructor) eq_refl eq_refl eq_refl).
    + discriminate.
    + right. split; [discriminate | split; reflexivity].
Defined.

(* ===================================================================== *)
(** * Hooks *)
(* ===================================================================== *)

Section Hooks.
Context `{FloatConv} `{MethodTable}.

Lemma marshal_getter (enc : Encoder) (t : type) (v : value) (fl : flags) (omitEmpty : bool)
      (getter : res (list string)) :
  indirectGetter t v fl = Return (Some getter) -> marshal enc t v fl omitEmpty = getter.
Proof. intros Hg. destruct v; cbn [marshal]; rewrite Hg; reflexivity. Qed.

Lemma readStringTo_setter (dec : Decoder) (t : type) (v : value) (fl : flags) (str : string)
      (setter : list string -> outcome (option value * option error)) :
  str <> dec_NilValue dec -> str <> dec_EmptyValue dec -> KindOf t <> kind.Ptr ->
  indirectSetter t v fl = Return (Some setter) ->
  readStringTo dec t v fl str = runHook setter [str] v.
Proof.
  intros Hnil Hempty Hk Hs. rewrite readStringTo_value by assumption.
  unfold readStringValue. rewrite bool_decide_eq_false_2 by assumption.
  rewrite Hs. reflexivity.
Qed.

Lemma readCellValuesTo_structural (dec : Decoder) (t : type) (v : value) (fl : flags)
      (values : CellValues) :
  KindOf t <> kind.Ptr ->
  readCellValuesTo dec (readStructTo dec) t v fl values
  = match t with
    | TStruct _ _ =>
        match readStructTo dec t v fl values with
        | Panic msg => Panic msg
        | Return (v', Some err) => Return (v', Some err)
        | Return (v', None) => Return (v', dec_err dec)
        end
    | _ => Return (v, Some (ErrCantUnmarshal t))
    end.
Proof.
  intros Hk. destruct t; try reflexivity. exfalso. apply Hk. reflexivity.
Qed.

(** C5, amended.  On encode the cell-getter of a value, whatever its
    kind, is used before anything else.  On decode the cell-setter is
    used in leaf assignment only: there it comes before the
    text-unmarshaler and the kinds, but after the two sentinels, which
    return without it, and for a pointer field it is the setter of the
    fresh pointee; a field whose entry in the tree is a subtree is
    decoded by its kind (a struct field by field, any other kind is
    refused) and its setter is not called. *)
Theorem hook_precedence (enc : Encoder) (dec : Decoder) (t : type) (v : value) (fl : flags) :
  (forall omitEmpty getter,
      indirectGetter t v fl = Return (Some getter) ->
      marshal enc t v fl omitEmpty = getter)
  /\ (forall str setter,
         KindOf t <> kind.Ptr ->
         indirectSetter t v fl = Return (Some setter) ->
         (str <> dec_NilValue dec -> str <> dec_EmptyValue dec ->
          readStringTo dec t v fl str = runHook setter [str] v)
         /\ (str = dec_NilValue dec \/ str = dec_EmptyValue dec ->
             readStringTo dec t v fl str = Return (v, None)))
  /\ (forall n e str setter,
         t = TPtr n e -> mustBeAssignable fl = None ->
         indirectSetter e (Zero e) (flagsElem flagsValueOf) = Return (Some setter) ->
         str <> dec_NilValue dec -> str <> dec_EmptyValue dec ->
         readStringTo dec t v fl str
         = match runHook setter [str] (Zero e) with
           | Return (pointee, err) => Return (VPtr (Some pointee), err)
           | Panic msg => Panic msg
           end)
  /\ (forall values setter,
         KindOf t <> kind.Ptr ->
         indirectSetter t v fl = Return (Some setter) ->
         readCellValuesTo dec (readStructTo dec) t v fl values
         = match t with
           | TStruct _ _ =>
               match readStructTo dec t v fl values with
               | Panic msg => Panic msg
               | Return (v', Some err) => Return (v', Some err)
               | Return (v', None) => Return (v', dec_err dec)
               end
           | _ => Return (v, Some (ErrCantUnmarshal t))
           end).
Proof.
  split; [| split; [| split]].
  - intros omitEmpty getter. apply marshal_getter.
  - intros str setter Hk Hs. split.
    + intros Hnil Hempty. apply readStringTo_setter; assumption.
    + intros Hsentinel.
      destruct (decide (str = dec_NilValue dec)) as [Hnil | Hnil];
        [apply readStringTo_nil; assumption |].
      destruct Hsentinel as [Hs' | Hempty]; [contradiction |].
      rewrite readStringTo_value by assumption.
      apply readStringValue_empty. assumption.
  - intros n e str setter -> Hset Hs Hnil Hempty.
    rewrite readStringTo_pointer by assumption.
    unfold readStringValue. rewrite bool_decide_eq_false_2 by assumption.
    rewrite Hs. reflexivity.
  - intros values setter Hk _. apply readCellValuesTo_structural. assumption.
Qed.

End Hooks.

(** C5 as stated fails on decode.  [point] is a struct with a [SetCSV];
    under the header [p] the setter fills the field, under the header
    [p.x] the field is decoded as a struct and the setter is not called,
    and a [csvgetter] (a map with a [SetCSV]) under [json.x] is refused
    as an unsupported type. *)
Lemma hook_precedence_counterexample :
  (exists setter,
      @indirectSetter Fixtures.testMethods Fixtures.point (VStruct [VInt 0; VInt 0])
        Fixtures.settable = Return (Some setter))
  /\ Fixtures.decoded
       (Fixtures.decodeInto [["p"]; ["1"]] (TStruct "" [Fixtures.exported "P" Fixtures.point])
          (VStruct [VStruct [VInt 0; VInt 0]]))
     = Return (Some (VPtr (Some (VStruct [VStruct [VInt 7; VInt 7]]))), None)
  /\ Fixtures.decoded
       (Fixtures.decodeInto [["p.x"]; ["1"]] (TStruct "" [Fixtures.exported "P" Fixtures.point])
          (VStruct [VStruct [VInt 0; VInt 0]]))
     = Return (Some (VPtr (Some (VStruct [VStruct [VInt 1; VInt 0]]))), None)
  /\ Fixtures.decoded
       (Fixtures.decodeInto [["json.x"]; ["1"]]
          (TStruct "" [Fixtures.exported "Json" Fixtures.csvgetter]) (VStruct [VMap None]))
     = Return (Some (VPtr (Some (VStruct [VMap None]))),
               Some (ErrCantUnmarshal Fixtures.csvgetter)).
Proof. split; [eexists; reflexivity |]. repeat split; reflexivity. Qed.

(** C5, amended, on [label], a named string with all four hooks: its
    [GetCSV] wins over its [MarshalText], its [SetCSV] over its
    [UnmarshalText], and the nil sentinel over both. *)
Lemma hook_precedence_witness :
  Fixtures.marshalT Fixtures.encoder0 Fixtures.label (VString "x") flagsValueOf false
  = Ok ["cells"]
  /\ Fixtures.readStringToT Fixtures.decoder0 Fixtures.label (VString "") Fixtures.settable "x"
     = Return (VString "set", None)
  /\ Fixtures.readStringToT Fixtures.decoder0 Fixtures.label (VString "") Fixtures.settable
       "NULL" = Return (VString "", None).
Proof.
  pose proof (@hook_precedence GoFloat.goFloatConv Fixtures.testMethods Fixtures.encoder0
                Fixtures.decoder0 Fixtures.label (VString "")) as Hdec.
  pose proof (@hook_precedence GoFloat.goFloatConv Fixtures.testMethods Fixtures.encoder0
                Fixtures.decoder0 Fixtures.label (VString "x") flagsValueOf) as (Henc & _).
  split; [| split].
  - apply (Henc false (Ok ["cells"])). reflexivity.
  - destruct (Hdec Fixtures.settable) as (_ & Hleaf & _ & _).
    destruct (Hleaf "x" _ ltac:(discriminate) eq_refl) as (Hset & _).
    unfold Fixtures.readStringToT. rewrite Hset by discriminate. reflexivity.
  - destruct (Hdec Fixtures.settable) as (_ & Hleaf & _ & _).
    destruct (Hleaf "NULL" _ ltac:(discriminate) eq_refl) as (_ & Hsentinel).
    apply Hsentinel. left. reflexivity.
Defined.

(* ===================================================================== *)
(** * Errors and their context *)
(* ===================================================================== *)

Section EncodeErrors.
Context (self : type -> value -> flags -> bool -> res (list string)).

Lemma sliceLoop_error (et : type) (fl : flags) (l : list value) (e : error) :
  sliceLoop self et fl l = Err e ->
  exists i x e', l !! i = Some x
                 /\ self et x (flagsIndex fl) false = Err e'
                 /\ e = ErrSliceElement x e'.
Proof.
  induction l as [| x l IH]; cbn [sliceLoop]; [discriminate |].
  destruct (self et x (flagsIndex fl) false) as [cells | e' | msg] eqn:Hx.
  - destruct (sliceLoop self et fl l) as [out | e0 | msg]; try discriminate.
    intros [= <-]. destruct (IH eq_refl) as (i & y & e' & Hi & Hy & He).
    exists (S i), y, e'. auto.
  - intros [= <-]. exists 0%nat, x, e'. auto.
  - discriminate.
Qed.

Lemma mapLoop_error (kt et : type) (fl : flags) (l : list (value * value)) (e : error) :
  mapLoop self kt et fl l = Err e ->
  exists i k x e', l !! i = Some (k, x)
                   /\ ((self kt k (flagsMap fl) false = Err e' /\ e = ErrMapKey k e')
                       \/ (self et x (flagsMap fl) false = Err e' /\ e = ErrMapValue x e')).
Proof.
  induction l as [| [k x] l IH]; cbn [mapLoop]; [discriminate |].
  destruct (self kt k (flagsMap fl) false) as [kc | e' | msg] eqn:Hk.
  - destruct (self et x (flagsMap fl) false) as [xc | e' | msg] eqn:Hx.
    + destruct (mapLoop self kt et fl l) as [out | e0 | msg]; try discriminate.
      intros [= <-]. destruct (IH eq_refl) as (i & k' & x' & e' & Hi & Hor).
      exists (S i), k', x', e'. auto.
    + intros [= <-]. exists 0%nat, k, x, e'. auto.
    + discriminate.
  - intros [= <-]. exists 0%nat, k, x, e'. auto.
  - discriminate.
Qed.

Lemma structLoop_error (fl : flags) (fs : list (StructField type)) :
  forall (vs : list value) (e : error),
    structLoop self fl fs vs = Err e ->
    exists i f fv e', fs !! i = Some f /\ vs !! i = Some fv /\ skipped f = false
                      /\ self (Type_ f) fv (flagsField fl f) (tagOmitEmpty f) = Err e'
                      /\ e = ErrStructField (Name f) fv e'.
Proof.
  induction fs as [| f fs IH]; intros vs e.
  - destruct vs; discriminate.
  - destruct vs as [| fv vs]; [discriminate |]. cbn [structLoop].
    destruct (skipped f) eqn:Hskip.
    + intros Hloop. destruct (IH vs e Hloop) as (i & g & gv & e' & Hi & Hv & Hrest).
      exists (S i), g, gv, e'. auto.
    + destruct (self (Type_ f) fv (flagsField fl f) (tagOmitEmpty f))
        as [cells | e' | msg] eqn:Hf.
      * destruct (structLoop self fl fs vs) as [out | e0 | msg] eqn:Hloop; try discriminate.
        intros [= <-]. destruct (IH vs e0 Hloop) as (i & g & gv & e' & Hi & Hv & Hrest).
        exists (S i), g, gv, e'. auto.
      * intros [= <-]. exists 0%nat, f, fv, e'. auto.
      * discriminate.
Qed.

End EncodeErrors.

Lemma type_size_field (n : string) (fs : list (StructField type)) (f : StructField type) :
  In f fs -> (type_size (Type_ f) < type_size (TStruct n fs))%nat.
Proof.
  cbn [type_size]. induction fs as [| g fs IH]; [contradiction |].
  intros [-> | Hin]; [lia |]. specialize (IH Hin). lia.
Qed.

Section DecodeErrors.
Context `{FloatConv} `{MethodTable}.
Variable dec : Decoder.
Variable P : error -> Prop.
Hypothesis Hnum : forall ne, P (ErrNum ne).
Hypothesis Hcant : forall t, P (ErrCantUnmarshal t).
Hypothesis Hhooks : hookErrorsIn P.

Lemma runHook_error {A} (hook : A -> outcome (option value * option error)) (a : A)
      (v v' : value) (e : error) :
  runHook hook a v = Return (v', Some e) -> exists r, hook a = Return (r, Some e).
Proof.
  unfold runHook. destruct (hook a) as [[r err] |]; [| discriminate].
  intros [= _ ->]. eauto.
Qed.

Lemma sliceFill_error self (et : type) (parts : list string) (xs : list value) (e : error) :
  sliceFill self et parts = Return (xs, Some e) ->
  exists part x, self et (Zero et) (flagsIndex flagsValueOf) part = Return (x, Some e).
Proof.
  revert xs. induction parts as [| part parts IH]; intros xs; cbn [sliceFill];
    [discriminate |].
  destruct (self et (Zero et) (flagsIndex flagsValueOf) part) as [[x [err |]] |] eqn:Hx;
    try discriminate.
  - intros [= _ <-]. eauto.
  - destruct (sliceFill self et parts) as [[ys err] |]; [| discriminate].
    intros [= _ ->]. eapply IH. reflexivity.
Qed.

Lemma assign_no_error (fl : flags) (x v' : value) (e : error) :
  assign fl x = Return (v', Some e) -> False.
Proof. unfold assign. destruct (mustBeAssignable fl); discriminate. Qed.

Lemma readStringValue_passes self (t : type) :
  (forall n et, t = TSlice n et ->
                forall v fl str v' e, self et v fl str = Return (v', Some e) -> P e) ->
  forall v fl str v' e,
    readStringValue dec self t v fl str = Return (v', Some e) -> P e.
Proof.
  destruct Hhooks as [Hset Hunm].
  intros Hself v fl str v' e. unfold readStringValue.
  destruct (bool_decide (str = dec_EmptyValue dec)); [discriminate |].
  destruct (indirectSetter t v fl) as [[setter |] |] eqn:Hs; [| | discriminate].
  { intros Hrun. apply runHook_error in Hrun as [r Hr]. eapply Hset; eassumption. }
  destruct (indirectTextUnmarshaler t v fl) as [[um |] |] eqn:Hu; [| | discriminate].
  { intros Hrun. apply runHook_error in Hrun as [r Hr]. eapply Hunm; eassumption. }
  destruct t as [n | n k | n k | n | n e0 | n et | n kt et | n fs | n].
  - destruct (strconv.ParseBool str) as [b [err |]].
    + intros [= _ <-]. apply Hnum.
    + intros Ha. destruct (assign_no_error _ _ _ _ Ha).
  - destruct (strconv.ParseInt0 str (parseBits k)) as [i [err |]].
    + intros [= _ <-]. apply Hnum.
    + intros Ha. destruct (assign_no_error _ _ _ _ Ha).
  - destruct k.
    + destruct (ParseFloat str 32) as [f [err |]].
      * intros [= _ <-]. apply Hnum.
      * intros Ha. destruct (assign_no_error _ _ _ _ Ha).
    + destruct (ParseFloat str 64) as [f [err |]].
      * intros [= _ <-]. apply Hnum.
      * intros Ha. destruct (assign_no_error _ _ _ _ Ha).
  - intros Ha. destruct (assign_no_error _ _ _ _ Ha).
  - intros [= _ <-]. apply Hcant.
  - destruct (sliceFill self et (strings.Split str ","))
      as [[xs [err |]] |] eqn:Hfill; try discriminate.
    + intros [= _ <-]. apply sliceFill_error in Hfill as (part & x & Hx).
      eapply (Hself n et eq_refl). eassumption.
    + intros Ha. destruct (assign_no_error _ _ _ _ Ha).
  - intros [= _ <-]. apply Hcant.
  - intros [= _ <-]. apply Hcant.
  - intros [= _ <-]. apply Hcant.
Qed.

(** Leaf assignment returns the error of [strconv], of a hook or of an
    element, or the unsupported-type error, and adds nothing to it. *)
Lemma readStringTo_passes (t : type) :
  (forall v fl str v' e,
      readStringValue dec (readStringTo dec) t v fl str = Return (v', Some e) -> P e)
  /\ (forall v fl str v' e, readStringTo dec t v fl str = Return (v', Some e) -> P e).
Proof.
  induction t as [n | n k | n k | n | n e0 IH | n et IH | n kt IHk et IHe | n fs | n].
  all: match goal with
       | |- ?R /\ _ =>
           assert (Hvalue : R);
           [ apply readStringValue_passes; intros n' et' Heq; try discriminate Heq | ]
       end.
  all: try (injection Heq as _ <-; exact (proj2 IH)).
  all: split; [exact Hvalue |];
    intros v fl str v' e; cbn [readStringTo];
    destruct (bool_decide (str = dec_NilValue dec)); [discriminate |];
    try apply Hvalue.
  destruct (mustBeAssignable fl); [discriminate |].
  destruct (readStringValue dec (readStringTo dec) e0 (Zero e0) (flagsElem flagsValueOf) str)
    as [[p err] |] eqn:Hp; [| discriminate].
  intros [= _ ->]. eapply (proj1 IH). eassumption.
Qed.

Hypothesis Hdec : forall e, dec_err dec = Some e -> P e.

Lemma fieldLoop_error readStruct (fl : flags) (values : CellValues)
      (fs : list (StructField type)) :
  forall (vs out : list value) (e : error),
    fieldLoop dec readStruct fl values fs vs = Return (out, Some e) ->
    exists f fv x,
      In f fs /\
      ((Anonymous f = true
        /\ readStruct (Type_ f) fv (flagsField fl f) values = Return (x, Some e))
       \/ (exists cell, readCellValuesTo dec readStruct (Type_ f) fv (flagsField fl f) cell
                        = Return (x, Some e))
       \/ (exists c, readStringTo dec (Type_ f) fv (flagsField fl f) c = Return (x, Some e))).
Proof.
  induction fs as [| f fs IH]; intros vs out e.
  - destruct vs; discriminate.
  - destruct vs as [| fv vs]; [discriminate |]. cbn [fieldLoop].
    assert (Hrest : forall out', fieldLoop dec readStruct fl values fs vs = Return (out', Some e) ->
                      exists g gv x,
                        In g (f :: fs) /\
                        ((Anonymous g = true
                          /\ readStruct (Type_ g) gv (flagsField fl g) values = Return (x, Some e))
                         \/ (exists cell,
                                readCellValuesTo dec readStruct (Type_ g) gv (flagsField fl g) cell
                                = Return (x, Some e))
                         \/ (exists c, readStringTo dec (Type_ g) gv (flagsField fl g) c
                                       = Return (x, Some e)))).
    { intros out' Hloop. destruct (IH vs out' e Hloop) as (g & gv & x & Hin & Hor).
      exists g, gv, x. split; [right; assumption | assumption]. }
    destruct (skipped f).
    + destruct (fieldLoop dec readStruct fl values fs vs) as [[out' err] |] eqn:Hloop;
        [| discriminate].
      intros [= _ ->]. eapply Hrest. reflexivity.
    + destruct (Anonymous f) eqn:Hanon.
      * destruct (readStruct (Type_ f) fv (flagsField fl f) values) as [[x [err |]] |] eqn:Hf;
          try discriminate.
        -- intros [= _ <-]. exists f, fv, x. split; [left; reflexivity | left; auto].
        -- destruct (fieldLoop dec readStruct fl values fs vs) as [[out' err] |] eqn:Hloop;
             [| discriminate].
           intros [= _ ->]. eapply Hrest. reflexivity.
      * destruct (Get values (fieldKey f)) as [[c | cell] |].
        -- destruct (readStringTo dec (Type_ f) fv (flagsField fl f) c)
             as [[x [err |]] |] eqn:Hf; try discriminate.
           ++ intros [= _ <-]. exists f, fv, x. split; [left; reflexivity | right; right; eauto].
           ++ destruct (fieldLoop dec readStruct fl values fs vs) as [[out' err] |] eqn:Hloop;
                [| discriminate].
              intros [= _ ->]. eapply Hrest. reflexivity.
        -- destruct (readCellValuesTo dec readStruct (Type_ f) fv (flagsField fl f) cell)
             as [[x [err |]] |] eqn:Hf; try discriminate.
           ++ intros [= _ <-]. exists f, fv, x. split; [left; reflexivity | right; left; eauto].
           ++ destruct (fieldLoop dec readStruct fl values fs vs) as [[out' err] |] eqn:Hloop;
                [| discriminate].
              intros [= _ ->]. eapply Hrest. reflexivity.
        -- destruct (fieldLoop dec readStruct fl values fs vs) as [[out' err] |] eqn:Hloop;
             [| discriminate].
           intros [= _ ->]. eapply Hrest. reflexivity.
Qed.

Lemma readCellStruct_passes (t : type) :
  (forall v fl values v' e,
      readStructTo dec t v fl values = Return (v', Some e) -> P e) ->
  forall v fl values v' e,
    readCellStruct dec (readStructTo dec) t v fl values = Return (v', Some e) -> P e.
Proof.
  intros Hto v fl values v' e. unfold readCellStruct.
  destruct t; try (intros [= _ <-]; apply Hcant).
  destruct (readStructTo dec _ v fl values) as [[x [err |]] |] eqn:Hx; try discriminate.
  - intros [= _ <-]. eapply Hto. eassumption.
  - intros [= _ Herr]. apply Hdec. assumption.
Qed.

(** The struct levels of decode return the error of the failing field as
    it is. *)
Lemma readStructTo_passes (n : nat) :
  forall t, (type_size t < n)%nat ->
            forall v fl values v' e,
              readStructTo dec t v fl values = Return (v', Some e) -> P e.
Proof.
  induction n as [| n IH]; intros t Hsize; [lia |].
  assert (Hfields : forall t0 v fl values v' e,
             (type_size t0 <= n)%nat ->
             readStructFields dec (readStructTo dec) t0 v fl values = Return (v', Some e) ->
             P e).
  { intros t0 v fl values v' e Hsize0. unfold readStructFields.
    destruct t0 as [| | | | | | | n0 fs |]; try discriminate.
    destruct v as [| | | | | | | vs |]; try discriminate.
    destruct (fieldLoop dec (readStructTo dec) fl values fs vs) as [[out err] |] eqn:Hloop;
      [| discriminate].
    intros [= _ ->].
    destruct (fieldLoop_error _ _ _ _ _ _ _ Hloop) as (f & fv & x & Hin & Hor).
    pose proof (type_size_field n0 fs f Hin) as Hlt.
    destruct Hor as [[_ Hanon] | [[cell Hcell] | [c Hc]]].
    - eapply (IH (Type_ f)); [lia | eassumption].
    - unfold readCellValuesTo in Hcell. revert Hcell.
      destruct (Type_ f) as [| | | | n1 e1 | | | |] eqn:Hty;
        try (apply readCellStruct_passes; apply IH; lia).
      destruct (mustBeAssignable (flagsField fl f)); [discriminate |].
      destruct (readCellStruct dec (readStructTo dec) e1 (Zero e1) (flagsElem flagsValueOf) cell)
        as [[p err] |] eqn:Hp; [| discriminate].
      intros [= _ ->].
      eapply readCellStruct_passes; [| eassumption].
      apply IH. change (type_size (TPtr n1 e1)) with (S (type_size e1)) in Hlt. lia.
    - eapply (proj2 (readStringTo_passes (Type_ f))). eassumption. }
  intros v fl values v' e. destruct t; cbn [readStructTo];
    try (apply Hfields; lia).
  destruct v as [| | | | [p |] | | | |]; try discriminate.
  destruct (readStructFields dec (readStructTo dec) t p (flagsElem fl) values)
    as [[p' err] |] eqn:Hp; [| discriminate].
  intros [= _ ->]. eapply Hfields; [| eassumption].
  change (type_size (TPtr name t)) with (S (type_size t)) in Hsize. lia.
Qed.

End DecodeErrors.

(** C4, amended.  On encode, the struct, slice and map levels wrap the
    error of the failing child with the field name (for a struct) and the
    offending value before they return it.  Decode wraps nothing: the
    error of a [Decode] that has read its row is an error of [strconv]
    (the function and the attempted text), the unsupported-type error
    (the type), or an error a hook returned, exactly as the failing leaf
    made it. *)
Theorem error_context (F : FloatConv) (M : MethodTable) (enc : Encoder) (dec : Decoder) :
  (forall n fs vs fl omitEmpty e,
      marshalValue enc (marshal enc) (TStruct n fs) (VStruct vs) fl omitEmpty = Err e ->
      exists i f fv e',
        fs !! i = Some f /\ vs !! i = Some fv /\ skipped f = false
        /\ marshal enc (Type_ f) fv (flagsField fl f) (tagOmitEmpty f) = Err e'
        /\ e = ErrStructField (Name f) fv e')
  /\ (forall n et l fl omitEmpty e,
         marshalValue enc (marshal enc) (TSlice n et) (VSlice (Some l)) fl omitEmpty = Err e ->
         exists i x e',
           l !! i = Some x /\ marshal enc et x (flagsIndex fl) false = Err e'
           /\ e = ErrSliceElement x e')
  /\ (forall n kt et l fl omitEmpty e,
         marshalValue enc (marshal enc) (TMap n kt et) (VMap (Some l)) fl omitEmpty = Err e ->
         exists i k x e',
           l !! i = Some (k, x)
           /\ ((marshal enc kt k (flagsMap fl) false = Err e' /\ e = ErrMapKey k e')
               \/ (marshal enc et x (flagsMap fl) false = Err e' /\ e = ErrMapValue x e')))
  /\ (forall (P : error -> Prop) row rest t v dec' v' e,
         (forall ne, P (ErrNum ne)) -> (forall t', P (ErrCantUnmarshal t')) ->
         hookErrorsIn P ->
         dec_err dec = None -> dec_r dec = (row, None) :: rest ->
         Decode dec (Some (t, v)) = Return (dec', v', Some e) ->
         P e).
Proof.
  split; [| split; [| split]].
  - intros n fs vs fl omitEmpty e. unfold marshalValue.
    destruct (IsZeroValue (VStruct vs) && omitEmpty); [discriminate |].
    apply structLoop_error.
  - intros n et l fl omitEmpty e. unfold marshalValue.
    destruct (IsZeroValue (VSlice (Some l)) && omitEmpty); [discriminate |].
    destruct (sliceLoop (marshal enc) et fl l) as [out | e0 | msg] eqn:Hloop;
      try discriminate.
    intros [= <-]. eapply sliceLoop_error. eassumption.
  - intros n kt et l fl omitEmpty e. unfold marshalValue.
    destruct (IsZeroValue (VMap (Some l)) && omitEmpty); [discriminate |].
    destruct (mapLoop (marshal enc) kt et fl l) as [out | e0 | msg] eqn:Hloop;
      try discriminate.
    intros [= <-]. eapply mapLoop_error. eassumption.
  - intros P row rest t v dec' v' e Hnum Hcant Hhooks Herr Hread.
    unfold Decode. rewrite Herr, Hread. cbn [Reader_Read dec_header].
    destruct (buildTree ∅ 0 (dec_header dec) row) as [m |]; [| discriminate].
    destruct (readStructTo _ t v flagsValueOf m) as [[x [err |]] |] eqn:Hx;
      try discriminate.
    intros [= _ _ <-].
    eapply (readStructTo_passes _ P Hnum Hcant Hhooks); [| | eassumption].
    + cbn [dec_err]. discriminate.
    + apply Nat.lt_succ_diag_r.
Qed.

(** C4 as stated fails on decode: the text [abc] for the field [Age] of
    the struct in the field [Person] makes [Decode] return the error of
    [strconv.ParseInt] itself, with no field name around it; the same
    nesting on encode yields both names. *)
Lemma error_context_counterexample :
  exists e e',
    Fixtures.decoded (Fixtures.decodeInto [["person.age"]; ["abc"]] Aged
                        (VStruct [VStruct [VInt 0]]))
    = Return (Some (VPtr (Some (VStruct [VStruct [VInt 0]]))), Some e)
    /\ e = ErrNum (strconv.mkNumError "ParseInt" "abc" strconv.ErrSyntax)
    /\ breadcrumbs e = []
    /\ Fixtures.marshalT Fixtures.encoder0 Chanelled (VStruct [VStruct [VOther false]])
         flagsValueOf false = Err e'
    /\ breadcrumbs e' = ["Person"; "C"].
Proof. eexists _, _. repeat split; reflexivity. Qed.

(** C4, amended, on the same two values: the struct level names the
    field [Person], and the decode error is bare. *)
Lemma error_context_witness :
  (exists i f fv e',
      [Fixtures.exported "Person" (TStruct "person" [Fixtures.exported "C" Fixtures.tChan])]
        !! i = Some f
      /\ [VStruct [VOther false]] !! i = Some fv /\ skipped f = false
      /\ @marshal GoFloat.goFloatConv plainMethods Fixtures.encoder0 (Type_ f) fv
           (flagsField flagsValueOf f) (tagOmitEmpty f) = Err e'
      /\ ErrStructField "Person" (VStruct [VOther false])
           (ErrStructField "C" (VOther false) (ErrCantMarshal Fixtures.tChan (VOther false)))
         = ErrStructField (Name f) fv e')
  /\ bareError (ErrNum (strconv.mkNumError "ParseInt" "abc" strconv.ErrSyntax)).
Proof.
  pose proof (error_context GoFloat.goFloatConv plainMethods Fixtures.encoder0
                (NewDecoder [(["person.age"], None); (["abc"], None)]))
    as (Hstruct & _ & _ & Hdecode).
  split.
  - apply (Hstruct ""
             [Fixtures.exported "Person" (TStruct "person" [Fixtures.exported "C" Fixtures.tChan])]
             [VStruct [VOther false]] flagsValueOf false).
    reflexivity.
  - apply (Hdecode bareError ["abc"] [] (TPtr "" Aged) (VPtr (Some (VStruct [VStruct [VInt 0]])))
             (mkDecoder [] ["person.age"]
                (Some (ErrNum (strconv.mkNumError "ParseInt" "abc" strconv.ErrSyntax)))
                DefaultEmptyValue DefaultNilValue)
             (Some (VPtr (Some (VStruct [VStruct [VInt 0]]))))).
    + intros ne. left. eauto.
    + intros t'. right. eauto.
    + split; intros t v fl hook a r e Hhook; unfold indirectSetter, indirectTextUnmarshaler in Hhook;
        destruct (flagRO fl); try discriminate;
        destruct (indirectReceiver t v fl); discriminate.
    + reflexivity.
    + reflexivity.
    + reflexivity.
Defined.


(* ===================================================================== *)
(** * Further properties: keys and trees *)
(* ===================================================================== *)

Module PathFacts.
Import CellValuesFacts.

Lemma Split_dotfree (s : string) (sep : ascii) :
  occurs sep s = false -> strings.Split s sep = [s].
Proof.
  induction s as [| c s IH]; [reflexivity |].
  cbn [occurs strings.Split]. destruct (Ascii.eqb c sep); [discriminate |].
  cbn [orb]. intros Hs. rewrite (IH Hs). reflexivity.
Qed.

Lemma Set_dotfree (vs : CellValues) (key value : string) :
  occurs "." key = false -> Set_ vs key value = Return (<[key := CString value]> vs).
Proof. intros Hkey. unfold Set_. rewrite Split_dotfree by assumption. reflexivity. Qed.

Lemma SetPath_walk (tail : list string) :
  forall (vs vs' : CellValues) (head value : string),
    SetPath vs head tail value = Return vs' -> walk vs' head tail = Some (CString value).
Proof.
  induction tail as [| next tail IH]; intros vs vs' head value; cbn [SetPath].
  - intros [= <-]. cbn [walk]. apply lookup_insert_eq.
  - set (vs1 := match vs !! head with None => <[head := CTree ∅]> vs | Some _ => vs end).
    destruct (vs1 !! head) as [[s | child] |]; try discriminate.
    destruct (SetPath child next tail value) as [child' |] eqn:Hchild; [| discriminate].
    intros [= <-]. cbn [walk]. rewrite lookup_insert_eq. eapply IH. eassumption.
Qed.

Lemma walk_lookup (vs vs' : CellValues) (head : string) (tail : list string) :
  vs' !! head = vs !! head -> walk vs' head tail = walk vs head tail.
Proof. destruct tail; cbn [walk]; intros ->; reflexivity. Qed.

Lemma walk_below_string (vs : CellValues) (head s : string) (tail : list string) :
  vs !! head = Some (CString s) -> tail <> [] -> walk vs head tail = None.
Proof. intros Hlook Htail. destruct tail; [contradiction |]. cbn [walk]. rewrite Hlook. reflexivity. Qed.

End PathFacts.

(** X1: a value stored with [Set] is what the tree then holds at the
    end of the key's path, and the entries whose key starts with another
    segment are the ones the tree held before. *)
Theorem Set_then_GetPath (vs vs' : CellValues) (key value : string) :
  Set_ vs key value = Return vs' ->
  GetPath vs' key = Some (CString value)
  /\ forall other : string,
       hd "" (strings.Split other ".") <> hd "" (strings.Split key ".") ->
       GetPath vs' other = GetPath vs other.
Proof.
  unfold Set_, GetPath.
  destruct (strings.Split key ".") as [| head tail] eqn:Hkey;
    [exfalso; exact (CellValuesFacts.Split_nonempty _ _ Hkey) |].
  intros Hset. split; [eapply PathFacts.SetPath_walk; eassumption |].
  intros other. destruct (strings.Split other ".") as [| h2 t2]; [reflexivity |].
  cbn [hd]. intros Hne. apply PathFacts.walk_lookup.
  eapply CellValuesFacts.SetPath_other; eassumption.
Qed.

(** X1 on the key [my.nested.struct] of the package's tests. *)
Lemma Set_then_GetPath_witness :
  GetPath {[ "my" := CTree {[ "nested" := CTree {[ "struct" := CString "henry" ]} ]} ]}
    "my.nested.struct" = Some (CString "henry")
  /\ forall other : string,
       hd "" (strings.Split other ".") <> hd "" (strings.Split "my.nested.struct" ".") ->
       GetPath {[ "my" := CTree {[ "nested" := CTree {[ "struct" := CString "henry" ]} ]} ]}
         other = GetPath ∅ other.
Proof. exact (Set_then_GetPath ∅ _ "my.nested.struct" "henry" eq_refl). Defined.

(** X2: [Set] under a key without a dot cannot panic: it replaces the
    entry, a subtree included, by the string, so that nothing can be
    read below the key any more. *)
Theorem Set_replaces_subtree (vs : CellValues) (key value : string) :
  occurs "." key = false ->
  Set_ vs key value = Return (<[key := CString value]> vs)
  /\ forall q : string, GetPath (<[key := CString value]> vs) (key +:+ "." +:+ q) = None.
Proof.
  intros Hkey. split; [apply PathFacts.Set_dotfree; assumption |].
  intros q. unfold GetPath.
  change (key +:+ "." +:+ q) with (key +:+ String "." q).
  rewrite CellValuesFacts.Split_app, PathFacts.Split_dotfree by assumption.
  cbn [app]. eapply PathFacts.walk_below_string; [apply lookup_insert_eq |].
  apply CellValuesFacts.Split_nonempty.
Qed.

(** X2 on the keys [a.b] and then [a]. *)
Lemma Set_replaces_subtree_witness :
  Set_ {[ "a" := CTree {[ "b" := CString "1" ]} ]} "a" "2"
  = Return (<[ "a" := CString "2" ]> {[ "a" := CTree {[ "b" := CString "1" ]} ]})
  /\ forall q : string,
       GetPath (<[ "a" := CString "2" ]> {[ "a" := CTree {[ "b" := CString "1" ]} ]})
         ("a" +:+ "." +:+ q) = None.
Proof. exact (Set_replaces_subtree _ "a" "2" eq_refl). Defined.

(* ===================================================================== *)
(** * Further properties: the row and the header *)
(* ===================================================================== *)

Section RowFacts.

Lemma buildTree_snoc (h : list string) (k : string) (r : list string) (m : CellValues) (i : nat) :
  buildTree m i (h ++ [k]) r
  = match buildTree m i h r with
    | Return m1 =>
        match r !! (i + length h)%nat with
        | None => Panic panicIndex
        | Some c => Set_ m1 k c
        end
    | Panic msg => Panic msg
    end.
Proof.
  rewrite buildTree_app. destruct (buildTree m i h r) as [m1 |]; [| reflexivity].
  cbn [buildTree]. destruct (r !! _) as [c |]; [| reflexivity].
  destruct (Set_ m1 k c); reflexivity.
Qed.

(** Under a header without dots the loop of [Decode] stores, for every
    column name, the cell under its last occurrence. *)
Lemma buildTree_dotfree (r : list string) (m : CellValues) (i : nat) (header : list string) :
  Forall (fun key => occurs "." key = false) header ->
  (i + length header <= length r)%nat ->
  exists m',
    buildTree m i header r = Return m'
    /\ (forall key, key ∉ header -> m' !! key = m !! key)
    /\ (forall j key,
           header !! j = Some key ->
           (forall j', (j < j')%nat -> header !! j' <> Some key) ->
           exists c, r !! (i + j)%nat = Some c /\ m' !! key = Some (CString c)).
Proof.
  induction header as [| k h IH] using rev_ind; intros Hdots Hlen.
  - exists m. split; [reflexivity |]. split; [reflexivity |].
    intros j key Hj. rewrite lookup_nil in Hj. discriminate.
  - apply Forall_app in Hdots as [Hh Hk]. apply Forall_cons in Hk as [Hk _].
    rewrite length_app in Hlen. cbn [length] in Hlen.
    destruct IH as (m1 & Hbuild & Hout & Hin); [assumption | lia |].
    destruct (lookup_lt_is_Some_2 r (i + length h)) as [c Hc]; [lia |].
    exists (<[k := CString c]> m1). split; [| split].
    + rewrite buildTree_snoc, Hbuild, Hc. apply PathFacts.Set_dotfree. assumption.
    + intros key Hkey. rewrite not_elem_of_app, not_elem_of_cons in Hkey.
      destruct Hkey as [Hkh [Hkk _]].
      rewrite lookup_insert_ne by congruence. apply Hout. assumption.
    + intros j key Hj Hlast.
      destruct (decide (key = k)) as [-> | Hne].
      * assert (j = length h) as ->.
        { destruct (decide (j = length h)) as [| Hj']; [assumption | exfalso].
          assert (j < length h)%nat.
          { apply lookup_lt_Some in Hj. rewrite length_app in Hj. cbn in Hj. lia. }
          apply (Hlast (length h)); [lia |].
          rewrite lookup_app_r by lia. rewrite Nat.sub_diag. reflexivity. }
        exists c. split; [assumption | apply lookup_insert_eq].
      * assert (Hjh : (j < length h)%nat).
        { destruct (decide (j < length h)%nat) as [| Hge]; [assumption | exfalso].
          apply lookup_lt_Some in Hj as Hjlt. rewrite length_app in Hjlt. cbn in Hjlt.
          assert (j = length h) as -> by lia.
          rewrite lookup_app_r in Hj by lia. rewrite Nat.sub_diag in Hj.
          cbn in Hj. congruence. }
        rewrite lookup_app_l in Hj by assumption.
        destruct (Hin j key Hj) as (c' & Hc' & Hm1).
        { intros j' Hlt Hj'. apply (Hlast j' Hlt).
          rewrite lookup_app_l; [assumption |]. apply lookup_lt_Some in Hj'. assumption. }
        exists c'. split; [assumption |].
        rewrite lookup_insert_ne by congruence. assumption.
Qed.

(** A row shorter than the header stops the loop with a panic. *)
Lemma buildTree_short (r : list string) (header : list string) :
  forall (m : CellValues) (i : nat),
    (i <= length r)%nat -> (length r < i + length header)%nat ->
    exists msg, buildTree m i header r = Panic msg.
Proof.
  induction header as [| key header IH]; intros m i Hi Hlen; cbn [length] in Hlen.
  - exfalso. lia.
  - cbn [buildTree]. destruct (r !! i) as [c |] eqn:Hc; [| eauto].
    destruct (Set_ m key c) as [m' |]; [| eauto].
    apply lookup_lt_Some in Hc. apply IH; lia.
Qed.

Lemma buildTree_short_dotfree (r : list string) (header : list string) :
  forall (m : CellValues) (i : nat),
    Forall (fun key => occurs "." key = false) header ->
    (i <= length r)%nat -> (length r < i + length header)%nat ->
    buildTree m i header r = Panic panicIndex.
Proof.
  induction header as [| key header IH]; intros m i Hdots Hi Hlen; cbn [length] in Hlen.
  - exfalso. lia.
  - apply Forall_cons in Hdots as [Hkey Hdots].
    cbn [buildTree]. destruct (r !! i) as [c |] eqn:Hc; [| reflexivity].
    rewrite PathFacts.Set_dotfree by assumption.
    apply lookup_lt_Some in Hc. apply IH; [assumption | lia | lia].
Qed.

(** The cells past the end of the header are not looked at. *)
Lemma buildTree_extra (r extra : list string) (header : list string) :
  forall (m : CellValues) (i : nat),
    (i + length header <= length r)%nat ->
    buildTree m i header (r ++ extra) = buildTree m i header r.
Proof.
  induction header as [| key header IH]; intros m i Hlen; cbn [length] in Hlen;
    [reflexivity |].
  cbn [buildTree]. rewrite lookup_app_l by lia.
  destruct (r !! i) as [c |]; [| reflexivity].
  destruct (Set_ m key c) as [m' |]; [| reflexivity].
  apply IH. lia.
Qed.

End RowFacts.

(** X3: when no column name has a dot and the row has a cell for every
    column, the tree [Decode] builds from the row holds, under each
    column name, the cell of the last column of that name, and nothing
    under any other key. *)
Theorem header_columns (header row : list string) :
  Forall (fun key => occurs "." key = false) header ->
  (length header <= length row)%nat ->
  exists m : CellValues,
    buildTree ∅ 0 header row = Return m
    /\ (forall key, key ∉ header -> Get m key = None)
    /\ (forall j key,
           header !! j = Some key ->
           (forall j', (j < j')%nat -> header !! j' <> Some key) ->
           exists c, row !! j = Some c /\ Get m key = Some (CString c)).
Proof.
  intros Hdots Hlen.
  destruct (buildTree_dotfree row ∅ 0 header Hdots) as (m & Hbuild & Hout & Hin); [lia |].
  exists m. split; [assumption |]. split.
  - intros key Hkey. unfold Get. rewrite Hout by assumption. apply lookup_empty.
  - intros j key Hj Hlast. destruct (Hin j key Hj Hlast) as (c & Hc & Hm). eauto.
Qed.

(** X3 on a header that names [name] twice. *)
Lemma header_columns_witness :
  Forall (fun key => occurs "." key = false) ["name"; "age"; "name"]
  /\ (length ["name"; "age"; "name"] <= length ["vin"; "47"; "dom"; "spare"])%nat
  /\ exists m : CellValues,
       buildTree ∅ 0 ["name"; "age"; "name"] ["vin"; "47"; "dom"; "spare"] = Return m
       /\ (forall key, key ∉ ["name"; "age"; "name"] -> Get m key = None)
       /\ (forall j key,
              ["name"; "age"; "name"] !! j = Some key ->
              (forall j', (j < j')%nat -> ["name"; "age"; "name"] !! j' <> Some key) ->
              exists c, ["vin"; "47"; "dom"; "spare"] !! j = Some c
                        /\ Get m key = Some (CString c)).
Proof.
  assert (Hdots : Forall (fun key => occurs "." key = false) ["name"; "age"; "name"])
    by (repeat constructor).
  assert (Hlen : (length ["name"; "age"; "name"] <= length ["vin"; "47"; "dom"; "spare"])%nat)
    by (cbn; lia).
  split; [exact Hdots |]. split; [exact Hlen |].
  exact (header_columns _ _ Hdots Hlen).
Defined.

Section RowsAndDecode.
Context `{FloatConv} `{MethodTable}.

(** X4: a row that [Read] hands over without an error but with fewer
    cells than the header makes [Decode] panic, whatever its argument;
    when no column name has a dot, with the index out of range. *)
Theorem Decode_short_row_panics (dec : Decoder) (i : option (type * value))
        (row : list string) (rest : Reader) :
  dec_err dec = None ->
  dec_r dec = (row, None) :: rest ->
  (length row < length (dec_header dec))%nat ->
  (exists msg, Decode dec i = Panic msg)
  /\ (Forall (fun key => occurs "." key = false) (dec_header dec) ->
      Decode dec i = Panic panicIndex).
Proof.
  intros Herr Hread Hlen. unfold Decode. rewrite Herr, Hread.
  cbn [Reader_Read dec_header]. split.
  - destruct (buildTree_short row (dec_header dec) ∅ 0) as [msg Hmsg]; [lia | lia |].
    rewrite Hmsg. eauto.
  - intros Hdots. rewrite buildTree_short_dotfree; [reflexivity | assumption | lia | lia].
Qed.

(** X5: [Decode] reads the cells of a row by the positions of the
    header; cells beyond the last column change nothing of what the call
    returns, stores or leaves in the decoder. *)
Theorem Decode_ignores_extra_cells (dec : Decoder) (i : option (type * value))
        (row extra : list string) (rest : Reader) :
  dec_err dec = None ->
  (length (dec_header dec) <= length row)%nat ->
  Decode (withReader dec ((row ++ extra, None) :: rest)) i
  = Decode (withReader dec ((row, None) :: rest)) i.
Proof.
  intros Herr Hlen. unfold Decode, withReader. cbn [dec_err dec_r dec_header Reader_Read
    dec_EmptyValue dec_NilValue].
  rewrite Herr. rewrite buildTree_extra by lia. reflexivity.
Qed.

(** A failed [Decode] is repeated by every later call, which reads no
    row and leaves its argument as it is. *)
Lemma Decode_repeats (dec dec' : Decoder) (i : option (type * value))
      (v : option value) (e : error) :
  Decode dec i = Return (dec', v, Some e) ->
  forall j, Decode dec' j = Return (dec', snd <$> j, Some e).
Proof. intros Hd j. eapply Decode_fails_for_good. eassumption. Qed.

(** X6: a decoder made from an input that is empty, or that holds the
    header and nothing else, returns [io.EOF] from its first [Decode]
    and from every later one, and touches no argument. *)
Theorem Decode_end_of_input (rows : Reader) (i : option (type * value)) :
  (rows = [] \/ exists header, rows = [(header, None)]) ->
  exists dec',
    Decode (NewDecoder rows) i = Return (dec', snd <$> i, Some io_EOF)
    /\ forall j, Decode dec' j = Return (dec', snd <$> j, Some io_EOF).
Proof.
  intros [-> | [header ->]].
  - exists (NewDecoder []). split; [reflexivity |]. intros j. reflexivity.
  - exists (mkDecoder [] header (Some io_EOF) DefaultEmptyValue DefaultNilValue).
    split; [reflexivity |]. intros j. reflexivity.
Qed.

(** X7: the error a [Decode] returns stays in the decoder: every later
    call returns the same error, reads no further row and leaves its
    argument as it is. *)
Theorem decoder_error_sticky (dec dec' : Decoder) (i : option (type * value))
        (v : option value) (e : error) :
  Decode dec i = Return (dec', v, Some e) ->
  dec_err dec' = Some e
  /\ forall j, Decode dec' j = Return (dec', snd <$> j, Some e).
Proof.
  intros Hd. split; [eapply Decode_stores_error; eassumption |].
  eapply Decode_repeats. eassumption.
Qed.

End RowsAndDecode.

(** X4 on a header of two columns and a row of one cell. *)
Lemma Decode_short_row_panics_witness :
  (length ["vin"] < length (dec_header (NewDecoder [(["name"; "age"], None); (["vin"], None)])))%nat
  /\ (exists msg,
         Fixtures.DecodeT (NewDecoder [(["name"; "age"], None); (["vin"], None)]) None
         = Panic msg)
  /\ (Forall (fun key => occurs "." key = false)
             (dec_header (NewDecoder [(["name"; "age"], None); (["vin"], None)])) ->
      Fixtures.DecodeT (NewDecoder [(["name"; "age"], None); (["vin"], None)]) None
      = Panic panicIndex).
Proof.
  assert (Hlen : (length ["vin"]
                  < length (dec_header (NewDecoder [(["name"; "age"], None); (["vin"], None)])))%nat)
    by (cbn; lia).
  split; [exact Hlen |].
  exact (@Decode_short_row_panics GoFloat.goFloatConv Fixtures.testMethods
           (NewDecoder [(["name"; "age"], None); (["vin"], None)]) None ["vin"] []
           eq_refl eq_refl Hlen).
Defined.

(** X5 on a row with one cell too many. *)
Lemma Decode_ignores_extra_cells_witness :
  (length (dec_header (NewDecoder [(["name"], None)])) <= length ["vin"])%nat
  /\ Fixtures.DecodeT (withReader (NewDecoder [(["name"], None)]) [(["vin"] ++ ["47"], None)])
       (Some (TPtr "" Fixtures.personStruct, VPtr (Some (VStruct [VString ""]))))
     = Fixtures.DecodeT (withReader (NewDecoder [(["name"], None)]) [(["vin"], None)])
         (Some (TPtr "" Fixtures.personStruct, VPtr (Some (VStruct [VString ""])))).
Proof.
  assert (Hlen : (length (dec_header (NewDecoder [(["name"], None)])) <= length ["vin"])%nat)
    by (cbn; lia).
  split; [exact Hlen |].
  exact (@Decode_ignores_extra_cells GoFloat.goFloatConv Fixtures.testMethods
           (NewDecoder [(["name"], None)]) _ ["vin"] ["47"] [] eq_refl Hlen).
Defined.

(** X6 on an input that holds the header only. *)
Lemma Decode_end_of_input_witness :
  exists dec',
    Fixtures.DecodeT (NewDecoder [(["name"], None)])
      (Some (TPtr "" Fixtures.personStruct, VPtr (Some (VStruct [VString "vin"]))))
    = Return (dec', Some (VPtr (Some (VStruct [VString "vin"]))), Some io_EOF)
    /\ forall j, Fixtures.DecodeT dec' j = Return (dec', snd <$> j, Some io_EOF).
Proof.
  exact (@Decode_end_of_input GoFloat.goFloatConv Fixtures.testMethods
           [(["name"], None)] _ (or_intror (ex_intro _ ["name"] eq_refl))).
Defined.

(** X7 on the text [abc] for an [int]: the error of [strconv] is
    returned again by the next call, which leaves the second row
    unread. *)
Lemma decoder_error_sticky_witness :
  let target := Some (TPtr "" (TStruct "" [Fixtures.exported "Age" Fixtures.tInt]),
                      VPtr (Some (VStruct [VInt 0]))) in
  let e := ErrNum (strconv.mkNumError "ParseInt" "abc" strconv.ErrSyntax) in
  let dec' := mkDecoder [(["7"], None)] ["age"] (Some e) DefaultEmptyValue DefaultNilValue in
  Fixtures.DecodeT (NewDecoder [(["age"], None); (["abc"], None); (["7"], None)]) target
  = Return (dec', snd <$> target, Some e)
  /\ dec_err dec' = Some e
  /\ forall j, Fixtures.DecodeT dec' j = Return (dec', snd <$> j, Some e).
Proof.
  intros target e dec'.
  assert (Hd : Fixtures.DecodeT (NewDecoder [(["age"], None); (["abc"], None); (["7"], None)])
                 target = Return (dec', snd <$> target, Some e))
    by (vm_compute; reflexivity).
  split; [exact Hd |].
  exact (@decoder_error_sticky GoFloat.goFloatConv Fixtures.testMethods _ _ _ _ _ Hd).
Defined.

(* ===================================================================== *)
(** * Further properties: the fields of the target *)
(* ===================================================================== *)

Section FieldLoopFacts.
Context `{FloatConv} `{MethodTable}.
Variable dec : Decoder.

Lemma fieldLoop_cons (fl : flags) (values : CellValues) (f : StructField type)
      (fs : list (StructField type)) (x : value) (vs : list value) :
  fieldLoop dec (readStructTo dec) fl values (f :: fs) (x :: vs)
  = if skipped f then
      match fieldLoop dec (readStructTo dec) fl values fs vs with
      | Return (out, err) => Return (x :: out, err)
      | Panic msg => Panic msg
      end
    else
      match fieldStep dec fl values f x with
      | Panic msg => Panic msg
      | Return (x', Some err) => Return (x' :: vs, Some err)
      | Return (x', None) =>
          match fieldLoop dec (readStructTo dec) fl values fs vs with
          | Return (out, err) => Return (x' :: out, err)
          | Panic msg => Panic msg
          end
      end.
Proof. reflexivity. Qed.

Lemma fieldStep_passedOver (fl : flags) (values : CellValues) (f : StructField type)
      (x : value) :
  skipped f = false -> passedOver values f -> fieldStep dec fl values f x = Return (x, None).
Proof.
  intros Hskip [Hs | [Hanon Hget]]; [congruence |].
  unfold fieldStep. rewrite Hanon, Hget. reflexivity.
Qed.

(** The loop returns as many fields as it was given, and those it
    passes over are as they were, also when it stops on an error. *)
Lemma fieldLoop_frame (fl : flags) (values : CellValues) (fs : list (StructField type)) :
  forall (vs out : list value) (err : option error),
    fieldLoop dec (readStructTo dec) fl values fs vs = Return (out, err) ->
    length out = length vs
    /\ forall i f, fs !! i = Some f -> passedOver values f -> out !! i = vs !! i.
Proof.
  induction fs as [| f fs IH]; intros vs out err.
  - destruct vs; cbn [fieldLoop]; intros [= <- <-]; split; try reflexivity;
      intros i f Hf; rewrite lookup_nil in Hf; discriminate.
  - destruct vs as [| x vs]; [discriminate |]. rewrite fieldLoop_cons.
    destruct (skipped f) eqn:Hskip.
    + destruct (fieldLoop dec _ fl values fs vs) as [[out' err'] |] eqn:Hrest; [| discriminate].
      intros [= <- <-]. destruct (IH _ _ _ Hrest) as [Hlen Hsame].
      split; [cbn; congruence |].
      intros [| i] g Hg Hover; [reflexivity |]. cbn in *. eapply Hsame; eassumption.
    + destruct (fieldStep dec fl values f x) as [[x' [e |]] |] eqn:Hstep; [| | discriminate].
      * intros [= <- <-]. split; [reflexivity |].
        intros [| i] g Hg Hover; [| reflexivity].
        cbn in Hg. injection Hg as <-.
        rewrite fieldStep_passedOver in Hstep by assumption. discriminate.
      * destruct (fieldLoop dec _ fl values fs vs) as [[out' err'] |] eqn:Hrest; [| discriminate].
        intros [= <- <-]. destruct (IH _ _ _ Hrest) as [Hlen Hsame].
        split; [cbn; congruence |].
        intros [| i] g Hg Hover; [| cbn in *; eapply Hsame; eassumption].
        cbn in Hg. injection Hg as <-.
        rewrite fieldStep_passedOver in Hstep by assumption.
        injection Hstep as <-. reflexivity.
Qed.

(** The loop stops at the first field whose assignment returns an error:
    the fields before it hold what their assignments stored, the failing
    field what its assignment left, the fields after it what they
    held. *)
Lemma fieldLoop_first_error (fl : flags) (values : CellValues) (fs : list (StructField type)) :
  forall (vs out : list value) (e : error),
    fieldLoop dec (readStructTo dec) fl values fs vs = Return (out, Some e) ->
    exists (k : nat) (f : StructField type) (old x : value),
      fs !! k = Some f /\ vs !! k = Some old /\ skipped f = false
      /\ fieldStep dec fl values f old = Return (x, Some e)
      /\ out !! k = Some x
      /\ (forall j, (k < j)%nat -> out !! j = vs !! j)
      /\ (forall j g y, (j < k)%nat -> fs !! j = Some g -> vs !! j = Some y ->
                        skipped g = false ->
                        exists y', fieldStep dec fl values g y = Return (y', None)
                                   /\ out !! j = Some y').
Proof.
  induction fs as [| f fs IH]; intros vs out e.
  - destruct vs; cbn [fieldLoop]; discriminate.
  - destruct vs as [| x vs]; [discriminate |]. rewrite fieldLoop_cons.
    destruct (skipped f) eqn:Hskip.
    + destruct (fieldLoop dec _ fl values fs vs) as [[out' err'] |] eqn:Hrest; [| discriminate].
      intros [= <- ->].
      destruct (IH _ _ _ Hrest) as (k & g & old & x' & Hg & Hold & Hsk & Hstep & Hout & Hafter & Hbefore).
      exists (S k), g, old, x'. repeat split; try assumption.
      * intros [| j] Hj; [lia |]. cbn. apply Hafter. lia.
      * intros [| j] g' y Hj Hg' Hy Hsk'.
        -- cbn in Hg'. injection Hg' as <-. congruence.
        -- cbn in *. eapply Hbefore; [lia | eassumption | eassumption | assumption].
    + destruct (fieldStep dec fl values f x) as [[x' [e' |]] |] eqn:Hstep; [| | discriminate].
      * intros [= <- ->]. exists 0%nat, f, x, x'. repeat split; try assumption; try reflexivity.
        -- intros [| j] Hj; [lia | reflexivity].
        -- intros j g y Hj. lia.
      * destruct (fieldLoop dec _ fl values fs vs) as [[out' err'] |] eqn:Hrest; [| discriminate].
        intros [= <- ->].
        destruct (IH _ _ _ Hrest) as (k & g & old & x'' & Hg & Hold & Hsk & Hstep' & Hout & Hafter & Hbefore).
        exists (S k), g, old, x''. repeat split; try assumption.
        -- intros [| j] Hj; [lia |]. cbn. apply Hafter. lia.
        -- intros [| j] g' y Hj Hg' Hy Hsk'.
           ++ cbn in Hg', Hy. injection Hg' as <-. injection Hy as <-. eauto.
           ++ cbn in *. eapply Hbefore; [lia | eassumption | eassumption | assumption].
Qed.

Lemma readStructTo_struct (n : string) (fs : list (StructField type)) (vs : list value)
      (fl : flags) (values : CellValues) :
  readStructTo dec (TStruct n fs) (VStruct vs) fl values
  = match fieldLoop dec (readStructTo dec) fl values fs vs with
    | Return (out, err) => Return (VStruct out, err)
    | Panic msg => Panic msg
    end.
Proof. reflexivity. Qed.

Lemma readStructTo_pointer (pn n : string) (fs : list (StructField type)) (vs : list value)
      (fl : flags) (values : CellValues) :
  readStructTo dec (TPtr pn (TStruct n fs)) (VPtr (Some (VStruct vs))) fl values
  = match fieldLoop dec (readStructTo dec) (flagsElem fl) values fs vs with
    | Return (out, err) => Return (VPtr (Some (VStruct out)), err)
    | Panic msg => Panic msg
    end.
Proof.
  cbn [readStructTo readStructFields].
  destruct (fieldLoop dec _ _ values fs vs) as [[out err] |]; reflexivity.
Qed.

End FieldLoopFacts.

Section Frame.
Context `{FloatConv} `{MethodTable}.

(** X8: whatever a [Decode] into a pointer to a struct returns, the
    struct has the fields it had, and every field that is skipped (not
    exported, or tagged ["-"]) or that has no entry in the tree of the
    row holds what it held before the call. *)
Theorem decode_frame (dec dec' : Decoder) (row : list string) (rest : Reader)
        (m : CellValues) (pn n : string) (fs : list (StructField type)) (vs : list value)
        (v' : option value) (err : option error) :
  dec_err dec = None ->
  dec_r dec = (row, None) :: rest ->
  buildTree ∅ 0 (dec_header dec) row = Return m ->
  Decode dec (Some (TPtr pn (TStruct n fs), VPtr (Some (VStruct vs)))) = Return (dec', v', err) ->
  exists out,
    v' = Some (VPtr (Some (VStruct out)))
    /\ length out = length vs
    /\ forall i f, fs !! i = Some f -> passedOver m f -> out !! i = vs !! i.
Proof.
  intros Herr Hread Hbuild. unfold Decode. rewrite Herr, Hread.
  cbn [Reader_Read dec_header dec_EmptyValue dec_NilValue]. rewrite Hbuild.
  rewrite readStructTo_pointer.
  destruct (fieldLoop _ _ _ m fs vs) as [[out e] |] eqn:Hloop; [| discriminate].
  destruct (fieldLoop_frame _ _ _ _ _ _ _ Hloop) as [Hlen Hsame].
  destruct e as [e |]; intros [= _ <- _]; exists out; auto.
Qed.

(** X9: a struct-level decode that returns an error stopped at one
    field: that field is not skipped and its assignment returned the
    error; the fields after it hold what they held, and the fields
    before it that are not skipped hold what their assignments stored,
    none of which is taken back. *)
Theorem decode_stops_at_first_error (dec : Decoder) (n : string)
        (fs : list (StructField type)) (vs : list value) (fl : flags) (values : CellValues)
        (v' : value) (e : error) :
  readStructTo dec (TStruct n fs) (VStruct vs) fl values = Return (v', Some e) ->
  exists (out : list value) (k : nat) (f : StructField type) (old x : value),
    v' = VStruct out
    /\ fs !! k = Some f /\ vs !! k = Some old /\ skipped f = false
    /\ fieldStep dec fl values f old = Return (x, Some e)
    /\ out !! k = Some x
    /\ (forall j, (k < j)%nat -> out !! j = vs !! j)
    /\ (forall j g y, (j < k)%nat -> fs !! j = Some g -> vs !! j = Some y ->
                      skipped g = false ->
                      exists y', fieldStep dec fl values g y = Return (y', None)
                                 /\ out !! j = Some y').
Proof.
  rewrite readStructTo_struct.
  destruct (fieldLoop _ _ _ values fs vs) as [[out e'] |] eqn:Hloop; [| discriminate].
  intros [= <- ->].
  destruct (fieldLoop_first_error _ _ _ _ _ _ _ Hloop)
    as (k & f & old & x & Hf & Hold & Hsk & Hstep & Hout & Hafter & Hbefore).
  exists out, k, f, old, x. repeat split; assumption.
Qed.

End Frame.

(** X8 on the struct of the test "should skip unexported fields", whose
    first two fields are skipped. *)
Lemma decode_frame_witness :
  let fs := [Fixtures.unexported "private" Fixtures.tString;
             Fixtures.tagged "PublicSkipped" "-" Fixtures.tString;
             Fixtures.exported "Name" Fixtures.tString] in
  let vs := [VString "riddick"; VString "dom"; VString ""] in
  let m : CellValues := {[ "name" := CString "vin" ]} in
  Fixtures.DecodeT (NewDecoder [(["name"], None); (["vin"], None)])
    (Some (TPtr "" (TStruct "" fs), VPtr (Some (VStruct vs))))
  = Return (mkDecoder [] ["name"] None DefaultEmptyValue DefaultNilValue,
            Some (VPtr (Some (VStruct [VString "riddick"; VString "dom"; VString "vin"]))),
            None)
  /\ exists out,
       Some (VPtr (Some (VStruct [VString "riddick"; VString "dom"; VString "vin"])))
       = Some (VPtr (Some (VStruct out)))
       /\ length out = length vs
       /\ forall i f, fs !! i = Some f -> passedOver m f -> out !! i = vs !! i.
Proof.
  intros fs vs m.
  assert (Hd : Fixtures.DecodeT (NewDecoder [(["name"], None); (["vin"], None)])
                 (Some (TPtr "" (TStruct "" fs), VPtr (Some (VStruct vs))))
               = Return (mkDecoder [] ["name"] None DefaultEmptyValue DefaultNilValue,
                         Some (VPtr (Some (VStruct [VString "riddick"; VString "dom";
                                                    VString "vin"]))),
                         None)) by (vm_compute; reflexivity).
  split; [exact Hd |].
  exact (@decode_frame GoFloat.goFloatConv Fixtures.testMethods
           (NewDecoder [(["name"], None); (["vin"], None)]) _ ["vin"] [] m "" "" fs vs _ _
           eq_refl eq_refl eq_refl Hd).
Defined.

(** X9 on a row whose second cell is not a number: the name is stored,
    the age and the city are as they were. *)
Lemma decode_stops_at_first_error_witness :
  let fs := [Fixtures.exported "Name" Fixtures.tString;
             Fixtures.exported "Age" Fixtures.tInt;
             Fixtures.exported "City" Fixtures.tString] in
  let vs := [VString ""; VInt 5; VString "old"] in
  let values : CellValues :=
    {[ "name" := CString "vin"; "age" := CString "abc"; "city" := CString "la" ]} in
  let e := ErrNum (strconv.mkNumError "ParseInt" "abc" strconv.ErrSyntax) in
  Fixtures.readStructToT Fixtures.decoder0 (TStruct "" fs) (VStruct vs) Fixtures.settable values
  = Return (VStruct [VString "vin"; VInt 5; VString "old"], Some e)
  /\ exists (out : list value) (k : nat) (f : StructField type) (old x : value),
       VStruct [VString "vin"; VInt 5; VString "old"] = VStruct out
       /\ fs !! k = Some f /\ vs !! k = Some old /\ skipped f = false
       /\ @fieldStep GoFloat.goFloatConv Fixtures.testMethods Fixtures.decoder0
            Fixtures.settable values f old = Return (x, Some e)
       /\ out !! k = Some x
       /\ (forall j, (k < j)%nat -> out !! j = vs !! j)
       /\ (forall j g y, (j < k)%nat -> fs !! j = Some g -> vs !! j = Some y ->
                         skipped g = false ->
                         exists y', @fieldStep GoFloat.goFloatConv Fixtures.testMethods
                                      Fixtures.decoder0 Fixtures.settable values g y
                                    = Return (y', None)
                                    /\ out !! j = Some y').
Proof.
  intros fs vs values e.
  assert (Hd : Fixtures.readStructToT Fixtures.decoder0 (TStruct "" fs) (VStruct vs)
                 Fixtures.settable values
               = Return (VStruct [VString "vin"; VInt 5; VString "old"], Some e))
    by (vm_compute; reflexivity).
  split; [exact Hd |].
  exact (@decode_stops_at_first_error GoFloat.goFloatConv Fixtures.testMethods
           _ _ _ _ _ _ _ _ Hd).
Defined.

(* ===================================================================== *)
(** * Further properties: leaf assignment *)
(* ===================================================================== *)

Module ParseFacts.
Import strconv.

Lemma digit_loop_range (base0 : bool) (base cutoff maxVal : Z) (s : string) :
  forall (n : Z) (u : bool) (n' : Z) (u' : bool),
    digit_loop base0 base cutoff maxVal s n u = LoopDone n' u' ->
    0 <= n -> 0 <= n'.
Proof.
  induction s as [| c s IH]; intros n u n' u'; cbn [digit_loop].
  - intros [= <- _]. trivial.
  - destruct (Ascii.eqb c "_" && base0); [intros Hloop Hn; eapply IH; eassumption |].
    destruct (if is_digit c then _ else _) as [d |]; [| discriminate].
    destruct (base <=? d); [discriminate |].
    destruct (cutoff <=? n); [discriminate |].
    destruct (_ || _); [discriminate |].
    intros Hloop Hn. eapply IH; [eassumption |].
    apply Z.mod_pos_bound. lia.
Qed.

Lemma ParseUint0_nonneg (s : string) (bitSize un : Z) (err : option Cause) :
  0 <= effectiveBits bitSize ->
  ParseUint0 s bitSize = (un, err) -> 0 <= un.
Proof.
  intros Hbits. unfold ParseUint0. destruct s as [| c s]; [intros [= <- _]; lia |].
  destruct (base_prefix (String c s)) as [base digits].
  fold (effectiveBits bitSize).
  destruct (digit_loop _ _ _ _ _ _ _) as [n u | |] eqn:Hloop.
  - destruct (u && negb (underscoreOK (String c s))); intros [= <- _]; [lia |].
    eapply digit_loop_range; [eassumption | lia].
  - intros [= <- _]. lia.
  - intros [= <- _]. assert (0 < 2 ^ effectiveBits bitSize) by (apply Z.pow_pos_nonneg; lia). lia.
Qed.

(** What [ParseInt] returns without an error fits the width asked for;
    its error names the function and the text, and nothing else. *)
Lemma ParseInt0_result (s : string) (bitSize : Z) :
  1 <= effectiveBits bitSize ->
  (exists i, ParseInt0 s bitSize = (i, None)
             /\ - 2 ^ (effectiveBits bitSize - 1) <= i < 2 ^ (effectiveBits bitSize - 1))
  \/ (exists i c, ParseInt0 s bitSize = (i, Some (mkNumError "ParseInt" s c))).
Proof.
  intros Hbits. unfold ParseInt0. destruct s as [| c s]; [right; eauto |].
  set (body := if Ascii.eqb c "+" || Ascii.eqb c "-" then s else String c s).
  destruct (ParseUint0 body bitSize) as [un err] eqn:Hun.
  apply ParseUint0_nonneg in Hun; [| lia].
  fold (effectiveBits bitSize).
  assert (Hpos : 0 < 2 ^ (effectiveBits bitSize - 1)) by (apply Z.pow_pos_nonneg; lia).
  assert (Hrest :
    (exists i, (if negb (Ascii.eqb c "-") && (2 ^ (effectiveBits bitSize - 1) <=? un)
                then (2 ^ (effectiveBits bitSize - 1) - 1,
                      Some (mkNumError "ParseInt" (String c s) ErrRange))
                else if Ascii.eqb c "-" && (2 ^ (effectiveBits bitSize - 1) <? un)
                then (- 2 ^ (effectiveBits bitSize - 1),
                      Some (mkNumError "ParseInt" (String c s) ErrRange))
                else (if Ascii.eqb c "-" then - un else un, None)) = (i, None)
               /\ - 2 ^ (effectiveBits bitSize - 1) <= i < 2 ^ (effectiveBits bitSize - 1))
    \/ (exists i k, (if negb (Ascii.eqb c "-") && (2 ^ (effectiveBits bitSize - 1) <=? un)
                     then (2 ^ (effectiveBits bitSize - 1) - 1,
                           Some (mkNumError "ParseInt" (String c s) ErrRange))
                     else if Ascii.eqb c "-" && (2 ^ (effectiveBits bitSize - 1) <? un)
                     then (- 2 ^ (effectiveBits bitSize - 1),
                           Some (mkNumError "ParseInt" (String c s) ErrRange))
                     else (if Ascii.eqb c "-" then - un else un, None))
                    = (i, Some (mkNumError "ParseInt" (String c s) k)))).
  { destruct (Ascii.eqb c "-"); cbn [negb andb].
    - destruct (2 ^ (effectiveBits bitSize - 1) <? un) eqn:Hcut; [right; eauto |].
      apply Z.ltb_ge in Hcut. left. eexists. split; [reflexivity | lia].
    - destruct (2 ^ (effectiveBits bitSize - 1) <=? un) eqn:Hcut; [right; eauto |].
      apply Z.leb_gt in Hcut. left. eexists. split; [reflexivity | lia]. }
  destruct err as [[] |]; [right; eauto | exact Hrest | exact Hrest].
Qed.

End ParseFacts.

Section LeafFacts.
Context `{FloatConv} `{MethodTable}.

Lemma assign_ok (fl : flags) (x : value) :
  mustBeAssignable fl = None -> assign fl x = Return (x, None).
Proof. intros Hset. unfold assign. rewrite Hset. reflexivity. Qed.

(** X10: for an integer field of a type without hooks, a cell that is
    neither sentinel either parses, and then the field receives exactly
    the parsed number, which fits the width of the field's kind; or it
    does not, and then the field keeps its value and the error is the
    [strconv.NumError] of [ParseInt] for the text of the cell.  No
    number is stored truncated. *)
Theorem decoded_int_fits (dec : Decoder) (n : string) (k : IntKind) (v : value) (fl : flags)
        (str : string) :
  methods n = noMethods ->
  mustBeAssignable fl = None ->
  str <> dec_NilValue dec -> str <> dec_EmptyValue dec ->
  (exists i, strconv.ParseInt0 str (parseBits k) = (i, None)
             /\ inRange k i = true
             /\ readStringTo dec (TInt n k) v fl str = Return (VInt i, None))
  \/ (exists c, readStringTo dec (TInt n k) v fl str
                = Return (v, Some (ErrNum (strconv.mkNumError "ParseInt" str c)))).
Proof.
  intros Hm Hset Hnil Hempty.
  pose proof (mustBeAssignable_RO _ Hset) as Hro.
  pose proof (intBits_bounds k) as Hbits.
  rewrite readStringTo_no_hooks; try assumption; [| destruct k; discriminate].
  destruct (ParseFacts.ParseInt0_result str (parseBits k)) as [(i & Hparse & Hrange) | (i & c & Hparse)];
    [rewrite intBits_effective; lia | |]; rewrite Hparse.
  - left. exists i. rewrite intBits_effective in Hrange.
    split; [reflexivity |]. split.
    + unfold inRange. apply andb_true_iff. split; [apply Z.leb_le | apply Z.ltb_lt]; lia.
    + rewrite assign_ok by assumption. rewrite wrapInt_small by lia. reflexivity.
  - right. exists c. reflexivity.
Qed.




End LeafFacts.

(** X10 on an [int8]: ["-128"] is stored, ["128"] is refused as out of
    range. *)
Lemma decoded_int_fits_witness :
  ((exists i, strconv.ParseInt0 "-128" (parseBits KInt8) = (i, None)
              /\ inRange KInt8 i = true
              /\ Fixtures.readStringToT Fixtures.decoder0 Fixtures.tInt8 (VInt 5)
                   Fixtures.settable "-128" = Return (VInt i, None))
   \/ (exists c, Fixtures.readStringToT Fixtures.decoder0 Fixtures.tInt8 (VInt 5)
                   Fixtures.settable "-128"
                 = Return (VInt 5, Some (ErrNum (strconv.mkNumError "ParseInt" "-128" c)))))
  /\ ((exists i, strconv.ParseInt0 "128" (parseBits KInt8) = (i, None)
                 /\ inRange KInt8 i = true
                 /\ Fixtures.readStringToT Fixtures.decoder0 Fixtures.tInt8 (VInt 5)
                      Fixtures.settable "128" = Return (VInt i, None))
      \/ (exists c, Fixtures.readStringToT Fixtures.decoder0 Fixtures.tInt8 (VInt 5)
                      Fixtures.settable "128"
                    = Return (VInt 5, Some (ErrNum (strconv.mkNumError "ParseInt" "128" c))))).
Proof.
  split.
  - apply (@decoded_int_fits GoFloat.goFloatConv Fixtures.testMethods Fixtures.decoder0
             "int8" KInt8 (VInt 5) Fixtures.settable "-128"); (reflexivity || discriminate).
  - apply (@decoded_int_fits GoFloat.goFloatConv Fixtures.testMethods Fixtures.decoder0
             "int8" KInt8 (VInt 5) Fixtures.settable "128"); (reflexivity || discriminate).
Defined.


Section EmbeddedFields.
Context `{FloatConv} `{MethodTable}.

Lemma embedded_not_skipped (f : StructField type) :
  Anonymous f = true -> tagName f <> "-" -> skipped f = false.
Proof.
  intros Hanon Htag. unfold skipped. rewrite Hanon.
  rewrite bool_decide_eq_false_2 by assumption. apply andb_false_r.
Qed.

(** X12: an embedded field is decoded as a struct without a look at its
    kind.  When the loop of [Decode] reaches an embedded field that is
    neither a struct nor a pointer to one, or that is a nil pointer, the
    call panics: nothing is allocated for it and no error is
    returned. *)
Theorem embedded_field_panics (dec : Decoder) (row : list string) (rest : Reader)
        (m : CellValues) (pn n : string)
        (quiet : list (StructField type)) (f : StructField type)
        (later : list (StructField type)) (qv : list value) (fv : value) (lv : list value) :
  dec_err dec = None ->
  dec_r dec = (row, None) :: rest ->
  buildTree ∅ 0 (dec_header dec) row = Return m ->
  length qv = length quiet -> Forall (passedOver m) quiet ->
  Anonymous f = true -> tagName f <> "-" ->
  (decodesAsStruct (Type_ f) = false /\ has_type (Type_ f) fv = true)
  \/ (KindOf (Type_ f) = kind.Ptr /\ fv = VPtr None) ->
  let target := Some (TPtr pn (TStruct n (quiet ++ f :: later)),
                      VPtr (Some (VStruct (qv ++ fv :: lv)))) in
  Decode dec target = Panic panicNumField \/ Decode dec target = Panic panicZeroValue.
Proof.
  intros Herr Hread Hbuild Hlen Hquiet Hanon Htag Hkind target. subst target.
  unfold Decode. rewrite Herr, Hread.
  cbn [Reader_Read dec_header dec_EmptyValue dec_NilValue]. rewrite Hbuild.
  rewrite readStructTo_pointer.
  rewrite fieldLoop_passedOver by assumption.
  rewrite fieldLoop_cons. rewrite (embedded_not_skipped f Hanon Htag).
  unfold fieldStep. rewrite Hanon.
  destruct Hkind as [[Hnot Htyped] | [Hk ->]].
  - destruct (readStructTo_not_struct
                (mkDecoder rest (dec_header dec) None (dec_EmptyValue dec) (dec_NilValue dec))
                (Type_ f) fv (flagsField (flagsElem flagsValueOf) f) m Hnot Htyped)
      as [-> | ->]; [left | right]; reflexivity.
  - destruct (KindOf_Ptr _ Hk) as (en & ee & ->). right. reflexivity.
Qed.

End EmbeddedFields.

(** X12 on a struct that embeds a nil [*AnonymousStruct]. *)
Lemma embedded_field_panics_witness :
  let f := Fixtures.embedded "AnonymousStruct" (TPtr "" Fixtures.AnonymousStruct) in
  let target := Some (TPtr "" (TStruct "" [f]), VPtr (Some (VStruct [VPtr None]))) in
  tagName f <> "-"
  /\ (Fixtures.DecodeT (NewDecoder [(["name"], None); (["henry"], None)]) target
      = Panic panicNumField
      \/ Fixtures.DecodeT (NewDecoder [(["name"], None); (["henry"], None)]) target
         = Panic panicZeroValue).
Proof.
  intros f target.
  assert (Htag : tagName f <> "-") by discriminate.
  split; [exact Htag |].
  exact (@embedded_field_panics GoFloat.goFloatConv Fixtures.testMethods
           (NewDecoder [(["name"], None); (["henry"], None)]) ["henry"] []
           {[ "name" := CString "henry" ]} "" "" [] f [] [] (VPtr None) []
           eq_refl eq_refl eq_refl eq_refl (Forall_nil_2 _) eq_refl Htag
           (or_intror (conj eq_refl eq_refl))).
Defined.

(* ===================================================================== *)
(** * Further properties: what encodes but does not decode *)
(* ===================================================================== *)

Section Maps.
Context `{FloatConv} `{MethodTable}.

Lemma marshal_RO (enc : Encoder) (t : type) (v : value) (fl : flags) (omitEmpty : bool) :
  flagRO fl = true -> marshal enc t v fl omitEmpty = Crash panicInterfaceRO.
Proof.
  intros Hro. destruct v; cbn [marshal]; unfold indirectGetter; rewrite Hro; reflexivity.
Qed.

(** X13: a map of a type without hooks is encoded into one cell, and no
    cell decodes into a map: leaf assignment leaves the field as it was,
    with the unsupported-type error unless the cell is one of the two
    sentinels. *)
Theorem map_is_not_decoded (enc : Encoder) (dec : Decoder) (n : string) (kt et : type)
        (entries : option (list (value * value))) (fl fld : flags) (omitEmpty : bool)
        (cells : list string) (v : value) :
  methods n = noMethods ->
  flagRO fld = false ->
  marshal enc (TMap n kt et) (VMap entries) fl omitEmpty = Ok cells ->
  exists c,
    cells = [c]
    /\ readStringTo dec (TMap n kt et) v fld c
       = Return (v, if bool_decide (c = dec_NilValue dec) || bool_decide (c = dec_EmptyValue dec)
                    then None else Some (ErrCantUnmarshal (TMap n kt et))).
Proof.
  intros Hm Hfld Hcells.
  assert (Hone : exists c, cells = [c]).
  { destruct (flagRO fl) eqn:Hro; [rewrite marshal_RO in Hcells by assumption; discriminate |].
    rewrite marshal_no_hooks in Hcells by (assumption || discriminate).
    unfold marshalValue in Hcells.
    destruct (IsZeroValue (VMap entries) && omitEmpty); [injection Hcells as <-; eauto |].
    destruct entries as [l |].
    - destruct (mapLoop _ kt et fl l) as [out | |]; try discriminate.
      injection Hcells as <-. eauto.
    - injection Hcells as <-. eauto. }
  destruct Hone as [c ->]. exists c. split; [reflexivity |].
  destruct (decide (c = dec_NilValue dec)) as [Hnil | Hnil].
  { rewrite readStringTo_nil by assumption.
    rewrite (bool_decide_eq_true_2 _ Hnil). reflexivity. }
  rewrite (bool_decide_eq_false_2 _ Hnil).
  destruct (decide (c = dec_EmptyValue dec)) as [Hempty | Hempty].
  { rewrite readStringTo_value, readStringValue_empty by (assumption || discriminate).
    rewrite (bool_decide_eq_true_2 _ Hempty). reflexivity. }
  rewrite (bool_decide_eq_false_2 _ Hempty).
  rewrite readStringTo_no_hooks by (assumption || discriminate). reflexivity.
Qed.

End Maps.

(** X13 on a [map[string]string] with one entry. *)
Lemma map_is_not_decoded_witness :
  Fixtures.marshalT Fixtures.encoder0 (TMap "" Fixtures.tString Fixtures.tString)
    (VMap (Some [(VString "name", VString "henry")])) flagsValueOf false = Ok ["name:henry"]
  /\ exists c,
       ["name:henry"] = [c]
       /\ Fixtures.readStringToT Fixtures.decoder0 (TMap "" Fixtures.tString Fixtures.tString)
            (VMap None) Fixtures.settable c
          = Return (VMap None,
                    if bool_decide (c = dec_NilValue Fixtures.decoder0)
                       || bool_decide (c = dec_EmptyValue Fixtures.decoder0)
                    then None
                    else Some (ErrCantUnmarshal (TMap "" Fixtures.tString Fixtures.tString))).
Proof.
  assert (Hm : Fixtures.marshalT Fixtures.encoder0 (TMap "" Fixtures.tString Fixtures.tString)
                 (VMap (Some [(VString "name", VString "henry")])) flagsValueOf false
               = Ok ["name:henry"]) by reflexivity.
  split; [exact Hm |].
  exact (@map_is_not_decoded GoFloat.goFloatConv Fixtures.testMethods Fixtures.encoder0
           Fixtures.decoder0 "" Fixtures.tString Fixtures.tString _ flagsValueOf
           Fixtures.settable false _ (VMap None) eq_refl eq_refl Hm).
Defined.

(* ===================================================================== *)
(** * Further properties: the width of a row *)
(* ===================================================================== *)

Section RowWidth.
Context `{FloatConv} `{MethodTable}.

Lemma marshal_unfold (enc : Encoder) (t : type) (v : value) (fl : flags) (omitEmpty : bool) :
  marshal enc t v fl omitEmpty
  = match indirectGetter t v fl with
    | Panic msg => Crash msg
    | Return (Some getter) => getter
    | Return None =>
        match indirectTextMarshaler t v fl with
        | Panic msg => Crash msg
        | Return (Some textMarshaler) =>
            match textMarshaler with
            | Ok b => Ok [b]
            | Err e => Err e
            | Crash msg => Crash msg
            end
        | Return None =>
            match t with
            | TPtr _ e =>
                match v with
                | VPtr None => Ok (nilCells enc e)
                | VPtr (Some pointee) =>
                    marshalValue enc (marshal enc) e pointee (flagsElem fl) omitEmpty
                | _ => Crash panicIllTyped
                end
            | _ => marshalValue enc (marshal enc) t v fl omitEmpty
            end
        end
    end.
Proof. destruct v; reflexivity. Qed.

(** A pointer whose element type has no hooks: the nil check and the
    dereference of lines 76-92. *)
Lemma marshal_pointer (enc : Encoder) (pn : string) (e : type) (v : value) (fl : flags)
      (omitEmpty : bool) :
  methods (TypeName e) = noMethods -> flagRO fl = false ->
  marshal enc (TPtr pn e) v fl omitEmpty
  = match v with
    | VPtr None => Ok (nilCells enc e)
    | VPtr (Some pointee) => marshalValue enc (marshal enc) e pointee (flagsElem fl) omitEmpty
    | _ => Crash panicIllTyped
    end.
Proof.
  intros Hm Hro. rewrite marshal_unfold.
  unfold indirectGetter, indirectTextMarshaler. rewrite Hro.
  cbn [indirectReceiver].
  destruct (bool_decide (pn = "") && negb (bool_decide (TypeName e = ""))
            && negb (bool_decide (KindOf e = kind.Ptr))); [| reflexivity].
  destruct v; try reflexivity.
  cbn [receiverName]. rewrite Hm. reflexivity.
Qed.









End RowWidth.


(* ===================================================================== *)
(** * Further properties: receivers and addressability *)
(* ===================================================================== *)

Section Receivers.
Context `{FloatConv} `{MethodTable}.

Lemma indirectReceiver_value (t : type) (v : value) (fl : flags) :
  KindOf t <> kind.Ptr ->
  indirectReceiver t v fl
  = if bool_decide (TypeName t = "") then None
    else if flagAddr fl then Some (RecvPointer (TypeName t) (Some v))
         else Some (RecvValue (TypeName t) v).
Proof. intros Hk. destruct t; try reflexivity. exfalso. apply Hk. reflexivity. Qed.

Lemma indirectReceiver_pointer (t : type) (p : option value) (fl : flags) :
  KindOf t <> kind.Ptr ->
  indirectReceiver (TPtr "" t) (VPtr p) fl
  = if bool_decide (TypeName t = "") then None
    else Some (RecvPointer (TypeName t) p).
Proof.
  intros Hk. cbn [indirectReceiver].
  rewrite (bool_decide_eq_false_2 _ Hk).
  destruct (bool_decide (TypeName t = "")); reflexivity.
Qed.

Section ValueReaders.
Hypothesis Hreaders : valueReaders.

Lemma indirectGetter_addr (t : type) (v : value) (fl1 fl2 : flags) :
  flagRO fl1 = flagRO fl2 -> indirectGetter t v fl1 = indirectGetter t v fl2.
Proof.
  intros Hro. unfold indirectGetter. rewrite Hro. destruct (flagRO fl2); [reflexivity |].
  destruct (decide (KindOf t = kind.Ptr)) as [Hk | Hk].
  - destruct (KindOf_Ptr t Hk) as (pn & e & ->). reflexivity.
  - rewrite !indirectReceiver_value by assumption.
    destruct (bool_decide (TypeName t = "")); [reflexivity |].
    destruct (Hreaders (TypeName t)) as [Hg _].
    destruct (flagAddr fl1), (flagAddr fl2); try reflexivity; cbn [receiverName];
      destruct (GetCSV (methods (TypeName t))) as [[f | f] |];
      (reflexivity || contradiction).
Qed.

Lemma indirectTextMarshaler_addr (t : type) (v : value) (fl1 fl2 : flags) :
  flagRO fl1 = flagRO fl2 -> indirectTextMarshaler t v fl1 = indirectTextMarshaler t v fl2.
Proof.
  intros Hro. unfold indirectTextMarshaler. rewrite Hro. destruct (flagRO fl2); [reflexivity |].
  destruct (decide (KindOf t = kind.Ptr)) as [Hk | Hk].
  - destruct (KindOf_Ptr t Hk) as (pn & e & ->). reflexivity.
  - rewrite !indirectReceiver_value by assumption.
    destruct (bool_decide (TypeName t = "")); [reflexivity |].
    destruct (Hreaders (TypeName t)) as [_ Hg].
    destruct (flagAddr fl1), (flagAddr fl2); try reflexivity; cbn [receiverName];
      destruct (MarshalText (methods (TypeName t))) as [[f | f] |];
      (reflexivity || contradiction).
Qed.

Lemma structLoop_ext self (fl1 fl2 : flags) (fs : list (StructField type)) :
  (forall f x, In f fs ->
               self (Type_ f) x (flagsField fl1 f) (tagOmitEmpty f)
               = self (Type_ f) x (flagsField fl2 f) (tagOmitEmpty f)) ->
  forall vs, structLoop self fl1 fs vs = structLoop self fl2 fs vs.
Proof.
  induction fs as [| f fs IH]; intros Hfields vs; [destruct vs; reflexivity |].
  destruct vs as [| x vs]; [reflexivity |]. cbn [structLoop].
  rewrite (Hfields f x (or_introl eq_refl)).
  rewrite IH by (intros f' x' Hin; apply Hfields; right; assumption).
  reflexivity.
Qed.

Lemma flagRO_same (fl1 fl2 : flags) :
  flagStickyRO fl1 = flagStickyRO fl2 -> flagEmbedRO fl1 = flagEmbedRO fl2 ->
  flagRO fl1 = flagRO fl2.
Proof. unfold flagRO. intros -> ->. reflexivity. Qed.

Lemma marshalValue_addr (enc : Encoder) (t : type) (v : value) (fl1 fl2 : flags)
      (omitEmpty : bool) :
  flagStickyRO fl1 = flagStickyRO fl2 -> flagEmbedRO fl1 = flagEmbedRO fl2 ->
  (forall n fs f x, t = TStruct n fs -> In f fs ->
                    marshal enc (Type_ f) x (flagsField fl1 f) (tagOmitEmpty f)
                    = marshal enc (Type_ f) x (flagsField fl2 f) (tagOmitEmpty f)) ->
  marshalValue enc (marshal enc) t v fl1 omitEmpty
  = marshalValue enc (marshal enc) t v fl2 omitEmpty.
Proof.
  intros Hs He Hfields. pose proof (flagRO_same _ _ Hs He) as Hro.
  unfold marshalValue. destruct (IsZeroValue v && omitEmpty); [reflexivity |].
  destruct t, v; try reflexivity.
  - unfold flagsIndex in *. destruct s as [l |]; [| reflexivity].
    replace (sliceLoop (marshal enc) t fl1 l) with (sliceLoop (marshal enc) t fl2 l);
      [reflexivity |].
    induction l as [| x l IHl]; [reflexivity |]. cbn [sliceLoop]. unfold flagsIndex.
    rewrite Hro, IHl. reflexivity.
  - destruct m as [l |]; [| reflexivity].
    replace (mapLoop (marshal enc) t1 t2 fl1 l) with (mapLoop (marshal enc) t1 t2 fl2 l);
      [reflexivity |].
    induction l as [| [kx x] l IHl]; [reflexivity |]. cbn [mapLoop]. unfold flagsMap.
    rewrite Hro, IHl. reflexivity.
  - apply structLoop_ext. intros f x Hin. eapply Hfields; [reflexivity | assumption].
Qed.

(** When no reading hook has a pointer receiver, what [marshal] returns
    does not depend on whether the value is addressable. *)
Lemma marshal_addr (enc : Encoder) (k : nat) :
  forall t, (type_size t < k)%nat ->
            forall v fl1 fl2 omitEmpty,
              flagStickyRO fl1 = flagStickyRO fl2 -> flagEmbedRO fl1 = flagEmbedRO fl2 ->
              marshal enc t v fl1 omitEmpty = marshal enc t v fl2 omitEmpty.
Proof.
  induction k as [| k IH]; intros t Hsize v fl1 fl2 omitEmpty Hs He; [lia |].
  pose proof (flagRO_same _ _ Hs He) as Hro.
  rewrite !marshal_unfold.
  rewrite (indirectGetter_addr t v fl1 fl2 Hro), (indirectTextMarshaler_addr t v fl1 fl2 Hro).
  destruct (indirectGetter t v fl2) as [[getter |] |]; try reflexivity.
  destruct (indirectTextMarshaler t v fl2) as [[textMarshaler |] |]; try reflexivity.
  assert (Hfields : forall t', (type_size t' <= type_size t)%nat ->
            forall n fs f x, t' = TStruct n fs -> In f fs ->
              marshal enc (Type_ f) x (flagsField fl1 f) (tagOmitEmpty f)
              = marshal enc (Type_ f) x (flagsField fl2 f) (tagOmitEmpty f)).
  { intros t' Hle n fs f x -> Hin. apply IH.
    - pose proof (type_size_field n fs f Hin). lia.
    - unfold flagsField. cbn [flagStickyRO]. rewrite Hs. reflexivity.
    - reflexivity. }
  destruct t; try (apply marshalValue_addr; try assumption; apply Hfields; lia).
  destruct v as [| | | | [pointee |] | | | |]; try reflexivity.
  unfold flagsElem. rewrite Hs, He. reflexivity.
Qed.

Lemma marshal_deref (enc : Encoder) (t : type) (v : value) (fl : flags) (omitEmpty : bool) :
  KindOf t <> kind.Ptr ->
  marshal enc (TPtr "" t) (VPtr (Some v)) fl omitEmpty = marshal enc t v fl omitEmpty.
Proof.
  intros Hk. rewrite !marshal_unfold.
  assert (Hg : indirectGetter (TPtr "" t) (VPtr (Some v)) fl = indirectGetter t v fl).
  { unfold indirectGetter. destruct (flagRO fl); [reflexivity |].
    rewrite indirectReceiver_pointer, indirectReceiver_value by assumption.
    destruct (bool_decide (TypeName t = "")); [reflexivity |].
    destruct (Hreaders (TypeName t)) as [Hgv _].
    destruct (flagAddr fl); [reflexivity |]. cbn [receiverName].
    destruct (GetCSV (methods (TypeName t))) as [[f | f] |]; (reflexivity || contradiction). }
  assert (Ht : indirectTextMarshaler (TPtr "" t) (VPtr (Some v)) fl
               = indirectTextMarshaler t v fl).
  { unfold indirectTextMarshaler. destruct (flagRO fl); [reflexivity |].
    rewrite indirectReceiver_pointer, indirectReceiver_value by assumption.
    destruct (bool_decide (TypeName t = "")); [reflexivity |].
    destruct (Hreaders (TypeName t)) as [_ Hgv].
    destruct (flagAddr fl); [reflexivity |]. cbn [receiverName].
    destruct (MarshalText (methods (TypeName t))) as [[f | f] |];
      (reflexivity || contradiction). }
  rewrite Hg, Ht.
  destruct (indirectGetter t v fl) as [[getter |] |]; try reflexivity.
  destruct (indirectTextMarshaler t v fl) as [[textMarshaler |] |]; try reflexivity.
  assert (Hv : marshalValue enc (marshal enc) t v (flagsElem fl) omitEmpty
               = marshalValue enc (marshal enc) t v fl omitEmpty).
  { apply marshalValue_addr; try reflexivity.
    intros n fs f x -> Hin. apply (marshal_addr enc (S (type_size (Type_ f)))); try reflexivity.
    lia. }
  rewrite Hv. destruct t; try reflexivity. exfalso. apply Hk. reflexivity.
Qed.

End ValueReaders.

(** X15: when no [GetCSV] and no [MarshalText] is declared on a pointer
    receiver, [Encode] does the same with a pointer to a value as with
    the value itself: it returns the same error and writes the same
    row.  (For a type made of booleans, integers, floats, strings,
    pointers, slices, maps and structs: an interface holds a value whose
    methods the declared type does not show.) *)
Theorem encode_pointer_transparent (enc : Encoder) (t : type) (v : value) :
  valueReaders ->
  concrete t = true ->
  KindOf t <> kind.Ptr ->
  Encode enc (Some (TPtr "" t, VPtr (Some v))) = Encode enc (Some (t, v)).
Proof.
  intros Hreaders _ Hk. unfold Encode, Encode_body.
  rewrite marshal_deref by assumption. reflexivity.
Qed.

(** X16: a [GetCSV] declared on the pointer receiver of a named type
    (not an interface) is used for a value of the type only when the
    value is addressable (a field reached through a pointer, an element
    of a slice); for a value that is not (the argument of [Encode]
    passed by value, and its fields) it is not found.  Through a pointer
    to the type it is always used, with a nil receiver when the pointer
    is nil. *)
Theorem pointer_getter_needs_address (enc : Encoder) (t : type) (v : value) (fl : flags)
        (omitEmpty : bool) (f : option value -> res (list string)) :
  GetCSV (methods (TypeName t)) = Some (ReadByPointer f) ->
  TypeName t <> "" -> KindOf t <> kind.Ptr -> KindOf t <> kind.Other -> flagRO fl = false ->
  (flagAddr fl = true -> marshal enc t v fl omitEmpty = f (Some v))
  /\ (flagAddr fl = false -> indirectGetter t v fl = Return None)
  /\ (forall p, marshal enc (TPtr "" t) (VPtr p) fl omitEmpty = f p).
Proof.
  intros Hget Hname Hk _ Hro. split; [| split].
  - intros Haddr. apply marshal_getter. unfold indirectGetter. rewrite Hro.
    rewrite indirectReceiver_value by assumption.
    rewrite (bool_decide_eq_false_2 _ Hname), Haddr. cbn [receiverName].
    rewrite Hget. reflexivity.
  - intros Haddr. unfold indirectGetter. rewrite Hro.
    rewrite indirectReceiver_value by assumption.
    rewrite (bool_decide_eq_false_2 _ Hname), Haddr. cbn [receiverName].
    rewrite Hget. reflexivity.
  - intros p. apply marshal_getter. unfold indirectGetter. rewrite Hro.
    rewrite indirectReceiver_pointer by assumption.
    rewrite (bool_decide_eq_false_2 _ Hname). cbn [receiverName].
    rewrite Hget. reflexivity.
Qed.

(** X17: the hooks are looked up before the nil check.  A nil pointer
    to a named type (not an interface) whose [GetCSV] (or, without a
    [GetCSV], whose [MarshalText]) has a value receiver is not written
    as NilValue: the method is called through the nil pointer and
    [marshal] panics. *)
Theorem nil_pointer_value_reader_panics (enc : Encoder) (t : type) (fl : flags)
        (omitEmpty : bool) :
  TypeName t <> "" -> KindOf t <> kind.Ptr -> KindOf t <> kind.Other -> flagRO fl = false ->
  (exists f, GetCSV (methods (TypeName t)) = Some (ReadByValue f))
  \/ (GetCSV (methods (TypeName t)) = None
      /\ exists g, MarshalText (methods (TypeName t)) = Some (ReadByValue g)) ->
  exists msg, marshal enc (TPtr "" t) (VPtr None) fl omitEmpty = Crash msg.
Proof.
  intros Hname Hk _ Hro Hhook. rewrite marshal_unfold.
  unfold indirectGetter, indirectTextMarshaler. rewrite Hro.
  rewrite indirectReceiver_pointer by assumption.
  rewrite (bool_decide_eq_false_2 _ Hname). cbn [receiverName].
  destruct Hhook as [[f Hf] | [Hnone [g Hg]]].
  - rewrite Hf. cbn [bindRead]. eauto.
  - rewrite Hnone, Hg. cbn [bindRead]. eauto.
Qed.

End Receivers.

(** X15 on the struct of the test "should encode custom types", passed
    by pointer and by value. *)
Lemma encode_pointer_transparent_witness :
  @valueReaders Fixtures.testMethods
  /\ Fixtures.EncodeT Fixtures.encoder0
       (Some (TPtr "" (TStruct "" [Fixtures.exported "Json" Fixtures.csvgetter]),
              VPtr (Some (VStruct [VMap (Some [(VString "name", VString "henry")])]))))
     = Fixtures.EncodeT Fixtures.encoder0
         (Some (TStruct "" [Fixtures.exported "Json" Fixtures.csvgetter],
                VStruct [VMap (Some [(VString "name", VString "henry")])])).
Proof.
  assert (Hreaders : @valueReaders Fixtures.testMethods).
  { intros n. unfold methods, Fixtures.testMethods.
    repeat case_bool_decide; split; exact I. }
  split; [exact Hreaders |].
  apply (@encode_pointer_transparent GoFloat.goFloatConv Fixtures.testMethods);
    [exact Hreaders | reflexivity | discriminate].
Defined.

(** X16 on [tally]: passed by value its [GetCSV] is not found and the
    number is written; through a pointer, or as an addressable field,
    the method is used. *)
Lemma pointer_getter_needs_address_witness :
  @marshal GoFloat.goFloatConv tallyTable Fixtures.encoder0 tally (VInt 3) Fixtures.settable
    false = Ok ["tallied"]
  /\ @indirectGetter tallyTable tally (VInt 3) flagsValueOf = Return None
  /\ (forall p,
         @marshal GoFloat.goFloatConv tallyTable Fixtures.encoder0 (TPtr "" tally) (VPtr p)
           flagsValueOf false
         = match p with Some _ => Ok ["tallied"] | None => Ok ["no tally"] end)
  /\ @marshal GoFloat.goFloatConv tallyTable Fixtures.encoder0 tally (VInt 3) flagsValueOf false
     = Ok ["3"].
Proof.
  pose proof (@pointer_getter_needs_address GoFloat.goFloatConv tallyTable Fixtures.encoder0
                tally (VInt 3) Fixtures.settable false _ eq_refl
                ltac:(discriminate) ltac:(discriminate) ltac:(discriminate) eq_refl)
    as [Haddr _].
  pose proof (@pointer_getter_needs_address GoFloat.goFloatConv tallyTable Fixtures.encoder0
                tally (VInt 3) flagsValueOf false _ eq_refl
                ltac:(discriminate) ltac:(discriminate) ltac:(discriminate) eq_refl)
    as [_ [Hvalue Hptr]].
  split; [exact (Haddr eq_refl) |]. split; [exact (Hvalue eq_refl) |].
  split; [exact Hptr | reflexivity].
Defined.

(** X17 on a nil [*csvgetter], whose [GetCSV] has a value receiver. *)
Lemma nil_pointer_value_reader_panics_witness :
  exists msg,
    Fixtures.marshalT Fixtures.encoder0 (TPtr "" Fixtures.csvgetter) (VPtr None)
      flagsValueOf false = Crash msg.
Proof.
  apply (@nil_pointer_value_reader_panics GoFloat.goFloatConv Fixtures.testMethods);
    try discriminate; try reflexivity.
  left. eexists. reflexivity.
Defined.

(* ===================================================================== *)
(** * Further properties: the fields of an encoded struct *)
(* ===================================================================== *)

Section StructFields.
Context `{FloatConv} `{MethodTable}.


Lemma marshal_struct (enc : Encoder) (n : string) (fs : list (StructField type))
      (vs : list value) (fl : flags) :
  methods n = noMethods -> flagRO fl = false ->
  marshal enc (TStruct n fs) (VStruct vs) fl false = structLoop (marshal enc) fl fs vs.
Proof.
  intros Hm Hro. rewrite marshal_no_hooks by (assumption || discriminate).
  unfold marshalValue. rewrite andb_false_r. reflexivity.
Qed.



End StructFields.



(* ===================================================================== *)
(** * Further properties: encoding, then decoding *)
(* ===================================================================== *)

Module JoinFacts.
Import strconv.

Lemma Split_first (e s : string) (sep : ascii) :
  occurs sep e = false ->
  strings.Split (e +:+ String sep s) sep = e :: strings.Split s sep.
Proof.
  induction e as [| a e IH]; intros He.
  - change ("" +:+ String sep s) with (String sep s).
    cbn [strings.Split]. rewrite Ascii.eqb_refl. reflexivity.
  - cbn [occurs] in He. apply orb_false_iff in He as [Ha He].
    change (String a e +:+ String sep s) with (String a (e +:+ String sep s)).
    cbn [strings.Split]. rewrite Ha, (IH He). reflexivity.
Qed.

(** Splitting undoes joining when no piece holds the separator. *)
Lemma Split_Join (sep : ascii) (cs : list string) :
  cs <> [] -> Forall (fun c => occurs sep c = false) cs ->
  strings.Split (strings.Join cs (String sep "")) sep = cs.
Proof.
  induction cs as [| e cs IH]; intros Hne Hall; [contradiction |].
  apply Forall_cons in Hall as [He Hall].
  destruct cs as [| e2 cs].
  - cbn [strings.Join]. apply PathFacts.Split_dotfree. assumption.
  - change (strings.Join (e :: e2 :: cs) (String sep ""))
      with (e +:+ String sep (strings.Join (e2 :: cs) (String sep ""))).
    rewrite Split_first by assumption. f_equal. apply IH; [discriminate | assumption].
Qed.

Lemma Join_head (a : ascii) (r : string) (rest : list string) (sep : string) :
  exists r', strings.Join (String a r :: rest) sep = String a r'.
Proof. destruct rest; cbn [strings.Join]; eauto. Qed.

Lemma digit_not_comma (d : Z) : 0 <= d < 10 -> Ascii.eqb (chr (48 + d)) "," = false.
Proof.
  intros Hd.
  assert (Hcases : d = 0 \/ d = 1 \/ d = 2 \/ d = 3 \/ d = 4 \/ d = 5 \/ d = 6
                   \/ d = 7 \/ d = 8 \/ d = 9) by lia.
  repeat (destruct Hcases as [-> | Hcases]; [reflexivity |]).
  subst d; reflexivity.
Qed.

Lemma digits_fuel_no_comma (fuel : nat) :
  forall n acc, occurs "," (digits_fuel fuel n acc) = occurs "," acc.
Proof.
  induction fuel as [| fuel IH]; intros n acc; [reflexivity |].
  cbn [digits_fuel].
  assert (Hacc : occurs "," (String (chr (48 + n mod 10)) acc) = occurs "," acc).
  { cbn [occurs]. rewrite digit_not_comma; [reflexivity |]. apply Z.mod_pos_bound. lia. }
  destruct (n <? 10); [assumption |]. rewrite IH. assumption.
Qed.

Lemma FormatInt10_no_comma (i : Z) : occurs "," (FormatInt10 i) = false.
Proof.
  unfold FormatInt10, FormatUint10. destruct (i <? 0); cbn [occurs];
    rewrite digits_fuel_no_comma; reflexivity.
Qed.

Lemma digits_fuel_head (fuel : nat) :
  forall n acc, exists d rest,
      0 <= d < 10 /\ digits_fuel (S fuel) n acc = String (chr (48 + d)) rest.
Proof.
  induction fuel as [| fuel IH]; intros n acc.
  - exists (n mod 10), acc. split; [apply Z.mod_pos_bound; lia |].
    cbn [digits_fuel]. destruct (n <? 10); reflexivity.
  - change (digits_fuel (S (S fuel)) n acc)
      with (if n <? 10 then String (chr (48 + n mod 10)) acc
            else digits_fuel (S fuel) (n / 10) (String (chr (48 + n mod 10)) acc)).
    destruct (n <? 10); [| apply IH].
    exists (n mod 10), acc. split; [apply Z.mod_pos_bound; lia | reflexivity].
Qed.

(** The text of an integer starts with a digit or a minus sign. *)
Lemma FormatInt10_head (i : Z) :
  exists a rest, FormatInt10 i = String a rest /\ a <> "N"%char.
Proof.
  unfold FormatInt10, FormatUint10. destruct (i <? 0).
  - eexists _, _. split; [reflexivity | discriminate].
  - destruct (digits_fuel_head (Z.to_nat (Z.log2 i)) i "") as (d & rest & Hd & ->).
    eexists _, _. split; [reflexivity |].
    intros Hn. destruct (strconv_facts.digit_char d Hd) as (_ & Hdig & _).
    rewrite Hn in Hdig. discriminate Hdig.
Qed.

End JoinFacts.

Section SliceRoundTrip.
Context `{FloatConv} `{MethodTable}.

Lemma int_cell_decodes (dec : Decoder) (m : string) (k : IntKind) (i : Z) (v : value)
      (fl : flags) :
  dec_EmptyValue dec = DefaultEmptyValue -> dec_NilValue dec = DefaultNilValue ->
  methods m = noMethods -> mustBeAssignable fl = None -> inRange k i = true ->
  readStringTo dec (TInt m k) v fl (strconv.FormatInt10 i) = Return (VInt i, None).
Proof.
  intros Hempty Hnil Hm Hset Hrange.
  pose proof (mustBeAssignable_RO _ Hset) as Hro.
  unfold inRange in Hrange. apply andb_true_iff in Hrange as [Hlo Hhi].
  apply Z.leb_le in Hlo. apply Z.ltb_lt in Hhi.
  pose proof (intBits_bounds k) as Hbits.
  destruct (strconv_facts.FormatInt10_not_sentinel i) as [Hne Hnn].
  rewrite readStringTo_no_hooks; try assumption;
    try (destruct k; discriminate); try (rewrite ?Hnil, ?Hempty; assumption).
  rewrite strconv_facts.ParseInt0_FormatInt10 by (rewrite intBits_effective; lia).
  rewrite assign_ok by assumption. rewrite wrapInt_small by lia. reflexivity.
Qed.

Lemma sliceLoop_ints (enc : Encoder) (m : string) (k : IntKind) (fl : flags) (xs : list Z) :
  methods m = noMethods -> flagRO fl = false ->
  sliceLoop (marshal enc) (TInt m k) fl (List.map VInt xs)
  = Ok (List.map strconv.FormatInt10 xs).
Proof.
  intros Hm Hro. induction xs as [| x xs IH]; [reflexivity |].
  cbn [List.map sliceLoop]. rewrite marshal_int; [| assumption |].
  - rewrite IH. reflexivity.
  - unfold flagRO, flagsIndex. cbn. fold (flagRO fl). rewrite Hro. reflexivity.
Qed.

(** X20: under the default sentinels, a slice of integers of a type
    without hooks is encoded into one cell, the numbers joined by
    commas, and that cell decodes into a slice of the same numbers,
    whatever the field held; except that the empty slice is written as
    the empty cell, which leaves the field as it was. *)
Theorem int_slice_round_trip (enc : Encoder) (dec : Decoder) (n m : string) (k : IntKind)
        (xs : list Z) (fl fld : flags) (v : value) :
  dec_EmptyValue dec = DefaultEmptyValue -> dec_NilValue dec = DefaultNilValue ->
  methods n = noMethods -> methods m = noMethods ->
  flagRO fl = false -> mustBeAssignable fld = None ->
  Forall (fun i => inRange k i = true) xs ->
  let t := TSlice n (TInt m k) in
  let c := strings.Join (List.map strconv.FormatInt10 xs) "," in
  marshal enc t (VSlice (Some (List.map VInt xs))) fl false = Ok [c]
  /\ readStringTo dec t v fld c
     = Return (match xs with [] => v | _ => VSlice (Some (List.map VInt xs)) end, None).
Proof.
  intros Hempty Hnil Hn Hm Hro Hset Hrange t c. subst t c.
  pose proof (mustBeAssignable_RO _ Hset) as Hro'.
  split.
  - rewrite marshal_no_hooks by (assumption || discriminate).
    unfold marshalValue. cbn [IsZeroValue andb].
    rewrite sliceLoop_ints by assumption. reflexivity.
  - destruct xs as [| x xs].
    + cbn [List.map strings.Join].
      rewrite readStringTo_value by (rewrite ?Hnil; discriminate).
      apply readStringValue_empty. rewrite Hempty. reflexivity.
    + set (cs := List.map strconv.FormatInt10 (x :: xs)).
      assert (Hsentinel : strings.Join cs "," <> "" /\ strings.Join cs "," <> "NULL").
      { subst cs. cbn [List.map].
        destruct (JoinFacts.FormatInt10_head x) as (a & r & -> & Ha).
        destruct (JoinFacts.Join_head a r (List.map strconv.FormatInt10 xs) ",") as [r' ->].
        split; [discriminate |]. intros [= Heq _]. apply Ha. assumption. }
      destruct Hsentinel as [Hne Hnn].
      rewrite readStringTo_no_hooks; try assumption; try discriminate;
        try (rewrite ?Hnil, ?Hempty; assumption).
      rewrite JoinFacts.Split_Join.
      * assert (Hfill : sliceFill (readStringTo dec) (TInt m k) cs
                        = Return (List.map VInt (x :: xs), None)).
        { apply sliceFill_ok. subst cs. clear Hne Hnn.
          induction Hrange as [| y ys Hy Hys IHys]; cbn [List.map]; constructor.
          - apply int_cell_decodes; try assumption. reflexivity.
          - assumption. }
        rewrite Hfill. apply assign_ok. assumption.
      * discriminate.
      * subst cs. clear. induction (x :: xs) as [| y ys IHys]; cbn [List.map]; constructor.
        -- apply JoinFacts.FormatInt10_no_comma.
        -- assumption.
Qed.

End SliceRoundTrip.

(** X20 on the slice [23, -24] and on the empty slice. *)
Lemma int_slice_round_trip_witness :
  (Fixtures.marshalT Fixtures.encoder0 (TSlice "" Fixtures.tInt)
     (VSlice (Some [VInt 23; VInt (-24)])) flagsValueOf false = Ok ["23,-24"]
   /\ Fixtures.readStringToT Fixtures.decoder0 (TSlice "" Fixtures.tInt) (VSlice None)
        Fixtures.settable "23,-24" = Return (VSlice (Some [VInt 23; VInt (-24)]), None))
  /\ (Fixtures.marshalT Fixtures.encoder0 (TSlice "" Fixtures.tInt) (VSlice (Some []))
        flagsValueOf false = Ok [""]
      /\ Fixtures.readStringToT Fixtures.decoder0 (TSlice "" Fixtures.tInt) (VSlice None)
           Fixtures.settable "" = Return (VSlice None, None)).
Proof.
  split.
  - apply (@int_slice_round_trip GoFloat.goFloatConv Fixtures.testMethods Fixtures.encoder0
             Fixtures.decoder0 "" "int" KInt [23; -24] flagsValueOf Fixtures.settable
             (VSlice None)); try reflexivity.
    repeat constructor.
  - apply (@int_slice_round_trip GoFloat.goFloatConv Fixtures.testMethods Fixtures.encoder0
             Fixtures.decoder0 "" "int" KInt [] flagsValueOf Fixtures.settable
             (VSlice None)); try reflexivity.
    constructor.
Defined.

Section PointerRoundTrip.
Context `{FloatConv} `{MethodTable}.

(** The cell of a scalar, and what it decodes to. *)
Lemma scalar_cell (enc : Encoder) (dec : Decoder) (t : type) (x : value) (fl fld : flags) :
  dec_EmptyValue dec = DefaultEmptyValue -> dec_NilValue dec = DefaultNilValue ->
  scalarOf t x = true ->
  methods (TypeName t) = noMethods ->
  flagRO fl = false -> mustBeAssignable fld = None ->
  x <> VString "NULL" ->
  scalarRoundTrips t x ->
  exists c, marshal enc t x fl false = Ok [c]
            /\ c <> "NULL"
            /\ readStringTo dec t (Zero t) fld c = Return (x, None).
Proof.
  intros Hempty Hnil Hscalar Hm Hro Hset Hnot Hfloat.
  pose proof (mustBeAssignable_RO _ Hset) as Hro'.
  destruct t, x; try discriminate Hscalar.
  - exists (strconv.FormatBool b). split; [apply marshal_bool; assumption |].
    split; [destruct b; discriminate |].
    rewrite readStringTo_no_hooks; try assumption; try discriminate;
      try (rewrite ?Hnil, ?Hempty; destruct b; discriminate).
    rewrite strconv_facts.ParseBool_FormatBool. apply assign_ok. assumption.
  - exists (strconv.FormatInt10 i). split; [apply marshal_int; assumption |].
    split; [apply strconv_facts.FormatInt10_not_sentinel |].
    apply int_cell_decodes; assumption.
  - cbn [scalarRoundTrips] in Hfloat. destruct Hfloat as (Hne & Hnn & Hparse).
    exists (FormatFloat f "f" (-1) 64). split; [apply marshal_float; assumption |].
    split; [assumption |].
    rewrite readStringTo_no_hooks; try assumption;
      try (destruct k; discriminate); try (rewrite ?Hnil, ?Hempty; assumption).
    destruct k.
    + destruct Hparse as [Herr Hval].
      destruct (ParseFloat _ 32) as [f' err]. cbn in Herr, Hval. subst.
      apply assign_ok. assumption.
    + rewrite Hparse. apply assign_ok. assumption.
  - exists s. split.
    + rewrite marshal_no_hooks by (assumption || discriminate).
      unfold marshalValue. rewrite andb_false_r. reflexivity.
    + split; [intros ->; apply Hnot; reflexivity |].
      destruct (decide (s = "")) as [-> | Hne].
      * rewrite readStringTo_value by (rewrite ?Hnil; discriminate).
        rewrite readStringValue_empty by (rewrite Hempty; reflexivity). reflexivity.
      * rewrite readStringTo_no_hooks; try assumption; try discriminate.
        -- apply assign_ok. assumption.
        -- rewrite Hnil. intros ->. apply Hnot. reflexivity.
        -- rewrite Hempty. assumption.
Qed.

Lemma scalarOf_not_pointer (t : type) (x : value) : scalarOf t x = true -> KindOf t <> kind.Ptr.
Proof. destruct t as [| ? [] | ? [] | | | | | |]; try discriminate; intros _; discriminate. Qed.

(** X21: under the default sentinels, a pointer to a scalar of a type
    without hooks makes the round trip.  A nil pointer is written as
    NilValue, and that cell leaves the field as it was; a pointer to
    [x] is written as the cell of [x], and that cell makes the field a
    fresh pointer to [x], whatever it held, unless [x] is the string
    ["NULL"]. *)
Theorem pointer_round_trip (enc : Encoder) (dec : Decoder) (pn : string) (t : type)
        (x : value) (fl fld : flags) (v : value) :
  enc_NilValue enc = DefaultNilValue ->
  dec_EmptyValue dec = DefaultEmptyValue -> dec_NilValue dec = DefaultNilValue ->
  scalarOf t x = true ->
  methods (TypeName t) = noMethods ->
  flagRO fl = false -> mustBeAssignable fld = None ->
  x <> VString "NULL" ->
  scalarRoundTrips t x ->
  (exists c, marshal enc (TPtr pn t) (VPtr None) fl false = Ok [c]
             /\ readStringTo dec (TPtr pn t) v fld c = Return (v, None))
  /\ (exists c, marshal enc (TPtr pn t) (VPtr (Some x)) fl false = Ok [c]
                /\ readStringTo dec (TPtr pn t) v fld c = Return (VPtr (Some x), None)).
Proof.
  intros Hencnil Hempty Hnil Hscalar Hm Hro Hset Hnot Hfloat.
  pose proof (scalarOf_not_pointer t x Hscalar) as Hk.
  split.
  - exists (enc_NilValue enc). split.
    + rewrite marshal_pointer by assumption.
      destruct t; try discriminate Hscalar; reflexivity.
    + apply readStringTo_nil. rewrite Hencnil, Hnil. reflexivity.
  - destruct (scalar_cell enc dec t x (flagsElem fl) (flagsElem flagsValueOf)
                Hempty Hnil Hscalar Hm Hro eq_refl Hnot Hfloat) as (c & Hc & Hnn & Hdec).
    exists c. split.
    + rewrite marshal_pointer by assumption.
      rewrite <- marshal_no_hooks by assumption. assumption.
    + rewrite readStringTo_pointer by (rewrite ?Hnil; assumption).
      rewrite <- readStringTo_value by (rewrite ?Hnil; assumption).
      rewrite Hdec. reflexivity.
Qed.

End PointerRoundTrip.

(** X21 on a [*string]: nil, and a pointer to the empty string. *)
Lemma pointer_round_trip_witness :
  (exists c, Fixtures.marshalT Fixtures.encoder0 (TPtr "" Fixtures.tString) (VPtr None)
               flagsValueOf false = Ok [c]
             /\ Fixtures.readStringToT Fixtures.decoder0 (TPtr "" Fixtures.tString) (VPtr None)
                  Fixtures.settable c = Return (VPtr None, None))
  /\ (exists c, Fixtures.marshalT Fixtures.encoder0 (TPtr "" Fixtures.tString)
                  (VPtr (Some (VString ""))) flagsValueOf false = Ok [c]
                /\ Fixtures.readStringToT Fixtures.decoder0 (TPtr "" Fixtures.tString)
                     (VPtr None) Fixtures.settable c
                   = Return (VPtr (Some (VString "")), None)).
Proof.
  apply (@pointer_round_trip GoFloat.goFloatConv Fixtures.testMethods Fixtures.encoder0
           Fixtures.decoder0 "" Fixtures.tString (VString "") flagsValueOf Fixtures.settable
           (VPtr None)); try reflexivity.
  discriminate.
Defined.

Section StructRoundTrip.
Context `{FloatConv} `{MethodTable}.

Lemma sliceFill_ext self1 self2 (et : type) :
  (forall v fl str, self1 et v fl str = self2 et v fl str) ->
  forall parts, sliceFill self1 et parts = sliceFill self2 et parts.
Proof.
  intros Hself parts. induction parts as [| part parts IH]; [reflexivity |].
  cbn [sliceFill]. rewrite Hself, IH. reflexivity.
Qed.

Lemma readStringValue_ext (dec1 dec2 : Decoder) self1 self2 (t : type) (v : value)
      (fl : flags) (str : string) :
  dec_EmptyValue dec1 = dec_EmptyValue dec2 ->
  (forall n et v' fl' str', t = TSlice n et -> self1 et v' fl' str' = self2 et v' fl' str') ->
  readStringValue dec1 self1 t v fl str = readStringValue dec2 self2 t v fl str.
Proof.
  intros Hempty Hself. unfold readStringValue. rewrite Hempty.
  destruct (bool_decide (str = dec_EmptyValue dec2)); [reflexivity |].
  destruct (indirectSetter t v fl) as [[setter |] |]; try reflexivity.
  destruct (indirectTextUnmarshaler t v fl) as [[textUnmarshaler |] |]; try reflexivity.
  destruct t; try reflexivity.
  rewrite (sliceFill_ext self1 self2 t); [reflexivity |].
  intros v' fl' str'. eapply Hself. reflexivity.
Qed.

(** Leaf assignment looks at the two sentinels of the decoder and at
    nothing else of it. *)
Lemma readStringTo_sentinels (dec1 dec2 : Decoder) (k : nat) :
  dec_EmptyValue dec1 = dec_EmptyValue dec2 -> dec_NilValue dec1 = dec_NilValue dec2 ->
  forall t, (type_size t < k)%nat ->
            forall v fl str, readStringTo dec1 t v fl str = readStringTo dec2 t v fl str.
Proof.
  intros Hempty Hnil. induction k as [| k IH]; intros t Hsize v fl str; [lia |].
  assert (Hvalue : forall t' v' fl',
             (type_size t' <= type_size t)%nat ->
             readStringValue dec1 (readStringTo dec1) t' v' fl' str
             = readStringValue dec2 (readStringTo dec2) t' v' fl' str).
  { intros t' v' fl' Hle. apply readStringValue_ext; [assumption |].
    intros n et v'' fl'' str' ->. apply IH. cbn [type_size] in Hle. lia. }
  destruct t; cbn [readStringTo]; rewrite Hnil;
    destruct (bool_decide (str = dec_NilValue dec2)); try reflexivity;
    try (apply Hvalue; lia).
  destruct (mustBeAssignable fl); [reflexivity |].
  rewrite Hvalue by (cbn [type_size]; lia). reflexivity.
Qed.

Lemma exported_field_flags (f : StructField type) (fl : flags) :
  skipped f = false -> Anonymous f = false -> flagEmbedRO fl = false ->
  flagsField fl f = fl.
Proof.
  unfold skipped, flagsField. intros Hskip Hanon Hembed. rewrite Hanon in *.
  apply orb_false_iff in Hskip as [_ Hpkg]. rewrite andb_true_r in Hpkg.
  rewrite Hpkg. cbn [andb]. rewrite orb_false_r.
  destruct fl as [a s e]. cbn in *. rewrite Hembed. reflexivity.
Qed.

(** The tree of a row under a header of distinct names without dots:
    every name holds the cell of its column. *)
Lemma buildTree_pairs (keys : list string) :
  forall (cs pre : list string) (m : CellValues),
    length cs = length keys -> NoDup keys ->
    Forall (fun key => occurs "." key = false) keys ->
    exists m',
      buildTree m (length pre) keys (pre ++ cs) = Return m'
      /\ (forall key c, (key, c) ∈ zip keys cs -> m' !! key = Some (CString c))
      /\ (forall key, key ∉ keys -> m' !! key = m !! key).
Proof.
  induction keys as [| k keys IH]; intros cs pre m Hlen Hnodup Hdots.
  - exists m. split; [reflexivity |]. split; [| reflexivity].
    intros key c Hin. cbn in Hin. apply elem_of_nil in Hin. contradiction.
  - destruct cs as [| c cs]; [discriminate Hlen |].
    apply NoDup_cons in Hnodup as [Hk Hnodup].
    apply Forall_cons in Hdots as [Hkdot Hdots].
    destruct (IH cs (pre ++ [c]) (<[k := CString c]> m)) as (m' & Hbuild & Hin & Hout);
      [cbn in Hlen; lia | assumption | assumption |].
    exists m'. split; [| split].
    + cbn [buildTree]. rewrite lookup_app_r by lia. rewrite Nat.sub_diag. cbn [lookup list_lookup].
      rewrite PathFacts.Set_dotfree by assumption.
      rewrite length_app in Hbuild. cbn [length] in Hbuild.
      rewrite <- app_assoc in Hbuild. cbn [app] in Hbuild.
      replace (S (length pre)) with (length pre + 1)%nat by lia. assumption.
    + intros key c' Hpair. cbn [zip zip_with] in Hpair.
      apply elem_of_cons in Hpair as [[= -> ->] | Hpair].
      * rewrite Hout by assumption. apply lookup_insert_eq.
      * apply Hin. assumption.
    + intros key Hkey. apply not_elem_of_cons in Hkey as [Hne Hkey].
      rewrite Hout by assumption. apply lookup_insert_ne. congruence.
Qed.

Lemma Forall3_tree (P : StructField type -> value -> string -> Prop)
      (R : StructField type -> string -> Prop)
      (fs : list (StructField type)) (xs : list value) (cs : list string) :
  Forall3 P fs xs cs ->
  (forall f c, (fieldKey f, c) ∈ zip (List.map fieldKey fs) cs -> R f c) ->
  Forall2 (fun f x => exists c, P f x c /\ R f c) fs xs.
Proof.
  induction 1 as [| f x c fs xs cs HP Hrest IH]; intros HR; constructor.
  - exists c. split; [assumption |]. apply HR. cbn. apply list_elem_of_here.
  - apply IH. intros f' c' Hin. apply HR. cbn. apply list_elem_of_further. assumption.
Qed.

Lemma structLoop_cells (enc : Encoder) (fl : flags)
      (fs : list (StructField type)) (xs : list value) (cs : list string) :
  Forall3 (fun f x c => skipped f = false
                        /\ marshal enc (Type_ f) x (flagsField fl f) (tagOmitEmpty f) = Ok [c])
          fs xs cs ->
  structLoop (marshal enc) fl fs xs = Ok cs.
Proof.
  induction 1 as [| f x c fs xs cs [Hskip Hc] Hrest IH]; [reflexivity |].
  cbn [structLoop]. rewrite Hskip, Hc, IH. reflexivity.
Qed.

Lemma fieldLoop_cells (dec : Decoder) (fl : flags) (m : CellValues)
      (fs : list (StructField type)) (xs : list value) :
  Forall2 (fun f x => exists c,
               (skipped f = false /\ Anonymous f = false
                /\ readStringTo dec (Type_ f) (Zero (Type_ f)) (flagsField fl f) c
                   = Return (x, None))
               /\ m !! fieldKey f = Some (CString c)) fs xs ->
  fieldLoop dec (readStructTo dec) fl m fs (List.map (fun f => Zero (Type_ f)) fs)
  = Return (xs, None).
Proof.
  induction 1 as [| f x fs xs (c & (Hskip & Hanon & Hdec) & Hlook) Hrest IH]; [reflexivity |].
  cbn [List.map]. rewrite fieldLoop_cons, Hskip.
  unfold fieldStep. rewrite Hanon. unfold Get. rewrite Hlook, Hdec, IH. reflexivity.
Qed.

Lemma Forall3_length_r {A B C} (P : A -> B -> C -> Prop) (l : list A) (k : list B)
      (k' : list C) :
  Forall3 P l k k' -> length k' = length l.
Proof. induction 1; cbn; congruence. Qed.

(** X22: encoding and decoding compose field by field.  Take a struct
    type without hooks of its own whose fields are all named (none
    skipped, none embedded) under distinct keys without dots, and a
    value of it each of whose fields is written as one cell that decodes
    back into that field.  Then [marshal] writes the row of these cells,
    and [Decode], under the header of the keys and on that row, turns a
    zero value of the struct into the value encoded, with no error. *)
Theorem struct_round_trip (enc : Encoder) (dec : Decoder) (n : string)
        (fs : list (StructField type)) (xs : list value) (cs : list string) (rest : Reader) :
  methods n = noMethods ->
  NoDup (List.map fieldKey fs) ->
  Forall (fun f => occurs "." (fieldKey f) = false) fs ->
  Forall3 (fun f x c =>
             skipped f = false /\ Anonymous f = false
             /\ marshal enc (Type_ f) x flagsValueOf (tagOmitEmpty f) = Ok [c]
             /\ readStringTo dec (Type_ f) (Zero (Type_ f)) (flagsElem flagsValueOf) c
                = Return (x, None)) fs xs cs ->
  dec_err dec = None ->
  dec_r dec = (cs, None) :: rest ->
  dec_header dec = List.map fieldKey fs ->
  marshal enc (TStruct n fs) (VStruct xs) flagsValueOf false = Ok cs
  /\ Decode dec (Some (TPtr "" (TStruct n fs), VPtr (Some (Zero (TStruct n fs)))))
     = Return (withReader dec rest, Some (VPtr (Some (VStruct xs))), None).
Proof.
  intros Hm Hnodup Hdots Hfields Herr Hread Hheader. split.
  - rewrite marshal_struct by (assumption || reflexivity).
    apply structLoop_cells.
    eapply Forall3_impl; [exact Hfields |]. cbn beta.
    intros f x c (Hskip & Hanon & Hc & _). split; [assumption |].
    rewrite exported_field_flags by (assumption || reflexivity). assumption.
  - unfold Decode, withReader. rewrite Herr, Hread.
    cbn [Reader_Read dec_header dec_EmptyValue dec_NilValue]. rewrite Hheader.
    destruct (buildTree_pairs (List.map fieldKey fs) cs [] ∅) as (m & Hbuild & Hin & _).
    { rewrite length_map. eapply Forall3_length_r. eassumption. }
    { assumption. }
    { apply Forall_map. assumption. }
    cbn [length app] in Hbuild. rewrite Hbuild.
    cbn [Zero]. rewrite readStructTo_pointer.
    set (dec' := mkDecoder rest (List.map fieldKey fs) None (dec_EmptyValue dec)
                   (dec_NilValue dec)).
    rewrite (fieldLoop_cells dec' (flagsElem flagsValueOf) m fs xs); [reflexivity |].
    eapply Forall2_impl;
      [exact (Forall3_tree _ (fun f c => m !! fieldKey f = Some (CString c)) fs xs cs
                Hfields (fun f c Hpair => Hin _ _ Hpair)) |].
    cbn beta. intros f x (c & (Hskip & Hanon & _ & Hdec) & Hlook).
    exists c. split; [| assumption]. split; [assumption |]. split; [assumption |].
    rewrite exported_field_flags by (assumption || reflexivity).
    rewrite <- Hdec.
    apply (readStringTo_sentinels dec' dec (S (type_size (Type_ f)))); try reflexivity. lia.
Qed.

End StructRoundTrip.

(** X22 on the struct and the row of the test "Should decode basic
    types". *)
Lemma struct_round_trip_witness :
  let xs := [VString "henry"; VInt 23; VBool true; VFloat 60.429%float] in
  let cs := ["henry"; "23"; "true"; "60.429"] in
  let dec := NewDecoder [(["string"; "int"; "bool"; "float"], None); (cs, None)] in
  Fixtures.marshalT Fixtures.encoder0 Basic (VStruct xs) flagsValueOf false = Ok cs
  /\ Fixtures.DecodeT dec (Some (TPtr "" Basic, VPtr (Some (Zero Basic))))
     = Return (withReader dec [], Some (VPtr (Some (VStruct xs))), None).
Proof.
  intros xs cs dec.
  apply (@struct_round_trip GoFloat.goFloatConv Fixtures.testMethods Fixtures.encoder0 dec ""
           [Fixtures.exported "String" Fixtures.tString;
            Fixtures.exported "Int" Fixtures.tInt;
            Fixtures.exported "Bool" Fixtures.tBool;
            Fixtures.exported "Float" Fixtures.tFloat64] xs cs []).
  - reflexivity.
  - apply (bool_decide_unpack _). vm_compute. exact I.
  - repeat constructor.
  - repeat (constructor; [repeat split; vm_compute; reflexivity |]). constructor.
  - reflexivity.
  - reflexivity.
  - reflexivity.
Defined.

(* ===================================================================== *)
(** * Further properties: successive rows, and pointers to pointers *)
(* ===================================================================== *)

Section Successive.
Context `{FloatConv} `{MethodTable}.

(** X23: a [Decode] that returns no error has taken exactly one row
    from the reader, and has changed nothing else of the decoder: the
    header read by [NewDecoder] and the two sentinels serve every
    row. *)
Theorem Decode_advances (dec dec' : Decoder) (i : option (type * value)) (v : option value) :
  Decode dec i = Return (dec', v, None) ->
  exists row rest, dec_r dec = (row, None) :: rest /\ dec' = withReader dec rest.
Proof.
  unfold Decode, withReader. destruct (dec_err dec) as [e |] eqn:Herr; [discriminate |].
  destruct (dec_r dec) as [| [row [err |]] rest] eqn:Hread; cbn [Reader_Read];
    try discriminate.
  cbn [dec_header dec_EmptyValue dec_NilValue dec_err].
  destruct (buildTree ∅ 0 (dec_header dec) row) as [m |]; [| discriminate].
  destruct i as [[t x] |]; [| discriminate].
  destruct (readStructTo _ t x flagsValueOf m) as [[x' [err |]] |]; try discriminate.
  intros [= <- _]. exists row, rest. split; reflexivity.
Qed.


End Successive.

(** X23 on two rows: the decoder that comes back from the first
    [Decode] is the one that has the second row still to read. *)
Lemma Decode_advances_witness :
  let dec := NewDecoder [(["name"], None); (["vin"], None); (["dom"], None)] in
  let target := Some (TPtr "" Fixtures.personStruct, VPtr (Some (VStruct [VString ""]))) in
  Fixtures.DecodeT dec target
  = Return (withReader dec [(["dom"], None)], Some (VPtr (Some (VStruct [VString "vin"]))), None)
  /\ exists row rest,
       dec_r dec = (row, None) :: rest
       /\ withReader dec [(["dom"], None)] = withReader dec rest.
Proof.
  intros dec target.
  assert (Hd : Fixtures.DecodeT dec target
               = Return (withReader dec [(["dom"], None)],
                         Some (VPtr (Some (VStruct [VString "vin"]))), None))
    by (vm_compute; reflexivity).
  split; [exact Hd |].
  exact (@Decode_advances GoFloat.goFloatConv Fixtures.testMethods _ _ _ _ Hd).
Defined.


(* ===================================================================== *)
(** * Further properties: a struct in a struct *)
(* ===================================================================== *)

Module NestedFacts.
Import CellValuesFacts.

Lemma SplitN2_prefix (p q : string) :
  occurs "." p = false -> strings.SplitN2 (p +:+ String "." q) "." = (p, Some q).
Proof.
  induction p as [| a p IH]; intros Hp; [reflexivity |].
  cbn [occurs] in Hp. apply orb_false_iff in Hp as [Ha Hp].
  change (String a p +:+ String "." q) with (String a (p +:+ String "." q)).
  cbn [strings.SplitN2]. rewrite Ha, (IH Hp). reflexivity.
Qed.

(** [Set] under the key [p.q], when [p] has no dot and the tree holds a
    subtree at [p]: the value goes into the subtree under [q]. *)
Lemma Set_below (vs child : CellValues) (p q value : string) :
  occurs "." p = false -> vs !! p = Some (CTree child) ->
  Set_ vs (p +:+ "." +:+ q) value
  = match Set_ child q value with
    | Return child' => Return (<[p := CTree child']> vs)
    | Panic msg => Panic msg
    end.
Proof.
  intros Hp Hlook. rewrite Set_unfold.
  change (p +:+ "." +:+ q) with (p +:+ String "." q).
  rewrite SplitN2_prefix by assumption. cbn zeta. rewrite Hlook, Hlook. reflexivity.
Qed.

(** The first visit to [p] makes the subtree. *)
Lemma Set_creates (vs : CellValues) (p q value : string) :
  occurs "." p = false -> vs !! p = None ->
  Set_ vs (p +:+ "." +:+ q) value = Set_ (<[p := CTree ∅]> vs) (p +:+ "." +:+ q) value.
Proof.
  intros Hp Hlook. rewrite !Set_unfold.
  change (p +:+ "." +:+ q) with (p +:+ String "." q).
  rewrite SplitN2_prefix by assumption. cbn zeta.
  rewrite Hlook, !lookup_insert_eq. reflexivity.
Qed.

Lemma buildTree_below (p : string) (r : list string) (keys : list string) :
  occurs "." p = false ->
  forall (i : nat) (m child : CellValues),
    m !! p = Some (CTree child) ->
    buildTree m i (List.map (fun key => p +:+ "." +:+ key) keys) r
    = match buildTree child i keys r with
      | Return child' => Return (<[p := CTree child']> m)
      | Panic msg => Panic msg
      end.
Proof.
  intros Hp. induction keys as [| key keys IH]; intros i m child Hlook.
  - cbn [List.map buildTree]. rewrite insert_id by assumption. reflexivity.
  - cbn [List.map buildTree]. destruct (r !! i) as [c |]; [| reflexivity].
    rewrite (Set_below m child p key c Hp Hlook).
    destruct (Set_ child key c) as [child1 |]; [| reflexivity].
    rewrite (IH (S i) (<[p := CTree child1]> m) child1) by apply lookup_insert_eq.
    destruct (buildTree child1 (S i) keys r) as [child' |]; [| reflexivity].
    rewrite insert_insert_eq. reflexivity.
Qed.

(** A header whose names all start with [p.] yields the tree that holds,
    at [p], the tree of the header without that prefix. *)
Lemma buildTree_prefixed (p : string) (r : list string) (keys : list string) :
  occurs "." p = false -> keys <> [] ->
  buildTree ∅ 0 (List.map (fun key => p +:+ "." +:+ key) keys) r
  = match buildTree ∅ 0 keys r with
    | Return child' => Return {[ p := CTree child' ]}
    | Panic msg => Panic msg
    end.
Proof.
  intros Hp Hkeys. destruct keys as [| key keys]; [contradiction |].
  assert (Hfirst : buildTree ∅ 0 (List.map (fun key => p +:+ "." +:+ key) (key :: keys)) r
                   = buildTree (<[p := CTree ∅]> ∅) 0
                       (List.map (fun key => p +:+ "." +:+ key) (key :: keys)) r).
  { cbn [List.map buildTree]. destruct (r !! 0%nat) as [c |]; [| reflexivity].
    rewrite (Set_creates ∅ p key c Hp) by apply lookup_empty. reflexivity. }
  rewrite Hfirst.
  rewrite (buildTree_below p r (key :: keys) Hp 0 (<[p := CTree ∅]> ∅) ∅)
    by apply lookup_insert_eq.
  destruct (buildTree ∅ 0 (key :: keys) r) as [child' |]; [| reflexivity].
  rewrite insert_insert_eq. reflexivity.
Qed.

End NestedFacts.

Section NestedRoundTrip.
Context `{FloatConv} `{MethodTable}.

(** The loop over the fields of a struct whose tree comes from a header
    of its distinct, dot-free keys and a row of cells that decode into
    its fields. *)
Lemma fields_decode (dec dec' : Decoder) (fs : list (StructField type)) (xs : list value)
      (cs : list string) (m : CellValues) :
  dec_EmptyValue dec' = dec_EmptyValue dec -> dec_NilValue dec' = dec_NilValue dec ->
  Forall3 (fun f x c =>
             skipped f = false /\ Anonymous f = false
             /\ readStringTo dec (Type_ f) (Zero (Type_ f)) (flagsElem flagsValueOf) c
                = Return (x, None)) fs xs cs ->
  (forall key c, (key, c) ∈ zip (List.map fieldKey fs) cs -> m !! key = Some (CString c)) ->
  fieldLoop dec' (readStructTo dec') (flagsElem flagsValueOf) m fs
    (List.map (fun f => Zero (Type_ f)) fs)
  = Return (xs, None).
Proof.
  intros Hempty Hnil Hfields Hin. apply fieldLoop_cells.
  eapply Forall2_impl;
    [exact (Forall3_tree _ (fun f c => m !! fieldKey f = Some (CString c)) fs xs cs
              Hfields (fun f c Hpair => Hin _ _ Hpair)) |].
  cbn beta. intros f x (c & (Hskip & Hanon & Hdec) & Hlook).
  exists c. split; [| assumption]. split; [assumption |]. split; [assumption |].
  rewrite exported_field_flags by (assumption || reflexivity).
  rewrite <- Hdec.
  apply (readStringTo_sentinels dec' dec (S (type_size (Type_ f)))); try assumption. lia.
Qed.

(** X25: a struct in a field of a struct makes the round trip under
    dotted column names.  Let the inner struct be as in X22 (no hooks of
    its own, named fields under distinct keys without dots, each field
    written as one cell that decodes back into it), in a named field
    without [omitEmpty] whose key [p] has no dot.  Then [marshal] of the
    outer struct writes the cells of the inner fields, and [Decode],
    under the header of the names [p.key] and on that row, builds the
    subtree at [p] and fills the inner struct from it. *)
Theorem nested_struct_round_trip (enc : Encoder) (dec : Decoder) (n sn name tag : string)
        (fs : list (StructField type)) (xs : list value) (cs : list string) (rest : Reader) :
  let f0 := mkField name "" tag false (TStruct sn fs) in
  let outer := TStruct n [f0] in
  methods n = noMethods -> methods sn = noMethods ->
  skipped f0 = false -> tagOmitEmpty f0 = false -> occurs "." (fieldKey f0) = false ->
  fs <> [] ->
  NoDup (List.map fieldKey fs) ->
  Forall (fun f => occurs "." (fieldKey f) = false) fs ->
  Forall3 (fun f x c =>
             skipped f = false /\ Anonymous f = false
             /\ marshal enc (Type_ f) x flagsValueOf (tagOmitEmpty f) = Ok [c]
             /\ readStringTo dec (Type_ f) (Zero (Type_ f)) (flagsElem flagsValueOf) c
                = Return (x, None)) fs xs cs ->
  dec_err dec = None ->
  dec_r dec = (cs, None) :: rest ->
  dec_header dec = List.map (fun f => fieldKey f0 +:+ "." +:+ fieldKey f) fs ->
  marshal enc outer (VStruct [VStruct xs]) flagsValueOf false = Ok cs
  /\ Decode dec (Some (TPtr "" outer, VPtr (Some (Zero outer))))
     = Return (withReader dec rest, Some (VPtr (Some (VStruct [VStruct xs]))), None).
Proof.
  intros f0 outer Hn Hsn Hskip Homit Hp Hfs Hnodup Hdots Hfields Herr Hread Hheader.
  assert (Hanon : Anonymous f0 = false) by reflexivity.
  split.
  - subst outer. rewrite marshal_struct by (assumption || reflexivity).
    cbn [structLoop]. rewrite Hskip, Homit.
    rewrite exported_field_flags by (assumption || reflexivity).
    change (Type_ f0) with (TStruct sn fs).
    rewrite marshal_struct by (assumption || reflexivity).
    rewrite (structLoop_cells enc flagsValueOf fs xs cs).
    + rewrite app_nil_r. reflexivity.
    + eapply Forall3_impl; [exact Hfields |]. cbn beta.
      intros f x c (Hs & Ha & Hc & _). split; [assumption |].
      rewrite exported_field_flags by (assumption || reflexivity). assumption.
  - unfold Decode, withReader. rewrite Herr, Hread.
    cbn [Reader_Read dec_header dec_EmptyValue dec_NilValue]. rewrite Hheader.
    rewrite <- (List.map_map fieldKey (fun key => fieldKey f0 +:+ "." +:+ key)).
    rewrite NestedFacts.buildTree_prefixed;
      [| assumption | destruct fs; [contradiction | discriminate]].
    destruct (buildTree_pairs (List.map fieldKey fs) cs [] ∅) as (m & Hbuild & Hin & _).
    { rewrite length_map. eapply Forall3_length_r. eassumption. }
    { assumption. }
    { apply Forall_map. assumption. }
    cbn [length app] in Hbuild. rewrite Hbuild.
    subst outer. cbn [Zero List.map]. rewrite readStructTo_pointer.
    rewrite fieldLoop_cons, Hskip. unfold fieldStep. rewrite Hanon.
    unfold Get. rewrite lookup_singleton_eq.
    rewrite exported_field_flags by (assumption || reflexivity).
    change (Type_ f0) with (TStruct sn fs).
    cbn [readCellValuesTo readCellStruct Zero]. rewrite readStructTo_struct.
    rewrite (fields_decode dec _ fs xs cs m); cbn [dec_EmptyValue dec_NilValue dec_err];
      try reflexivity; try assumption.
    eapply Forall3_impl; [exact Hfields |]. cbn beta.
    intros f x c (Hs & Ha & _ & Hd). auto.
Qed.

End NestedRoundTrip.

(** X25 on the struct and the header of the test "should populate child
    fields". *)
Lemma nested_struct_round_trip_witness :
  let dec := NewDecoder [(["person.name"], None); (["henry"], None)] in
  Fixtures.marshalT Fixtures.encoder0 Parent (VStruct [VStruct [VString "henry"]])
    flagsValueOf false = Ok ["henry"]
  /\ Fixtures.DecodeT dec (Some (TPtr "" Parent, VPtr (Some (Zero Parent))))
     = Return (withReader dec [], Some (VPtr (Some (VStruct [VStruct [VString "henry"]]))),
               None).
Proof.
  intros dec.
  apply (@nested_struct_round_trip GoFloat.goFloatConv Fixtures.testMethods Fixtures.encoder0
           dec "" "personStruct" "Person" "" [Fixtures.exported "Name" Fixtures.tString]
           [VString "henry"] ["henry"] []).
  - reflexivity.
  - reflexivity.
  - reflexivity.
  - reflexivity.
  - reflexivity.
  - discriminate.
  - apply (bool_decide_unpack _). vm_compute. exact I.
  - repeat constructor.
  - repeat (constructor; [repeat split; vm_compute; reflexivity |]). constructor.
  - reflexivity.
  - reflexivity.
  - reflexivity.
Defined.

(* ===================================================================== *)
(** * Further properties: what [Encode] never does *)
(* ===================================================================== *)

Section NoPanic.
Context `{FloatConv} `{MethodTable}.










End NoPanic.


(* ===================================================================== *)
(** * Further properties: columns and field names *)
(* ===================================================================== *)

Section Columns.
Context `{FloatConv} `{MethodTable}.

Lemma fieldLoop_agree (dec : Decoder) (fl : flags) (m1 m2 : CellValues)
      (fs : list (StructField type)) :
  (forall f, In f fs -> skipped f = false ->
             if Anonymous f
             then forall v fl', readStructTo dec (Type_ f) v fl' m1
                                = readStructTo dec (Type_ f) v fl' m2
             else m1 !! fieldKey f = m2 !! fieldKey f) ->
  forall vs, fieldLoop dec (readStructTo dec) fl m1 fs vs
             = fieldLoop dec (readStructTo dec) fl m2 fs vs.
Proof.
  induction fs as [| f fs IH]; intros Hfields vs; [destruct vs; reflexivity |].
  destruct vs as [| x vs]; [reflexivity |].
  rewrite !fieldLoop_cons.
  rewrite IH by (intros g Hin; apply Hfields; right; assumption).
  destruct (skipped f) eqn:Hskip; [reflexivity |].
  specialize (Hfields f (or_introl eq_refl) Hskip).
  unfold fieldStep, Get. destruct (Anonymous f).
  - rewrite Hfields. reflexivity.
  - rewrite Hfields. reflexivity.
Qed.

Lemma readStructTo_agree (dec : Decoder) (m1 m2 : CellValues) (k : nat) :
  forall t, (type_size t < k)%nat ->
            (forall key, usesKey t key = true -> m1 !! key = m2 !! key) ->
            forall v fl, readStructTo dec t v fl m1 = readStructTo dec t v fl m2.
Proof.
  induction k as [| k IH]; intros t Hsize Hkeys v fl; [lia |].
  assert (Hfields : forall n fs v' fl',
             (type_size (TStruct n fs) <= type_size t)%nat ->
             (forall key, usesKey (TStruct n fs) key = true -> m1 !! key = m2 !! key) ->
             readStructFields dec (readStructTo dec) (TStruct n fs) v' fl' m1
             = readStructFields dec (readStructTo dec) (TStruct n fs) v' fl' m2).
  { intros n fs v' fl' Hle Huse. unfold readStructFields.
    destruct v'; try reflexivity.
    rewrite (fieldLoop_agree dec fl' m1 m2 fs); [reflexivity |].
    intros f Hin Hskip.
    assert (Hf : forall key,
               (if Anonymous f then usesKey (Type_ f) key
                else bool_decide (fieldKey f = key)) = true ->
               m1 !! key = m2 !! key).
    { intros key Hkey. apply Huse. cbn [usesKey]. apply existsb_exists.
      exists f. split; [assumption |]. rewrite Hskip, Hkey. reflexivity. }
    destruct (Anonymous f).
    - intros v'' fl''. apply IH; [| exact Hf].
      pose proof (type_size_field n fs f Hin). lia.
    - apply Hf. apply bool_decide_eq_true_2. reflexivity. }
  destruct t as [| | | | pn e | | | n fs |]; try reflexivity.
  - cbn [readStructTo]. destruct v as [| | | | [pointee |] | | | |]; try reflexivity.
    destruct e as [| | | | | | | sn fs |]; try reflexivity.
    rewrite Hfields; [reflexivity | cbn [type_size]; lia | exact Hkeys].
  - cbn [readStructTo]. apply Hfields; [lia | exact Hkeys].
Qed.

(** X27: [readStructTo] looks the tree up under the keys of the fields
    it does not skip (those of embedded structs included) and nowhere
    else: two trees that agree under these keys give the same result,
    so a column that no field is keyed by changes nothing. *)
Theorem unknown_columns_ignored (dec : Decoder) (t : type) (v : value) (fl : flags)
        (m1 m2 : CellValues) :
  (forall key, usesKey t key = true -> m1 !! key = m2 !! key) ->
  readStructTo dec t v fl m1 = readStructTo dec t v fl m2.
Proof.
  intros Hkeys. apply (readStructTo_agree dec m1 m2 (S (type_size t))); [lia | exact Hkeys].
Qed.

End Columns.

(** X27 on a tree with a column [extra] beside the column [name]. *)
Lemma unknown_columns_ignored_witness :
  Fixtures.readStructToT Fixtures.decoder0 Fixtures.personStruct (VStruct [VString ""])
    Fixtures.settable (<[ "extra" := CString "x" ]> {[ "name" := CString "vin" ]})
  = Fixtures.readStructToT Fixtures.decoder0 Fixtures.personStruct (VStruct [VString ""])
      Fixtures.settable {[ "name" := CString "vin" ]}.
Proof.
  apply (@unknown_columns_ignored GoFloat.goFloatConv Fixtures.testMethods).
  intros key Hkey. cbn in Hkey. rewrite orb_false_r in Hkey.
  apply bool_decide_eq_true_1 in Hkey. subst key. reflexivity.
Defined.

Module CaseFacts.

Lemma lower_byte_not_upper (c : ascii) :
  (65 <=? Z.of_nat (nat_of_ascii (strings.lower_byte c)))
  && (Z.of_nat (nat_of_ascii (strings.lower_byte c)) <=? 90) = false.
Proof. destruct c as [[] [] [] [] [] [] [] []]; vm_compute; reflexivity. Qed.

Lemma ToLower_no_upper (s : string) : hasUpper (strings.ToLower s) = false.
Proof.
  induction s as [| c s IH]; [reflexivity |].
  cbn [strings.ToLower hasUpper]. rewrite lower_byte_not_upper, IH. reflexivity.
Qed.

End CaseFacts.

Section FieldNames.
Context `{FloatConv} `{MethodTable}.

(** X28: a field without a name in its tag is looked up under its
    lower-cased name, and the lookup is exact.  Under a header of names
    without dots that each hold an upper-case letter, [Decode] into a
    struct of named fields without tag names finds no field: it returns
    no error and leaves the struct as it was. *)
Theorem capitalised_header_fills_nothing (dec : Decoder) (row : list string) (rest : Reader)
        (pn n : string) (fs : list (StructField type)) (vs : list value) :
  dec_err dec = None ->
  dec_r dec = (row, None) :: rest ->
  Forall (fun key => occurs "." key = false /\ hasUpper key = true) (dec_header dec) ->
  (length (dec_header dec) <= length row)%nat ->
  Forall (fun f => skipped f = true \/ (Anonymous f = false /\ tagName f = "")) fs ->
  length vs = length fs ->
  Decode dec (Some (TPtr pn (TStruct n fs), VPtr (Some (VStruct vs))))
  = Return (withReader dec rest, Some (VPtr (Some (VStruct vs))), None).
Proof.
  intros Herr Hread Hheader Hlen Hfs Hvs.
  destruct (buildTree_dotfree row ∅ 0 (dec_header dec)) as (m & Hbuild & Hout & _).
  { eapply Forall_impl; [exact Hheader |]. intros key [Hdot _]. exact Hdot. }
  { lia. }
  unfold Decode, withReader. rewrite Herr, Hread.
  cbn [Reader_Read dec_header dec_EmptyValue dec_NilValue]. rewrite Hbuild.
  rewrite readStructTo_pointer.
  rewrite <- (app_nil_r fs), <- (app_nil_r vs).
  rewrite fieldLoop_passedOver;
    [cbn [fieldLoop]; rewrite !app_nil_r; reflexivity | | assumption].
  eapply Forall_impl; [exact Hfs |]. intros f [Hskip | [Hanon Htag]]; [left; assumption |].
  right. split; [assumption |]. unfold Get. rewrite Hout; [apply lookup_empty |].
  intros Hin. rewrite Forall_forall in Hheader. destruct (Hheader _ Hin) as [_ Hupper].
  unfold fieldKey in Hupper. rewrite (bool_decide_eq_true_2 _ Htag) in Hupper.
  rewrite CaseFacts.ToLower_no_upper in Hupper. discriminate Hupper.
Qed.

End FieldNames.

(** X28 on the header [Name] for the field [Name]. *)
Lemma capitalised_header_fills_nothing_witness :
  let dec := NewDecoder [(["Name"], None); (["vin"], None)] in
  Forall (fun key => occurs "." key = false /\ hasUpper key = true) (dec_header dec)
  /\ Fixtures.DecodeT dec
       (Some (TPtr "" Fixtures.personStruct, VPtr (Some (VStruct [VString ""]))))
     = Return (withReader dec [], Some (VPtr (Some (VStruct [VString ""]))), None).
Proof.
  intros dec.
  assert (Hheader : Forall (fun key => occurs "." key = false /\ hasUpper key = true)
                      (dec_header dec)) by (repeat constructor).
  split; [exact Hheader |].
  apply (@capitalised_header_fills_nothing GoFloat.goFloatConv Fixtures.testMethods dec
           ["vin"] [] "" "personStruct" [Fixtures.exported "Name" Fixtures.tString]
           [VString ""]); try reflexivity; try exact Hheader.
  constructor; [| constructor]. right. split; reflexivity.
Defined.

(* ===================================================================== *)
(** * Further properties: what [Decode] never does *)
(* ===================================================================== *)

Section DecodeReturns.
Context `{FloatConv} `{MethodTable}.












End DecodeReturns.


(* ===================================================================== *)
(** * Further properties: the elements of a slice *)
(* ===================================================================== *)

Section SliceComposition.
Context `{FloatConv} `{MethodTable}.

Lemma sliceLoop_cells (enc : Encoder) (et : type) (fl : flags) (xs : list value)
      (cs : list string) :
  Forall2 (fun x c => marshal enc et x (flagsIndex fl) false = Ok [c]) xs cs ->
  sliceLoop (marshal enc) et fl xs = Ok cs.
Proof.
  induction 1 as [| x c xs cs Hc Hrest IH]; [reflexivity |].
  cbn [sliceLoop]. rewrite Hc, IH. reflexivity.
Qed.

(** X30: a slice makes the round trip when its elements do and the
    commas are those of the join.  If every element of a non-empty
    slice of a type without hooks is written as one cell that holds no
    comma and decodes back into the element, then the slice is written
    as the cells joined by commas, and that cell, unless it is one of
    the two sentinels, decodes into the slice. *)
Theorem slice_round_trip (enc : Encoder) (dec : Decoder) (n : string) (et : type)
        (xs : list value) (cs : list string) (fl fld : flags) (v : value) :
  methods n = noMethods -> flagRO fl = false -> mustBeAssignable fld = None ->
  xs <> [] ->
  Forall2 (fun x c =>
             marshal enc et x (flagsIndex fl) false = Ok [c]
             /\ occurs "," c = false
             /\ readStringTo dec et (Zero et) (flagsIndex flagsValueOf) c = Return (x, None))
          xs cs ->
  strings.Join cs "," <> dec_NilValue dec -> strings.Join cs "," <> dec_EmptyValue dec ->
  marshal enc (TSlice n et) (VSlice (Some xs)) fl false = Ok [strings.Join cs ","]
  /\ readStringTo dec (TSlice n et) v fld (strings.Join cs ",")
     = Return (VSlice (Some xs), None).
Proof.
  intros Hn Hro Hset Hxs Helems Hnil Hempty.
  pose proof (mustBeAssignable_RO _ Hset) as Hro'.
  split.
  - rewrite marshal_no_hooks by (assumption || discriminate).
    unfold marshalValue. cbn [IsZeroValue andb].
    rewrite (sliceLoop_cells enc et fl xs cs); [reflexivity |].
    eapply Forall2_impl; [exact Helems |]. cbn beta. intros x c (Hc & _). exact Hc.
  - rewrite readStringTo_no_hooks by (assumption || discriminate).
    rewrite JoinFacts.Split_Join.
    + assert (Hfill : sliceFill (readStringTo dec) et cs = Return (xs, None)).
      { apply sliceFill_ok. apply Forall2_flip.
        eapply Forall2_impl; [exact Helems |]. cbn beta. intros x c (_ & _ & Hd). exact Hd. }
      rewrite Hfill. apply assign_ok. assumption.
    + intros ->. apply Hxs. inversion Helems. reflexivity.
    + clear -Helems. induction Helems as [| x c xs cs (_ & Hc & _) Hrest IH]; constructor;
        assumption.
Qed.

End SliceComposition.

(** X30 on the slice of the test "should encode slices". *)
Lemma slice_round_trip_witness :
  Fixtures.marshalT Fixtures.encoder0 (TSlice "" Fixtures.tString)
    (VSlice (Some [VString "vin"; VString "diesel"])) flagsValueOf false
  = Ok [strings.Join ["vin"; "diesel"] ","]
  /\ Fixtures.readStringToT Fixtures.decoder0 (TSlice "" Fixtures.tString) (VSlice None)
       Fixtures.settable (strings.Join ["vin"; "diesel"] ",")
     = Return (VSlice (Some [VString "vin"; VString "diesel"]), None).
Proof.
  apply (@slice_round_trip GoFloat.goFloatConv Fixtures.testMethods Fixtures.encoder0
           Fixtures.decoder0 "" Fixtures.tString [VString "vin"; VString "diesel"]
           ["vin"; "diesel"] flagsValueOf Fixtures.settable (VSlice None));
    try reflexivity; try discriminate.
  repeat (constructor; [repeat split; reflexivity |]). constructor.
Defined.
